(** * hbf-agent: rule reconciler, service registry, health monitor, selectors

    A shallow embedding of the Go packages [internal/firewall],
    [internal/servicemesh] (manager and load balancers) and
    [internal/health], followed by the properties of the specification that
    are settled against it.  Around them: the iptables backend and the
    choice of the backends, the validation of the configuration, the by-ID
    handlers of the HTTP API, the life cycle of the metrics manager and
    the agent that builds, starts and stops all of these, with the
    properties that the code shows of them.

    Modelling conventions.
    - The methods guard their accesses to the store with the manager's
      mutex.  A call is taken as one atomic state transformer and a
      concurrent history as the sequence of its calls; interleavings inside
      one call are not modelled.
    - A Go pointer is an address [ptr] into a heap of structs (a finite map);
      the maps [map[string]*T] of the managers hold addresses, so that two
      holders of one pointer observe each other's writes.  Dereferencing an
      address that is not allocated is Go's nil dereference and panics.
    - [error] is [option string]: [None] is [nil], [Some msg] carries the
      message built by [fmt.Errorf].
    - [time.Now()] reads a clock oracle kept in the world state; backends,
      the network and [math/rand] are oracles as well.
    - The order of a [range] over a map is chosen by the runtime anew for
      every loop: each loop draws the number of an arrangement from an
      oracle kept in the world state.  The [List...] methods, whose result
      is a slice built by such a loop, are given in one arrangement, and
      nothing is stated of them but up to a permutation.
    - Logging through logrus has no effect on the modelled state and is
      left out.
    - A goroutine started by a call is taken up to the point where it
      first blocks.  The three loops open with [time.NewTicker], which
      panics on an interval that is not positive; a panic in a goroutine
      ends the process, which is shown as the panic of the call that
      started the goroutine.  The calls into [net/http] whose outcome the
      code depends on are given by the environment. *)

From stdpp Require Import gmap strings list fin_maps pretty.
From Stdlib Require Import ZArith Lia Ascii.

(** ** Go runtime notions shared by the three packages *)

Module Go.

(** Address of a heap-allocated struct. *)
Abbreviation ptr := positive.

(** The outcome of a call: it returns, or the goroutine panics. *)
Inductive result (A : Type) : Type :=
| Return (a : A)
| Panic (msg : string).
Global Arguments Return {A} a.
Global Arguments Panic {A} msg.

Definition nil_dereference : string :=
  "invalid memory address or nil pointer dereference".

(** State of a [chan struct{}] that is only ever closed. *)
Inductive chan_state : Type := ChanOpen | ChanClosed.

Global Instance chan_state_eq_dec : EqDecision chan_state.
Proof. solve_decision. Defined.

(** Two's complement wrap-around of [int]/[int64] and of [uint64]. *)
Definition wrap_int64 (z : Z) : Z := ((z + 2 ^ 63) mod 2 ^ 64 - 2 ^ 63)%Z.
Definition wrap_uint64 (z : Z) : Z := (z mod 2 ^ 64)%Z.

Definition MaxInt64 : Z := (2 ^ 63 - 1)%Z.

(** [fmt.Sprintf("%d", n)]. *)
Definition Sprintf_d (n : Z) : string := pretty n.

(** [time.Second] in nanoseconds ([time.Duration] is an int64). *)
Definition Second : Z := 1000000000%Z.

(** The panic of [time.NewTicker(d)] when [d <= 0]. *)
Definition NewTicker_panic : string := "non-positive interval for NewTicker".

(** [x] put at position [i] of [l], at its end when [i] is beyond it. *)
Definition insert_at {A : Type} (i : nat) (x : A) (l : list A) : list A :=
  take i l ++ x :: drop i l.

(** The arrangement numbered [seed] of the entries [l] of a map: the
    order in which one [range] loop meets them.  Every arrangement of [l]
    has a number, and number 0 is [l] itself. *)
Fixpoint range_order {A : Type} (seed : nat) (l : list A) : list A :=
  match l with
  | [] => []
  | x :: rest =>
      insert_at (seed mod S (length rest)) x
        (range_order (seed / S (length rest)) rest)
  end.

(** [strings.Split(s, sep)] for a separator of one byte: the substrings
    between the separators, one more than there are separators. *)
Fixpoint Split (s : string) (sep : ascii) : list string :=
  match s with
  | EmptyString => [EmptyString]
  | String a s' =>
      if decide (a = sep) then EmptyString :: Split s' sep
      else
        match Split s' sep with
        | part :: parts => String a part :: parts
        | [] => [String a EmptyString]
        end
  end.

End Go.

Import Go.

Abbreviation error := (option string).

(** ** Package servicemesh *)

Module ServiceMesh.

(** [type ServiceStatus string] with its three constants. *)
Inductive ServiceStatus : Type :=
| StatusHealthy
| StatusUnhealthy
| StatusUnknown.

Global Instance ServiceStatus_eq_dec : EqDecision ServiceStatus.
Proof. solve_decision. Defined.

(** [type HealthCheck struct]; [Type] is a keyword here, hence [Type_]. *)
Record HealthCheck : Type := mkHealthCheck {
  Type_ : string;
  Endpoint : string;
  Interval : Z;
  Timeout : Z
}.

Global Instance HealthCheck_eq_dec : EqDecision HealthCheck.
Proof. solve_decision. Defined.

Record Service : Type := mkService {
  ID : string;
  Name : string;
  Address : string;
  Port : Z;
  Tags : list string;
  Meta : gmap string string;
  HealthCheck_ : option HealthCheck;   (* *HealthCheck, nil when absent *)
  Status : ServiceStatus;
  RegisteredAt : Z;
  LastSeen : Z
}.

Global Instance Service_eq_dec : EqDecision Service.
Proof. solve_decision. Defined.

(** A [*Service] handed to a reader that only inspects it: the address
    together with the struct it points to at the time of the call. *)
Abbreviation sref := (ptr * Service)%type.

(** *** loadbalancer.go *)

Record RoundRobinLoadBalancer : Type := mkRoundRobin {
  counter : Z                           (* uint64 *)
}.

Record LeastConnLoadBalancer : Type := mkLeastConn {
  connections : gmap string Z           (* map[string]int64 *)
}.

Definition no_services : string := "no services available".

(** [RoundRobinLoadBalancer.Select]: [atomic.AddUint64] returns the new
    value of the counter, which indexes the slice modulo its length. *)
Definition RoundRobin_Select (services : list sref) (lb : RoundRobinLoadBalancer)
  : (option sref * error) * RoundRobinLoadBalancer :=
  if decide (length services = 0) then ((None, Some no_services), lb)
  else
    let c := wrap_uint64 (counter lb + 1) in
    let index := (c mod Z.of_nat (length services))%Z in
    ((services !! Z.to_nat index, None), {| counter := c |}).

(** [lb.connections[id]]: a missing key reads as 0. *)
Definition conn_of (conns : gmap string Z) (id : string) : Z :=
  default 0%Z (conns !! id).

(** One iteration of the scan of [LeastConnLoadBalancer.Select]; the state
    is [(selected, minConn)]. *)
Definition LeastConn_scan (conns : gmap string Z)
    (st : option sref * Z) (service : sref) : option sref * Z :=
  let conn := conn_of conns (ID service.2) in
  if bool_decide (st.2 = (-1)%Z) || bool_decide (conn < st.2)%Z
  then (Some service, conn)
  else st.

(** [LeastConnLoadBalancer.Select]: the scan for the least count, then the
    increment of the count of the service selected. *)
Definition LeastConn_Select (services : list sref) (lb : LeastConnLoadBalancer)
  : (option sref * error) * LeastConnLoadBalancer :=
  if decide (length services = 0) then ((None, Some no_services), lb)
  else
    let '(selected, _) :=
      foldl (LeastConn_scan (connections lb)) (None, (-1)%Z) services in
    match selected with
    | Some s =>
        let id := ID s.2 in
        ((selected, None),
         {| connections :=
              <[id := wrap_int64 (conn_of (connections lb) id + 1)]>
                (connections lb) |})
    | None => ((None, None), lb)
    end.

(** [LeastConnLoadBalancer.ReleaseConnection] *)
Definition LeastConn_ReleaseConnection (serviceID : string)
    (lb : LeastConnLoadBalancer) : LeastConnLoadBalancer :=
  match connections lb !! serviceID with
  | Some count =>
      if bool_decide (count > 0)%Z
      then {| connections :=
                <[serviceID := wrap_int64 (count - 1)]> (connections lb) |}
      else lb
  | None => lb
  end.

Inductive LoadBalancer : Type :=
| RoundRobin (lb : RoundRobinLoadBalancer)
| LeastConn (lb : LeastConnLoadBalancer)
| Random
| Weighted.

(** [NewLoadBalancer]: an unknown strategy falls back to round-robin. *)
Definition NewLoadBalancer (strategy : string) : LoadBalancer :=
  if decide (strategy = "round_robin") then RoundRobin {| counter := 0 |}
  else if decide (strategy = "least_conn") then LeastConn {| connections := ∅ |}
  else if decide (strategy = "random") then Random
  else if decide (strategy = "weighted") then Weighted
  else RoundRobin {| counter := 0 |}.

(** [RandomLoadBalancer.Select] and [WeightedLoadBalancer.Select] have the
    same body; [rnd] is the draw of [math/rand], reduced into
    [0, len(services))] as [rand.Intn] does. *)
Definition Random_Select (services : list sref) (rnd : Z) : option sref * error :=
  if decide (length services = 0) then (None, Some no_services)
  else
    let index := (rnd mod Z.of_nat (length services))%Z in
    (services !! Z.to_nat index, None).

(** Dynamic dispatch of [LoadBalancer.Select]. *)
Definition LoadBalancer_Select (services : list sref) (rnd : Z) (lb : LoadBalancer)
  : (option sref * error) * LoadBalancer :=
  match lb with
  | RoundRobin rr =>
      let '(r, rr') := RoundRobin_Select services rr in (r, RoundRobin rr')
  | LeastConn lc =>
      let '(r, lc') := LeastConn_Select services lc in (r, LeastConn lc')
  | Random => (Random_Select services rnd, Random)
  | Weighted => (Random_Select services rnd, Weighted)
  end.

(** *** Histories of selector calls *)

(** [n] successive calls of [RoundRobinLoadBalancer.Select] on one list of
    candidates, with the results in call order. *)
Fixpoint RoundRobin_calls (n : nat) (services : list sref)
    (lb : RoundRobinLoadBalancer)
  : list (option sref * error) * RoundRobinLoadBalancer :=
  match n with
  | O => ([], lb)
  | S n' =>
      let '(r, lb1) := RoundRobin_Select services lb in
      let '(rs, lb2) := RoundRobin_calls n' services lb1 in
      (r :: rs, lb2)
  end.

(** The two calls that touch the table of the least-connection balancer. *)
Inductive SelectorOp : Type :=
| OpSelect (services : list sref)
| OpReleaseConnection (serviceID : string).

Definition LeastConn_step (lb : LeastConnLoadBalancer) (op : SelectorOp)
  : LeastConnLoadBalancer :=
  match op with
  | OpSelect services => (LeastConn_Select services lb).2
  | OpReleaseConnection serviceID => LeastConn_ReleaseConnection serviceID lb
  end.

Definition LeastConn_run (ops : list SelectorOp) (lb : LeastConnLoadBalancer)
  : LeastConnLoadBalancer :=
  foldl LeastConn_step lb ops.

(** Every counter of the table lies between 0 and [bound]. *)
Definition nonneg_counts (bound : Z) (lb : LeastConnLoadBalancer) : Prop :=
  ∀ id c, connections lb !! id = Some c → (0 ≤ c ≤ bound)%Z.

(** [s], at position [i], is the first service of the list with the
    least number of outstanding connections. *)
Definition first_least (conns : gmap string Z) (services : list sref)
    (i : nat) (s : sref) : Prop :=
  services !! i = Some s ∧
  (∀ j t, services !! j = Some t →
          (conn_of conns (ID s.2) ≤ conn_of conns (ID t.2))%Z) ∧
  (∀ j t, j < i → services !! j = Some t →
          (conn_of conns (ID s.2) < conn_of conns (ID t.2))%Z).

(** *** manager.go: the discovery capability *)

Inductive DiscoveryCall : Type :=
| CallRegister (service : sref)
| CallDeregister (serviceID : string)
| CallDiscover (serviceName : string).

(** [type Discovery interface].  A backend has a state of its own; it is
    handed the heap because it may keep the [*Service] it was given and
    read it later.  [Watch] returns a channel and is not modelled. *)
Class Discovery (D : Type) : Type := {
  Register : sref → D → error * D;
  Deregister : string → gmap ptr Service → D → error * D;
  Discover : string → gmap ptr Service → D → (list sref * error) * D
}.

(** The placeholder backends: every call succeeds, nothing is found. *)
Inductive ConsulDiscovery : Type := mkConsulDiscovery.
Inductive EtcdDiscovery : Type := mkEtcdDiscovery.
Inductive DNSDiscovery : Type := mkDNSDiscovery.

Global Instance ConsulDiscovery_Discovery : Discovery ConsulDiscovery := {
  Register _ d := (None, d);
  Deregister _ _ d := (None, d);
  Discover _ _ d := (([], None), d)
}.

Global Instance EtcdDiscovery_Discovery : Discovery EtcdDiscovery := {
  Register _ d := (None, d);
  Deregister _ _ d := (None, d);
  Discover _ _ d := (([], None), d)
}.

Global Instance DNSDiscovery_Discovery : Discovery DNSDiscovery := {
  Register _ d := (None, d);
  Deregister _ _ d := (None, d);
  Discover _ _ d := (([], None), d)
}.

(** [StaticDiscovery]: service name to the slice of registered pointers
    (its field [services], renamed apart from the manager's). *)
Record StaticDiscovery : Type := mkStaticDiscovery {
  sd_services : gmap string (list ptr)
}.

Definition Static_Register (service : sref) (d : StaticDiscovery)
  : error * StaticDiscovery :=
  let name := Name service.2 in
  (None,
   {| sd_services :=
        <[name := default [] (sd_services d !! name) ++ [service.1]]>
          (sd_services d) |}).

(** Position of the first pointer of the slice whose struct has the ID.
    Every stored pointer was dereferenced by [Register] before it was
    stored, so all of them are allocated. *)
Fixpoint Static_index (h : gmap ptr Service) (serviceID : string)
    (services : list ptr) : option nat :=
  match services with
  | [] => None
  | p :: rest =>
      match h !! p with
      | Some s =>
          if decide (ID s = serviceID) then Some 0
          else S <$> Static_index h serviceID rest
      | None => S <$> Static_index h serviceID rest
      end
  end.

(** The scan of [Deregister] over the entries of the map (Go leaves the
    order of a map range unspecified; [map_to_list] fixes one). *)
Fixpoint Static_Deregister_scan (h : gmap ptr Service) (serviceID : string)
    (entries : list (string * list ptr)) (d : StaticDiscovery)
  : error * StaticDiscovery :=
  match entries with
  | [] => (Some ("service not found: " +:+ serviceID), d)
  | (name, services) :: rest =>
      match Static_index h serviceID services with
      | Some i =>
          (None, {| sd_services := <[name := delete i services]> (sd_services d) |})
      | None => Static_Deregister_scan h serviceID rest d
      end
  end.

Definition Static_Deregister (serviceID : string) (h : gmap ptr Service)
    (d : StaticDiscovery) : error * StaticDiscovery :=
  Static_Deregister_scan h serviceID (map_to_list (sd_services d)) d.

Definition deref_all (h : gmap ptr Service) (ps : list ptr) : list sref :=
  omap (λ p, (λ s, (p, s)) <$> h !! p) ps.

Definition Static_Discover (serviceName : string) (h : gmap ptr Service)
    (d : StaticDiscovery) : (list sref * error) * StaticDiscovery :=
  ((deref_all h (default [] (sd_services d !! serviceName)), None), d).

Global Instance StaticDiscovery_Discovery : Discovery StaticDiscovery := {
  Register := Static_Register;
  Deregister := Static_Deregister;
  Discover := Static_Discover
}.

Definition NewStaticDiscovery : StaticDiscovery := {| sd_services := ∅ |}.

(** *** manager.go: the manager *)

(** What the manager acts on besides its own fields: the heap of
    [Service] structs, the discovery backend with the trace of the calls
    made to it and their results, the clock, the random source and the
    order of the map ranges, and the number of [discoveryLoop] goroutines
    that run. *)
Record World (D : Type) : Type := mkWorld {
  heap : gmap ptr Service;
  discovery : D;
  calls : list (DiscoveryCall * error);
  clock : nat → Z;
  ticks : nat;
  rand : nat → Z;
  draws : nat;
  order : nat → nat;
  ranges : nat;
  loops : nat
}.
Global Arguments mkWorld {D}.
Global Arguments heap {D}.
Global Arguments discovery {D}.
Global Arguments calls {D}.
Global Arguments clock {D}.
Global Arguments ticks {D}.
Global Arguments rand {D}.
Global Arguments draws {D}.
Global Arguments order {D}.
Global Arguments ranges {D}.
Global Arguments loops {D}.

(** [type Manager struct]; of [config] the methods read the discovery
    interval, [log] is not modelled and [discovery] lives in the world. *)
Record Manager : Type := mkManager {
  interval : Z;                         (* m.config.Discovery.Interval *)
  loadBalance : LoadBalancer;
  services : gmap string ptr;           (* map[string]*Service *)
  stopChan : chan_state;
  running : bool
}.

(** [NewManager], from the two fields of the configuration that the
    manager reads. *)
Definition NewManager (strategy : string) (discoveryInterval : Z) : Manager :=
  {| interval := discoveryInterval;
     loadBalance := NewLoadBalancer strategy;
     services := ∅;
     stopChan := ChanOpen;
     running := false |}.

Section manager.
Context {D : Type} `{!Discovery D}.

Definition set_heap (h : gmap ptr Service) (w : World D) : World D :=
  mkWorld h (discovery w) (calls w) (clock w) (ticks w) (rand w) (draws w)
          (order w) (ranges w) (loops w).

Definition set_services (ss : gmap string ptr) (m : Manager) : Manager :=
  mkManager (interval m) (loadBalance m) ss (stopChan m) (running m).

Definition set_running (b : bool) (m : Manager) : Manager :=
  mkManager (interval m) (loadBalance m) (services m) (stopChan m) b.

(** [time.Now().UnixNano()]. *)
Definition time_Now (w : World D) : Z * World D :=
  (clock w (ticks w),
   mkWorld (heap w) (discovery w) (calls w) (clock w) (S (ticks w))
           (rand w) (draws w) (order w) (ranges w) (loops w)).

(** The next draw of [math/rand]. *)
Definition rand_Int (w : World D) : Z * World D :=
  (rand w (draws w),
   mkWorld (heap w) (discovery w) (calls w) (clock w) (ticks w)
           (rand w) (S (draws w)) (order w) (ranges w) (loops w)).

(** [for _, service := range m.services]: the stored pointers in the
    order of this loop. *)
Definition range_services (m : Manager) (w : World D) : list ptr * World D :=
  ((range_order (order w (ranges w)) (map_to_list (services m))).*2,
   mkWorld (heap w) (discovery w) (calls w) (clock w) (ticks w)
           (rand w) (draws w) (order w) (S (ranges w)) (loops w)).

Definition spawn_loop (w : World D) : World D :=
  mkWorld (heap w) (discovery w) (calls w) (clock w) (ticks w)
          (rand w) (draws w) (order w) (ranges w) (S (loops w)).

(** [go m.discoveryLoop(ctx)], up to the [select] of the loop: its first
    statement is [time.NewTicker(m.config.Discovery.Interval)]. *)
Definition go_discoveryLoop (m : Manager) (w : World D) : result unit * World D :=
  if decide (interval m ≤ 0)%Z then (Panic NewTicker_panic, w)
  else (Return (), spawn_loop w).

Definition backend_step (c : DiscoveryCall) (r : error * D) (w : World D)
  : error * World D :=
  (r.1,
   mkWorld (heap w) r.2 (calls w ++ [(c, r.1)]) (clock w) (ticks w)
           (rand w) (draws w) (order w) (ranges w) (loops w)).

(** [m.discovery.Register(service)] *)
Definition call_Register (service : sref) (w : World D) : error * World D :=
  backend_step (CallRegister service) (Register service (discovery w)) w.

(** [m.discovery.Deregister(serviceID)] *)
Definition call_Deregister (serviceID : string) (w : World D) : error * World D :=
  backend_step (CallDeregister serviceID)
    (Deregister serviceID (heap w) (discovery w)) w.

(** [m.discovery.Discover(serviceName)] *)
Definition call_Discover (serviceName : string) (w : World D)
  : (list sref * error) * World D :=
  let r := Discover serviceName (heap w) (discovery w) in
  let '(err, w') := backend_step (CallDiscover serviceName) (r.1.2, r.2) w in
  ((r.1.1, err), w').

(** [generateServiceID] *)
Definition generateServiceID (serviceName : string) (w : World D)
  : string * World D :=
  let '(t, w) := time_Now w in
  (serviceName +:+ "-" +:+ Sprintf_d t, w).

(** The writes of [RegisterService] to the struct behind [service]. *)
Definition registered (s : Service) (id : string) (registeredAt lastSeen : Z)
  : Service :=
  {| ID := id; Name := Name s; Address := Address s; Port := Port s;
     Tags := Tags s; Meta := Meta s; HealthCheck_ := HealthCheck_ s;
     Status := StatusUnknown;
     RegisteredAt := registeredAt; LastSeen := lastSeen |}.

Definition RegisterService (service : ptr) (m : Manager) (w : World D)
  : result error * Manager * World D :=
  match heap w !! service with
  | None => (Panic nil_dereference, m, w)
  | Some s =>
      let '(id, w) :=
        if decide (ID s = "") then generateServiceID (Name s) w
        else (ID s, w) in
      let '(registeredAt, w) := time_Now w in
      let '(lastSeen, w) := time_Now w in
      let s' := registered s id registeredAt lastSeen in
      let w := set_heap (<[service := s']> (heap w)) w in
      let '(err, w) := call_Register (service, s') w in
      match err with
      | Some e => (Return (Some ("failed to register service: " +:+ e)), m, w)
      | None => (Return None, set_services (<[id := service]> (services m)) m, w)
      end
  end.

Definition DeregisterService (serviceID : string) (m : Manager) (w : World D)
  : result error * Manager * World D :=
  match services m !! serviceID with
  | None => (Return (Some ("service not found: " +:+ serviceID)), m, w)
  | Some _ =>
      let '(err, w) := call_Deregister serviceID w in
      match err with
      | Some e => (Return (Some ("failed to deregister service: " +:+ e)), m, w)
      | None => (Return None, set_services (delete serviceID (services m)) m, w)
      end
  end.

Definition GetService (serviceID : string) (m : Manager) : option ptr * error :=
  match services m !! serviceID with
  | None => (None, Some ("service not found: " +:+ serviceID))
  | Some service => (Some service, None)
  end.

(** [ListServices]: the stored pointers, in the order of the map range. *)
Definition ListServices (m : Manager) : list ptr :=
  (map_to_list (services m)).*2.

Definition DiscoverService (serviceName : string) (w : World D)
  : (list sref * error) * World D :=
  let '((found, err), w) := call_Discover serviceName w in
  match err with
  | Some e => (([], Some ("failed to discover service: " +:+ e)), w)
  | None => ((found, None), w)
  end.

(** The loop of [SelectService] that keeps the healthy instances. *)
Definition healthy_only (found : list sref) : list sref :=
  filter (λ service, Status service.2 = StatusHealthy) found.

Definition SelectService (serviceName : string) (m : Manager) (w : World D)
  : (option sref * error) * Manager * World D :=
  let '((found, err), w) := DiscoverService serviceName w in
  match err with
  | Some e => ((None, Some e), m, w)
  | None =>
      if decide (length found = 0)
      then ((None, Some ("no instances found for service: " +:+ serviceName)), m, w)
      else
        let healthyServices := healthy_only found in
        if decide (length healthyServices = 0)
        then ((None,
               Some ("no healthy instances found for service: " +:+ serviceName)),
              m, w)
        else
          let '(rnd, w) :=
            match loadBalance m with
            | Random | Weighted => rand_Int w
            | _ => (0%Z, w)
            end in
          let '(r, lb) := LoadBalancer_Select healthyServices rnd (loadBalance m) in
          (r, mkManager (interval m) lb (services m) (stopChan m) (running m), w)
  end.

Definition updated (s : Service) (status : ServiceStatus) (lastSeen : Z) : Service :=
  {| ID := ID s; Name := Name s; Address := Address s; Port := Port s;
     Tags := Tags s; Meta := Meta s; HealthCheck_ := HealthCheck_ s;
     Status := status;
     RegisteredAt := RegisteredAt s; LastSeen := lastSeen |}.

Definition UpdateServiceStatus (serviceID : string) (status : ServiceStatus)
    (m : Manager) (w : World D) : result error * World D :=
  match services m !! serviceID with
  | None => (Return (Some ("service not found: " +:+ serviceID)), w)
  | Some service =>
      match heap w !! service with
      | None => (Panic nil_dereference, w)
      | Some s =>
          let '(lastSeen, w) := time_Now w in
          (Return None,
           set_heap (<[service := updated s status lastSeen]> (heap w)) w)
      end
  end.

(** [Start]: the guard, then [go m.discoveryLoop(ctx)]. *)
Definition Start (m : Manager) (w : World D) : result error * Manager * World D :=
  if running m
  then (Return (Some "service mesh manager is already running"), m, w)
  else
    let m := set_running true m in
    match go_discoveryLoop m w with
    | (Panic msg, w) => (Panic msg, m, w)
    | (Return _, w) => (Return None, m, w)
    end.

(** The loop of [Stop] that deregisters every stored service; failures
    are logged and skipped. *)
Fixpoint deregister_all (ps : list ptr) (w : World D) : result unit * World D :=
  match ps with
  | [] => (Return (), w)
  | service :: rest =>
      match heap w !! service with
      | None => (Panic nil_dereference, w)
      | Some s =>
          let '(_, w) := call_Deregister (ID s) w in
          deregister_all rest w
      end
  end.

Definition Stop (m : Manager) (w : World D) : result error * Manager * World D :=
  if negb (running m)
  then (Return (Some "service mesh manager is not running"), m, w)
  else
    let m := set_running false m in
    let '(stored, w) := range_services m w in
    match deregister_all stored w with
    | (Panic msg, w) => (Panic msg, m, w)
    | (Return _, w) =>
        match stopChan m with
        | ChanClosed => (Panic "close of closed channel", m, w)
        | ChanOpen =>
            (Return None,
             mkManager (interval m) (loadBalance m) (services m) ChanClosed
                       (running m), w)
        end
    end.

(** [syncDiscovery]: the keep-alive pass of [discoveryLoop]. *)
Fixpoint reregister_all (ps : list ptr) (w : World D) : result unit * World D :=
  match ps with
  | [] => (Return (), w)
  | service :: rest =>
      match heap w !! service with
      | None => (Panic nil_dereference, w)
      | Some s =>
          let '(_, w) := call_Register (service, s) w in
          reregister_all rest w
      end
  end.

Definition syncDiscovery (m : Manager) (w : World D) : result unit * World D :=
  let '(stored, w) := range_services m w in
  reregister_all stored w.

End manager.

(** *** An in-memory double of the discovery capability

    The static backend behind a switch that makes every call fail; it
    stands for a registry in concrete runs. *)
Record FakeDiscovery : Type := mkFakeDiscovery {
  fd_static : StaticDiscovery;
  fd_down : bool
}.

Definition unreachable : string := "registry unreachable".

Global Instance FakeDiscovery_Discovery : Discovery FakeDiscovery := {
  Register service d :=
    if fd_down d then (Some unreachable, d)
    else (None, {| fd_static := (Static_Register service (fd_static d)).2;
                   fd_down := fd_down d |});
  Deregister serviceID h d :=
    if fd_down d then (Some unreachable, d)
    else ((Static_Deregister serviceID h (fd_static d)).1,
          {| fd_static := (Static_Deregister serviceID h (fd_static d)).2;
             fd_down := fd_down d |});
  Discover serviceName h d :=
    if fd_down d then (([], Some unreachable), d)
    else ((Static_Discover serviceName h (fd_static d)).1, d)
}.

(** *** Services and worlds used in concrete runs *)

(** A service that comes without a health-check specification. *)
Definition web1 : Service :=
  {| ID := "S1"; Name := "web"; Address := "10.0.0.1"; Port := 8080;
     Tags := []; Meta := ∅; HealthCheck_ := None; Status := StatusHealthy;
     RegisteredAt := 0; LastSeen := 0 |}.

(** A service with one. *)
Definition web2 : Service :=
  {| ID := "S2"; Name := "web"; Address := "10.0.0.2"; Port := 8080;
     Tags := []; Meta := ∅;
     HealthCheck_ := Some {| Type_ := "http";
                             Endpoint := "http://10.0.0.2:8080/health";
                             Interval := (10 * Second)%Z;
                             Timeout := (5 * Second)%Z |};
     Status := StatusHealthy; RegisteredAt := 0; LastSeen := 0 |}.

Definition wall_clock (n : nat) : Z := (1700000000000000000 + Z.of_nat n)%Z.

Definition world_of {D : Type} (h : gmap ptr Service) (d : D) : World D :=
  {| heap := h; discovery := d; calls := []; clock := wall_clock; ticks := 0;
     rand := λ n, Z.of_nat n; draws := 0; order := λ n, n; ranges := 0;
     loops := 0 |}.

(** Two instances registered with the static backend, the second one
    reported healthy since. *)
Definition two_registered : Manager * World StaticDiscovery :=
  let '(_, m, w) := RegisterService 1%positive
                      (NewManager "least_conn" (10 * Second))
                      (world_of {[1%positive := web1; 2%positive := web2]}
                         NewStaticDiscovery) in
  let '(_, m, w) := RegisterService 2%positive m w in
  (m, (UpdateServiceStatus "S2" StatusHealthy m w).2).

(** *** manager.go: the choice of the discovery backend *)

(** The interface value [Discovery] that [NewManager] stores: one of the
    four implementations of the package. *)
Inductive AnyDiscovery : Type :=
| UseConsul (d : ConsulDiscovery)
| UseEtcd (d : EtcdDiscovery)
| UseDNS (d : DNSDiscovery)
| UseStatic (d : StaticDiscovery).

Definition lift_discovery {A B : Type} (f : B → AnyDiscovery) (r : A * B)
  : A * AnyDiscovery :=
  (r.1, f r.2).

Global Instance AnyDiscovery_Discovery : Discovery AnyDiscovery := {
  Register service d :=
    match d with
    | UseConsul d => lift_discovery UseConsul (Register service d)
    | UseEtcd d => lift_discovery UseEtcd (Register service d)
    | UseDNS d => lift_discovery UseDNS (Register service d)
    | UseStatic d => lift_discovery UseStatic (Register service d)
    end;
  Deregister serviceID h d :=
    match d with
    | UseConsul d => lift_discovery UseConsul (Deregister serviceID h d)
    | UseEtcd d => lift_discovery UseEtcd (Deregister serviceID h d)
    | UseDNS d => lift_discovery UseDNS (Deregister serviceID h d)
    | UseStatic d => lift_discovery UseStatic (Deregister serviceID h d)
    end;
  Discover serviceName h d :=
    match d with
    | UseConsul d => lift_discovery UseConsul (Discover serviceName h d)
    | UseEtcd d => lift_discovery UseEtcd (Discover serviceName h d)
    | UseDNS d => lift_discovery UseDNS (Discover serviceName h d)
    | UseStatic d => lift_discovery UseStatic (Discover serviceName h d)
    end
}.

(** [NewDiscovery]: the [switch cfg.Backend]; the four constructors never
    fail. *)
Definition NewDiscovery (backendName : string) : AnyDiscovery + string :=
  if decide (backendName = "consul") then inl (UseConsul mkConsulDiscovery)
  else if decide (backendName = "etcd") then inl (UseEtcd mkEtcdDiscovery)
  else if decide (backendName = "dns") then inl (UseDNS mkDNSDiscovery)
  else if decide (backendName = "static") then inl (UseStatic NewStaticDiscovery)
  else inr ("unsupported discovery backend: " +:+ backendName).

(** The same two instances in a running manager, the state written out. *)
Definition two_running : Manager * World StaticDiscovery :=
  ({| interval := (10 * Second)%Z;
      loadBalance := RoundRobin {| counter := 0 |};
      services := {["S1" := 1%positive; "S2" := 2%positive]};
      stopChan := ChanOpen; running := true |},
   {| heap := {[1%positive := web1; 2%positive := web2]};
      discovery := {| sd_services := {["web" := [1%positive; 2%positive]]} |};
      calls := []; clock := wall_clock; ticks := 0;
      rand := λ n, Z.of_nat n; draws := 0; order := λ n, n; ranges := 0;
      loops := 1 |}).

End ServiceMesh.

(** ** Package health *)

Module Health.

(** [type CheckStatus string] with its three constants. *)
Inductive CheckStatus : Type :=
| StatusPassing
| StatusWarning
| StatusCritical.

Global Instance CheckStatus_eq_dec : EqDecision CheckStatus.
Proof. solve_decision. Defined.

(** [type Check struct].  [Failures] is a Go [int] (64 bits on the
    supported targets); [callback] is [nil] or a registered function,
    named here by a handle. *)
Record Check : Type := mkCheck {
  ID : string;
  Type_ : string;
  Target : string;
  Interval : Z;
  Timeout : Z;
  Status : CheckStatus;
  LastCheck : Z;
  Failures : Z;
  callback : option nat
}.

(** What a probe meets on the network at the moment it runs:
    [http_Get target timeout] is the response status code or the
    transport error, [net_DialTimeout target timeout] the dial error. *)
Record Network : Type := mkNetwork {
  http_Get : string → Z → Z + string;
  net_DialTimeout : string → Z → error
}.

Record World : Type := mkWorld {
  heap : gmap ptr Check;
  clock : nat → Z;
  ticks : nat;
  order : nat → nat;                      (* the order of the map ranges *)
  ranges : nat;
  callbacks : list (nat * CheckStatus);   (* go check.callback(status) *)
  loops : list ptr                        (* go c.checkLoop(ctx, check) *)
}.

Record Checker : Type := mkChecker {
  checks : gmap string ptr;               (* map[string]*Check *)
  stopChan : chan_state;
  running : bool
}.

Definition NewChecker : Checker :=
  {| checks := ∅; stopChan := ChanOpen; running := false |}.

Definition set_heap (h : gmap ptr Check) (w : World) : World :=
  mkWorld h (clock w) (ticks w) (order w) (ranges w) (callbacks w) (loops w).

Definition time_Now (w : World) : Z * World :=
  (clock w (ticks w),
   mkWorld (heap w) (clock w) (S (ticks w)) (order w) (ranges w) (callbacks w)
           (loops w)).

(** [for _, check := range c.checks]: the stored pointers in the order of
    this loop. *)
Definition range_checks (cs : gmap string ptr) (w : World) : list ptr * World :=
  ((range_order (order w (ranges w)) (map_to_list cs)).*2,
   mkWorld (heap w) (clock w) (ticks w) (order w) (S (ranges w)) (callbacks w)
           (loops w)).

Definition spawn_loops (ps : list ptr) (w : World) : World :=
  mkWorld (heap w) (clock w) (ticks w) (order w) (ranges w) (callbacks w)
          (loops w ++ ps).

Definition invoke_callback (cb : nat) (status : CheckStatus) (w : World) : World :=
  mkWorld (heap w) (clock w) (ticks w) (order w) (ranges w)
          (callbacks w ++ [(cb, status)]) (loops w).

(** [go c.checkLoop(ctx, check)], up to the [select] of the loop: its
    first statement is [time.NewTicker(check.Interval)]. *)
Definition go_checkLoop (check : ptr) (w : World) : result unit * World :=
  match heap w !! check with
  | None => (Panic nil_dereference, w)
  | Some k =>
      if decide (Interval k ≤ 0)%Z then (Panic NewTicker_panic, w)
      else (Return (), spawn_loops [check] w)
  end.

(** The loop of [Start] over the stored checks. *)
Fixpoint go_checkLoops (stored : list ptr) (w : World) : result unit * World :=
  match stored with
  | [] => (Return (), w)
  | check :: rest =>
      match go_checkLoop check w with
      | (Panic msg, w) => (Panic msg, w)
      | (Return _, w) => go_checkLoops rest w
      end
  end.

Definition Start (c : Checker) (w : World) : result error * Checker * World :=
  if running c
  then (Return (Some "health checker is already running"), c, w)
  else
    let c := mkChecker (checks c) (stopChan c) true in
    let '(stored, w) := range_checks (checks c) w in
    match go_checkLoops stored w with
    | (Panic msg, w) => (Panic msg, c, w)
    | (Return _, w) => (Return None, c, w)
    end.

Definition Stop (c : Checker) (w : World) : result error * Checker * World :=
  if negb (running c)
  then (Return (Some "health checker is not running"), c, w)
  else
    match stopChan c with
    | ChanClosed =>
        (Panic "close of closed channel", mkChecker (checks c) (stopChan c) false, w)
    | ChanOpen => (Return None, mkChecker (checks c) ChanClosed false, w)
    end.

(** [generateCheckID] *)
Definition generateCheckID (w : World) : string * World :=
  let '(t, w) := time_Now w in
  ("check-" +:+ Sprintf_d t, w).

(** The writes of [AddCheck] to the struct behind [check]: the ID and the
    two durations when they are unset, the status and the time stamp.
    [Failures] and [callback] are not written. *)
Definition added (k : Check) (id : string) (now : Z) : Check :=
  {| ID := id; Type_ := Type_ k; Target := Target k;
     Interval := if decide (Interval k = 0%Z) then (10 * Second)%Z else Interval k;
     Timeout := if decide (Timeout k = 0%Z) then (5 * Second)%Z else Timeout k;
     Status := StatusPassing;
     LastCheck := now;
     Failures := Failures k;
     callback := callback k |}.

Definition AddCheck (check : ptr) (c : Checker) (w : World)
  : result error * Checker * World :=
  match heap w !! check with
  | None => (Panic nil_dereference, c, w)
  | Some k =>
      let '(id, w) :=
        if decide (ID k = "") then generateCheckID w else (ID k, w) in
      let '(now, w) := time_Now w in
      let w := set_heap (<[check := added k id now]> (heap w)) w in
      let c' := mkChecker (<[id := check]> (checks c)) (stopChan c) (running c) in
      if running c then
        match go_checkLoop check w with
        | (Panic msg, w) => (Panic msg, c', w)
        | (Return _, w) => (Return None, c', w)
        end
      else (Return None, c', w)
  end.

Definition RemoveCheck (checkID : string) (c : Checker) : error * Checker :=
  match checks c !! checkID with
  | None => (Some ("check not found: " +:+ checkID), c)
  | Some _ => (None, mkChecker (delete checkID (checks c)) (stopChan c) (running c))
  end.

Definition GetCheck (checkID : string) (c : Checker) : option ptr * error :=
  match checks c !! checkID with
  | None => (None, Some ("check not found: " +:+ checkID))
  | Some check => (Some check, None)
  end.

Definition ListChecks (c : Checker) : list ptr := (map_to_list (checks c)).*2.

Definition checkHTTP (net : Network) (k : Check) : error :=
  match http_Get net (Target k) (Timeout k) with
  | inr e => Some ("HTTP check failed: " +:+ e)
  | inl code =>
      if bool_decide (code < 200)%Z || bool_decide (code >= 300)%Z
      then Some ("HTTP check returned status " +:+ Sprintf_d code)
      else None
  end.

Definition checkTCP (net : Network) (k : Check) : error :=
  match net_DialTimeout net (Target k) (Timeout k) with
  | Some e => Some ("TCP check failed: " +:+ e)
  | None => None
  end.

(** [checkGRPC] is a placeholder that reports success. *)
Definition checkGRPC (k : Check) : error := None.

(** The [switch check.Type]: the probe's verdict, or [None] when the type
    is not one of the three and [performCheck] returns at once. *)
Definition probe (net : Network) (k : Check) : option error :=
  if decide (Type_ k = "http") then Some (checkHTTP net k)
  else if decide (Type_ k = "tcp") then Some (checkTCP net k)
  else if decide (Type_ k = "grpc") then Some (checkGRPC k)
  else None.

(** The state update of [performCheck] after the probe returned [err]. *)
Definition record_probe (err : error) (k : Check) : Check :=
  match err with
  | Some _ =>
      let failures := wrap_int64 (Failures k + 1) in
      {| ID := ID k; Type_ := Type_ k; Target := Target k;
         Interval := Interval k; Timeout := Timeout k;
         Status := if bool_decide (failures >= 3)%Z
                   then StatusCritical else StatusWarning;
         LastCheck := LastCheck k;
         Failures := failures;
         callback := callback k |}
  | None =>
      {| ID := ID k; Type_ := Type_ k; Target := Target k;
         Interval := Interval k; Timeout := Timeout k;
         Status := StatusPassing;
         LastCheck := LastCheck k;
         Failures := 0;
         callback := callback k |}
  end.

Definition set_LastCheck (now : Z) (k : Check) : Check :=
  {| ID := ID k; Type_ := Type_ k; Target := Target k;
     Interval := Interval k; Timeout := Timeout k;
     Status := Status k; LastCheck := now; Failures := Failures k;
     callback := callback k |}.

Definition performCheck (check : ptr) (net : Network) (w : World)
  : result unit * World :=
  match heap w !! check with
  | None => (Panic nil_dereference, w)
  | Some k =>
      let '(now, w) := time_Now w in
      let k := set_LastCheck now k in
      let w := set_heap (<[check := k]> (heap w)) w in
      match probe net k with
      | None => (Return (), w)
      | Some err =>
          let k := record_probe err k in
          let w := set_heap (<[check := k]> (heap w)) w in
          (Return (),
           match callback k with
           | Some cb => invoke_callback cb (Status k) w
           | None => w
           end)
      end
  end.

Definition SetCallback (checkID : string) (cb : option nat) (c : Checker) (w : World)
  : result error * World :=
  match checks c !! checkID with
  | None => (Return (Some ("check not found: " +:+ checkID)), w)
  | Some check =>
      match heap w !! check with
      | None => (Panic nil_dereference, w)
      | Some k =>
          (Return None,
           set_heap (<[check :=
                        {| ID := ID k; Type_ := Type_ k; Target := Target k;
                           Interval := Interval k; Timeout := Timeout k;
                           Status := Status k; LastCheck := LastCheck k;
                           Failures := Failures k; callback := cb |}]> (heap w)) w)
      end
  end.

(** *** Histories of probes *)

(** The ticks of one [checkLoop]: [performCheck] on the same check, once
    for each state of the network met at a tick. *)
Definition performChecks (check : ptr) (nets : list Network) (w : World) : World :=
  foldl (λ w net, (performCheck check net w).2) w nets.

(** The probe of [k] fails, respectively succeeds, on [net]. *)
Definition fails (net : Network) (k : Check) : Prop :=
  ∃ e, probe net k = Some (Some e).

Definition passes (net : Network) (k : Check) : Prop :=
  probe net k = Some None.

(** A network on which nothing answers, and one on which everything does. *)
Definition net_down : Network :=
  {| http_Get _ _ := inr "connection refused";
     net_DialTimeout _ _ := Some "connection refused" |}.

Definition net_up : Network :=
  {| http_Get _ _ := inl 200%Z;
     net_DialTimeout _ _ := None |}.

(** What one tick leaves behind the pointer. *)
Definition ticked (net : Network) (now : Z) (k : Check) : Check :=
  match probe net k with
  | None => set_LastCheck now k
  | Some err => record_probe err (set_LastCheck now k)
  end.

(** *** Checks used in concrete runs *)

(** A check handed to [AddCheck] with two failures on record. *)
Definition stale_check : Check :=
  {| ID := "db"; Type_ := "tcp"; Target := "10.0.0.5:5432";
     Interval := 0; Timeout := 0; Status := StatusWarning;
     LastCheck := 0; Failures := 2; callback := None |}.

Definition stale_world : World :=
  {| heap := {[1%positive := stale_check]};
     clock := λ n, (1700000000000000000 + Z.of_nat n)%Z; ticks := 0;
     order := λ n, n; ranges := 0; callbacks := []; loops := [] |}.

Definition new_check : Check :=
  {| ID := "web"; Type_ := "http"; Target := "http://10.0.0.7:8080/health";
     Interval := 0; Timeout := 0; Status := StatusPassing;
     LastCheck := 0; Failures := 0; callback := Some 0 |}.

Definition new_world : World :=
  {| heap := {[1%positive := new_check]};
     clock := λ n, (1700000000000000000 + Z.of_nat n)%Z; ticks := 0;
     order := λ n, n; ranges := 0; callbacks := []; loops := [] |}.

(** A check whose type is spelled in capitals, and one of type "grpc"
    with failures on record. *)
Definition mistyped_check : Check :=
  {| ID := "api"; Type_ := "HTTP"; Target := "http://10.0.0.9:8080/health";
     Interval := 0; Timeout := 0; Status := StatusCritical;
     LastCheck := 0; Failures := 0; callback := Some 1 |}.

Definition grpc_check : Check :=
  {| ID := "rpc"; Type_ := "grpc"; Target := "10.0.0.8:50051";
     Interval := 0; Timeout := 0; Status := StatusCritical;
     LastCheck := 0; Failures := 7; callback := None |}.

Definition world_with (k : Check) : World :=
  {| heap := {[1%positive := k]};
     clock := λ n, (1700000000000000000 + Z.of_nat n)%Z; ticks := 0;
     order := λ n, n; ranges := 0; callbacks := []; loops := [] |}.

(** A network on which the target answers with a redirection. *)
Definition net_redirect : Network :=
  {| http_Get _ _ := inl 301%Z;
     net_DialTimeout _ _ := None |}.

End Health.

(** ** Package firewall *)

Module Firewall.

Record Rule : Type := mkRule {
  ID : string;
  Chain : string;
  Protocol : string;
  Source : string;
  Dest : string;
  SPort : string;
  DPort : string;
  Action : string;
  Comment : string;
  CreatedAt : Z
}.

Global Instance Rule_eq_dec : EqDecision Rule.
Proof. solve_decision. Defined.

(** [config.FirewallRule], its fields prefixed apart from those of [Rule],
    and the fields of [config.FirewallConfig] that the manager reads. *)
Record FirewallRule : Type := mkFirewallRule {
  cfg_Chain : string;
  cfg_Protocol : string;
  cfg_Source : string;
  cfg_Dest : string;
  cfg_SPort : string;
  cfg_DPort : string;
  cfg_Action : string;
  cfg_Comment : string
}.

Record FirewallConfig : Type := mkFirewallConfig {
  DefaultPolicy : string;
  SyncInterval : Z;
  Rules : list FirewallRule
}.

(** *** The packet-filter capability *)

Inductive BackendCall : Type :=
| CallAddRule (rule : Rule)
| CallDeleteRule (rule : Rule)
| CallListRules
| CallFlush
| CallSetDefaultPolicy (chain policy : string).

Global Instance BackendCall_eq_dec : EqDecision BackendCall.
Proof. solve_decision. Defined.

(** [type Backend interface].  A backend only reads the rule it is given,
    so it receives the struct behind the pointer. *)
Class Backend (B : Type) : Type := {
  backend_AddRule : Rule → B → error * B;
  backend_DeleteRule : Rule → B → error * B;
  backend_ListRules : B → (list Rule * error) * B;
  backend_Flush : B → error * B;
  backend_SetDefaultPolicy : string → string → B → error * B
}.

(** [NFTablesBackend]: the placeholder, every call succeeds and no rule is
    ever listed. *)
Inductive NFTablesBackend : Type := mkNFTablesBackend.

Global Instance NFTablesBackend_Backend : Backend NFTablesBackend := {
  backend_AddRule _ b := (None, b);
  backend_DeleteRule _ b := (None, b);
  backend_ListRules b := (([], None), b);
  backend_Flush b := (None, b);
  backend_SetDefaultPolicy _ _ b := (None, b)
}.

(** *** The manager *)

Record World (B : Type) : Type := mkWorld {
  heap : gmap ptr Rule;
  backend : B;
  calls : list (BackendCall * error);   (* backend calls and their results *)
  clock : nat → Z;
  ticks : nat;
  order : nat → nat;                     (* the order of the map ranges *)
  ranges : nat;
  loops : nat                            (* go m.syncLoop(ctx) *)
}.
Global Arguments mkWorld {B}.
Global Arguments heap {B}.
Global Arguments backend {B}.
Global Arguments calls {B}.
Global Arguments clock {B}.
Global Arguments ticks {B}.
Global Arguments order {B}.
Global Arguments ranges {B}.
Global Arguments loops {B}.

Record Manager : Type := mkManager {
  config : FirewallConfig;
  rules : gmap string ptr;               (* map[string]*Rule *)
  stopChan : chan_state;
  running : bool
}.

Definition NewManager (cfg : FirewallConfig) : Manager :=
  {| config := cfg; rules := ∅; stopChan := ChanOpen; running := false |}.

Section manager.
Context {B : Type} `{!Backend B}.

Definition set_heap (h : gmap ptr Rule) (w : World B) : World B :=
  mkWorld h (backend w) (calls w) (clock w) (ticks w) (order w) (ranges w)
          (loops w).

Definition set_rules (rs : gmap string ptr) (m : Manager) : Manager :=
  mkManager (config m) rs (stopChan m) (running m).

Definition set_running (b : bool) (m : Manager) : Manager :=
  mkManager (config m) (rules m) (stopChan m) b.

(** [time.Now().UnixNano()] *)
Definition time_Now (w : World B) : Z * World B :=
  (clock w (ticks w),
   mkWorld (heap w) (backend w) (calls w) (clock w) (S (ticks w)) (order w)
           (ranges w) (loops w)).

(** [for _, rule := range m.rules]: the stored pointers in the order of
    this loop. *)
Definition range_rules (m : Manager) (w : World B) : list ptr * World B :=
  ((range_order (order w (ranges w)) (map_to_list (rules m))).*2,
   mkWorld (heap w) (backend w) (calls w) (clock w) (ticks w) (order w)
           (S (ranges w)) (loops w)).

Definition spawn_loop (w : World B) : World B :=
  mkWorld (heap w) (backend w) (calls w) (clock w) (ticks w) (order w)
          (ranges w) (S (loops w)).

(** [go m.syncLoop(ctx)], up to the [select] of the loop: its first
    statement is [time.NewTicker(m.config.SyncInterval)]. *)
Definition go_syncLoop (m : Manager) (w : World B) : result unit * World B :=
  if decide (SyncInterval (config m) ≤ 0)%Z then (Panic NewTicker_panic, w)
  else (Return (), spawn_loop w).

(** [&Rule{...}]: a struct at an address not in use. *)
Definition alloc (r : Rule) (w : World B) : ptr * World B :=
  let p := fresh (dom (heap w)) in
  (p, set_heap (<[p := r]> (heap w)) w).

Definition backend_step (c : BackendCall) (r : error * B) (w : World B)
  : error * World B :=
  (r.1,
   mkWorld (heap w) r.2 (calls w ++ [(c, r.1)]) (clock w) (ticks w) (order w)
           (ranges w) (loops w)).

Definition call_AddRule (rule : Rule) (w : World B) : error * World B :=
  backend_step (CallAddRule rule) (backend_AddRule rule (backend w)) w.

Definition call_DeleteRule (rule : Rule) (w : World B) : error * World B :=
  backend_step (CallDeleteRule rule) (backend_DeleteRule rule (backend w)) w.

Definition call_ListRules (w : World B) : (list Rule * error) * World B :=
  let r := backend_ListRules (backend w) in
  let '(err, w') := backend_step CallListRules (r.1.2, r.2) w in
  ((r.1.1, err), w').

Definition call_Flush (w : World B) : error * World B :=
  backend_step CallFlush (backend_Flush (backend w)) w.

Definition call_SetDefaultPolicy (chain policy : string) (w : World B)
  : error * World B :=
  backend_step (CallSetDefaultPolicy chain policy)
    (backend_SetDefaultPolicy chain policy (backend w)) w.

(** [generateRuleID] *)
Definition generateRuleID (w : World B) : string * World B :=
  let '(t, w) := time_Now w in
  ("rule-" +:+ Sprintf_d t, w).

(** The writes of [AddRule] to the struct behind [rule]. *)
Definition stamped (r : Rule) (id : string) (createdAt : Z) : Rule :=
  {| ID := id; Chain := Chain r; Protocol := Protocol r; Source := Source r;
     Dest := Dest r; SPort := SPort r; DPort := DPort r; Action := Action r;
     Comment := Comment r; CreatedAt := createdAt |}.

Definition AddRule (rule : ptr) (m : Manager) (w : World B)
  : result error * Manager * World B :=
  match heap w !! rule with
  | None => (Panic nil_dereference, m, w)
  | Some r =>
      let '(id, w) :=
        if decide (ID r = "") then generateRuleID w else (ID r, w) in
      let '(createdAt, w) := time_Now w in
      let r' := stamped r id createdAt in
      let w := set_heap (<[rule := r']> (heap w)) w in
      let '(err, w) := call_AddRule r' w in
      match err with
      | Some e => (Return (Some ("failed to add rule: " +:+ e)), m, w)
      | None => (Return None, set_rules (<[id := rule]> (rules m)) m, w)
      end
  end.

Definition DeleteRule (ruleID : string) (m : Manager) (w : World B)
  : result error * Manager * World B :=
  match rules m !! ruleID with
  | None => (Return (Some ("rule not found: " +:+ ruleID)), m, w)
  | Some rule =>
      match heap w !! rule with
      | None => (Panic nil_dereference, m, w)
      | Some r =>
          let '(err, w) := call_DeleteRule r w in
          match err with
          | Some e => (Return (Some ("failed to delete rule: " +:+ e)), m, w)
          | None => (Return None, set_rules (delete ruleID (rules m)) m, w)
          end
      end
  end.

(** [ListRules]: the stored pointers, in the order of the map range
    (which Go leaves unspecified; [map_to_list] fixes one). *)
Definition ListRules (m : Manager) : list ptr := (map_to_list (rules m)).*2.

Definition GetRule (ruleID : string) (m : Manager) : option ptr * error :=
  match rules m !! ruleID with
  | None => (None, Some ("rule not found: " +:+ ruleID))
  | Some rule => (Some rule, None)
  end.

Definition Flush (m : Manager) (w : World B) : error * Manager * World B :=
  let '(err, w) := call_Flush w in
  match err with
  | Some e => (Some ("failed to flush rules: " +:+ e), m, w)
  | None => (None, set_rules ∅ m, w)
  end.

Fixpoint setDefaultPolicies_loop (chains : list string) (policy : string)
    (w : World B) : error * World B :=
  match chains with
  | [] => (None, w)
  | chain :: rest =>
      let '(err, w) := call_SetDefaultPolicy chain policy w in
      match err with
      | Some e =>
          (Some ("failed to set default policy for " +:+ chain +:+ ": " +:+ e), w)
      | None => setDefaultPolicies_loop rest policy w
      end
  end.

Definition setDefaultPolicies (m : Manager) (w : World B) : error * World B :=
  let policy :=
    if decide (DefaultPolicy (config m) = "deny") then "DROP" else "ACCEPT" in
  setDefaultPolicies_loop ["INPUT"; "FORWARD"; "OUTPUT"] policy w.

Definition rule_of_config (c : FirewallRule) : Rule :=
  {| ID := ""; Chain := cfg_Chain c; Protocol := cfg_Protocol c;
     Source := cfg_Source c; Dest := cfg_Dest c; SPort := cfg_SPort c;
     DPort := cfg_DPort c; Action := cfg_Action c; Comment := cfg_Comment c;
     CreatedAt := 0 |}.

(** [loadConfigRules]: a failed [AddRule] is logged and skipped. *)
Fixpoint loadConfigRules_loop (cfgRules : list FirewallRule) (m : Manager)
    (w : World B) : result error * Manager * World B :=
  match cfgRules with
  | [] => (Return None, m, w)
  | cfgRule :: rest =>
      let '(rule, w) := alloc (rule_of_config cfgRule) w in
      match AddRule rule m w with
      | (Panic msg, m, w) => (Panic msg, m, w)
      | (Return _, m, w) => loadConfigRules_loop rest m w
      end
  end.

Definition loadConfigRules (m : Manager) (w : World B)
  : result error * Manager * World B :=
  loadConfigRules_loop (Rules (config m)) m w.

Definition Start (m : Manager) (w : World B) : result error * Manager * World B :=
  if running m
  then (Return (Some "firewall manager is already running"), m, w)
  else
    let m := set_running true m in
    let '(err, w) := setDefaultPolicies m w in
    match err with
    | Some e => (Return (Some ("failed to set default policies: " +:+ e)), m, w)
    | None =>
        match loadConfigRules m w with
        | (Panic msg, m, w) => (Panic msg, m, w)
        | (Return (Some e), m, w) =>
            (Return (Some ("failed to load config rules: " +:+ e)), m, w)
        | (Return None, m, w) =>
            match go_syncLoop m w with
            | (Panic msg, w) => (Panic msg, m, w)
            | (Return _, w) => (Return None, m, w)
            end
        end
    end.

Definition Stop (m : Manager) (w : World B) : result error * Manager * World B :=
  if negb (running m)
  then (Return (Some "firewall manager is not running"), m, w)
  else
    let m := set_running false m in
    match stopChan m with
    | ChanClosed => (Panic "close of closed channel", m, w)
    | ChanOpen => (Return None, mkManager (config m) (rules m) ChanClosed (running m), w)
    end.

(** [rulesEqual]: neither [ID] nor [Comment] nor [CreatedAt] is compared. *)
Definition rulesEqual (r1 r2 : Rule) : bool :=
  bool_decide (Chain r1 = Chain r2) &&
  bool_decide (Protocol r1 = Protocol r2) &&
  bool_decide (Source r1 = Source r2) &&
  bool_decide (Dest r1 = Dest r2) &&
  bool_decide (SPort r1 = SPort r2) &&
  bool_decide (DPort r1 = DPort r2) &&
  bool_decide (Action r1 = Action r2).

(** The inner loop of [sync]: is [rule] among the backend's rules? *)
Definition found_in (backendRules : list Rule) (rule : Rule) : bool :=
  existsb (rulesEqual rule) backendRules.

(** The outer loop of [sync] over the stored rules; a failed re-add is
    logged and the loop goes on. *)
Fixpoint sync_loop (backendRules : list Rule) (stored : list ptr) (w : World B)
  : result unit * World B :=
  match stored with
  | [] => (Return (), w)
  | rule :: rest =>
      match heap w !! rule with
      | None => (Panic nil_dereference, w)
      | Some r =>
          if found_in backendRules r
          then sync_loop backendRules rest w
          else
            let '(_, w) := call_AddRule r w in
            sync_loop backendRules rest w
      end
  end.

Definition sync (m : Manager) (w : World B) : result error * World B :=
  let '((backendRules, err), w) := call_ListRules w in
  match err with
  | Some e => (Return (Some ("failed to list backend rules: " +:+ e)), w)
  | None =>
      let '(stored, w) := range_rules m w in
      match sync_loop backendRules stored w with
      | (Panic msg, w) => (Panic msg, w)
      | (Return _, w) => (Return None, w)
      end
  end.

(** *** Histories of [AddRule] and [DeleteRule] calls *)










(** Every backend call recorded in the world returned [nil]. *)
Definition all_succeeded (w : World B) : Prop :=
  Forall (λ c, c.2 = None) (calls w).


(** The backend calls made by one pass of [sync], in order. *)
Definition issued_by_sync (m : Manager) (w : World B) : list BackendCall :=
  (drop (length (calls w)) (calls (sync m w).2)).*1.

(** Every pointer kept in the store is allocated. *)
Definition store_allocated (m : Manager) (w : World B) : Prop :=
  ∀ id rule, rules m !! id = Some rule → is_Some (heap w !! rule).


End manager.

(** *** An in-memory double of the packet-filter capability

    It keeps the rules it is given and can be switched to refuse every
    call; it stands for a backend in concrete runs. *)
Record FakeBackend : Type := mkFakeBackend {
  fb_rules : list Rule;
  fb_down : bool
}.

Definition unavailable : string := "backend unavailable".

Global Instance FakeBackend_Backend : Backend FakeBackend := {
  backend_AddRule r b :=
    if fb_down b then (Some unavailable, b)
    else (None, {| fb_rules := fb_rules b ++ [r]; fb_down := fb_down b |});
  backend_DeleteRule r b :=
    if fb_down b then (Some unavailable, b)
    else (None, {| fb_rules := filter (λ x, x ≠ r) (fb_rules b);
                   fb_down := fb_down b |});
  backend_ListRules b :=
    if fb_down b then (([], Some unavailable), b)
    else ((fb_rules b, None), b);
  backend_Flush b :=
    if fb_down b then (Some unavailable, b)
    else (None, {| fb_rules := []; fb_down := fb_down b |});
  backend_SetDefaultPolicy _ _ b :=
    if fb_down b then (Some unavailable, b) else (None, b)
}.

(** *** Rules and worlds used in concrete runs *)

Definition allow_ssh : Rule :=
  {| ID := "allow-ssh"; Chain := "INPUT"; Protocol := "tcp"; Source := "";
     Dest := ""; SPort := ""; DPort := "22"; Action := "ACCEPT";
     Comment := "ssh"; CreatedAt := 0 |}.



Definition wall_clock (n : nat) : Z := (1700000000000000000 + Z.of_nat n)%Z.

Definition world_of {B : Type} (h : gmap ptr Rule) (b : B) : World B :=
  {| heap := h; backend := b; calls := []; clock := wall_clock; ticks := 0;
     order := λ n, n; ranges := 0; loops := 0 |}.

Definition allow_web : Rule :=
  {| ID := "web"; Chain := "INPUT"; Protocol := "tcp"; Source := "";
     Dest := ""; SPort := ""; DPort := "80"; Action := "ACCEPT";
     Comment := ""; CreatedAt := 0 |}.

(** The SSH rule as a backend would list it: no ID, no comment. *)
Definition listed_ssh : Rule :=
  {| ID := ""; Chain := "INPUT"; Protocol := "tcp"; Source := "";
     Dest := ""; SPort := ""; DPort := "22"; Action := "ACCEPT";
     Comment := ""; CreatedAt := 0 |}.

Definition no_config : FirewallConfig :=
  {| DefaultPolicy := "allow"; SyncInterval := (30 * Second)%Z; Rules := [] |}.

(** A store of two rules, of which the backend lists the first. *)
Definition drifted : Manager * World FakeBackend :=
  ({| config := no_config;
      rules := {["allow-ssh" := 1%positive; "web" := 2%positive]};
      stopChan := ChanOpen; running := true |},
   world_of {[1%positive := allow_ssh; 2%positive := allow_web]}
     (mkFakeBackend [listed_ssh] false)).

(** *** The iptables backend *)

(** The calls of the go-iptables library that the backend makes. *)
Inductive IPTablesCall : Type :=
| CallAppendUnique (table chain : string) (rulespec : list string)
| CallDelete (table chain : string) (rulespec : list string)
| CallClearChain (table chain : string)
| CallChangePolicy (table chain target : string).

Global Instance IPTablesCall_eq_dec : EqDecision IPTablesCall.
Proof. solve_decision. Defined.

(** [*iptables.IPTables]: the handle on the kernel's tables. *)
Class IPTables (I : Type) : Type := {
  ipt_AppendUnique : string → string → list string → I → error * I;
  ipt_Delete : string → string → list string → I → error * I;
  ipt_ClearChain : string → string → I → error * I;
  ipt_ChangePolicy : string → string → string → I → error * I
}.

(** [type IPTablesBackend struct]: the handle, with the trace of the calls
    made through it and their results. *)
Record IPTablesBackend (I : Type) : Type := mkIPTablesBackend {
  ipt : I;
  ipt_calls : list (IPTablesCall * error)
}.
Global Arguments mkIPTablesBackend {I}.
Global Arguments ipt {I}.
Global Arguments ipt_calls {I}.

(** [buildRuleSpec] *)
Definition buildRuleSpec (rule : Rule) : list string :=
  let spec := [] in
  let spec :=
    if decide (Protocol rule = "") then spec else spec ++ ["-p"; Protocol rule] in
  let spec :=
    if decide (Source rule = "") then spec else spec ++ ["-s"; Source rule] in
  let spec :=
    if decide (Dest rule = "") then spec else spec ++ ["-d"; Dest rule] in
  let spec :=
    if decide (SPort rule = "") then spec else spec ++ ["--sport"; SPort rule] in
  let spec :=
    if decide (DPort rule = "") then spec else spec ++ ["--dport"; DPort rule] in
  let spec :=
    if decide (Comment rule = "") then spec
    else spec ++ ["-m"; "comment"; "--comment"; Comment rule] in
  spec ++ ["-j"; Action rule].

Section iptables.
Context {I : Type} `{!IPTables I}.

Definition ipt_step (c : IPTablesCall) (r : error * I) (b : IPTablesBackend I)
  : error * IPTablesBackend I :=
  (r.1, {| ipt := r.2; ipt_calls := ipt_calls b ++ [(c, r.1)] |}).

Definition IPTables_AddRule (rule : Rule) (b : IPTablesBackend I)
  : error * IPTablesBackend I :=
  let ruleSpec := buildRuleSpec rule in
  let '(err, b) :=
    ipt_step (CallAppendUnique "filter" (Chain rule) ruleSpec)
      (ipt_AppendUnique "filter" (Chain rule) ruleSpec (ipt b)) b in
  match err with
  | Some e => (Some ("failed to add iptables rule: " +:+ e), b)
  | None => (None, b)
  end.

Definition IPTables_DeleteRule (rule : Rule) (b : IPTablesBackend I)
  : error * IPTablesBackend I :=
  let ruleSpec := buildRuleSpec rule in
  let '(err, b) :=
    ipt_step (CallDelete "filter" (Chain rule) ruleSpec)
      (ipt_Delete "filter" (Chain rule) ruleSpec (ipt b)) b in
  match err with
  | Some e => (Some ("failed to delete iptables rule: " +:+ e), b)
  | None => (None, b)
  end.

(** [ListRules]: "a simplified implementation", the empty slice. *)
Definition IPTables_ListRules (b : IPTablesBackend I)
  : (list Rule * error) * IPTablesBackend I :=
  (([], None), b).

Fixpoint IPTables_Flush_loop (chains : list string) (b : IPTablesBackend I)
  : error * IPTablesBackend I :=
  match chains with
  | [] => (None, b)
  | chain :: rest =>
      let '(err, b) :=
        ipt_step (CallClearChain "filter" chain)
          (ipt_ClearChain "filter" chain (ipt b)) b in
      match err with
      | Some e => (Some ("failed to clear chain " +:+ chain +:+ ": " +:+ e), b)
      | None => IPTables_Flush_loop rest b
      end
  end.

Definition IPTables_Flush (b : IPTablesBackend I) : error * IPTablesBackend I :=
  IPTables_Flush_loop ["INPUT"; "FORWARD"; "OUTPUT"] b.

Definition IPTables_SetDefaultPolicy (chain policy : string)
    (b : IPTablesBackend I) : error * IPTablesBackend I :=
  let '(err, b) :=
    ipt_step (CallChangePolicy "filter" chain policy)
      (ipt_ChangePolicy "filter" chain policy (ipt b)) b in
  match err with
  | Some e => (Some ("failed to set policy: " +:+ e), b)
  | None => (None, b)
  end.

Global Instance IPTablesBackend_Backend : Backend (IPTablesBackend I) := {
  backend_AddRule := IPTables_AddRule;
  backend_DeleteRule := IPTables_DeleteRule;
  backend_ListRules := IPTables_ListRules;
  backend_Flush := IPTables_Flush;
  backend_SetDefaultPolicy := IPTables_SetDefaultPolicy
}.

(** [NewIPTablesBackend]; [iptables_New] is the outcome of
    [iptables.New()]. *)
Definition NewIPTablesBackend (iptables_New : I + string)
  : IPTablesBackend I + string :=
  match iptables_New with
  | inl i => inl {| ipt := i; ipt_calls := [] |}
  | inr e => inr ("failed to initialize iptables: " +:+ e)
  end.

(** The interface value [Backend] that [NewManager] stores: one of the two
    implementations of the package. *)
Inductive AnyBackend : Type :=
| UseIPTables (b : IPTablesBackend I)
| UseNFTables (b : NFTablesBackend).

Definition lift_IPTables {A : Type} (r : A * IPTablesBackend I) : A * AnyBackend :=
  (r.1, UseIPTables r.2).

Definition lift_NFTables {A : Type} (r : A * NFTablesBackend) : A * AnyBackend :=
  (r.1, UseNFTables r.2).

Global Instance AnyBackend_Backend : Backend AnyBackend := {
  backend_AddRule rule b :=
    match b with
    | UseIPTables b => lift_IPTables (backend_AddRule rule b)
    | UseNFTables b => lift_NFTables (backend_AddRule rule b)
    end;
  backend_DeleteRule rule b :=
    match b with
    | UseIPTables b => lift_IPTables (backend_DeleteRule rule b)
    | UseNFTables b => lift_NFTables (backend_DeleteRule rule b)
    end;
  backend_ListRules b :=
    match b with
    | UseIPTables b => lift_IPTables (backend_ListRules b)
    | UseNFTables b => lift_NFTables (backend_ListRules b)
    end;
  backend_Flush b :=
    match b with
    | UseIPTables b => lift_IPTables (backend_Flush b)
    | UseNFTables b => lift_NFTables (backend_Flush b)
    end;
  backend_SetDefaultPolicy chain policy b :=
    match b with
    | UseIPTables b => lift_IPTables (backend_SetDefaultPolicy chain policy b)
    | UseNFTables b => lift_NFTables (backend_SetDefaultPolicy chain policy b)
    end
}.

(** The [switch cfg.Backend] of [NewManager] and the wrapping of the
    constructor's error. *)
Definition select_backend (backendName : string) (iptables_New : I + string)
  : AnyBackend + string :=
  if decide (backendName = "iptables") then
    match NewIPTablesBackend iptables_New with
    | inl b => inl (UseIPTables b)
    | inr e => inr ("failed to create firewall backend: " +:+ e)
    end
  else if decide (backendName = "nftables") then inl (UseNFTables mkNFTablesBackend)
  else inr ("unsupported firewall backend: " +:+ backendName).

End iptables.
Global Arguments AnyBackend I : clear implicits.

(** *** An in-memory double of the iptables handle

    The chains of the filter table as lists of rule specifications; a
    call on a chain listed in [fi_locked] fails. *)
Record FakeIPTables : Type := mkFakeIPTables {
  fi_chains : gmap string (list (list string));
  fi_locked : list string
}.

Definition chain_locked : string := "resource temporarily unavailable".

Definition fi_chain (i : FakeIPTables) (chain : string) : list (list string) :=
  default [] (fi_chains i !! chain).

Global Instance FakeIPTables_IPTables : IPTables FakeIPTables := {
  ipt_AppendUnique _ chain rulespec i :=
    if decide (chain ∈ fi_locked i) then (Some chain_locked, i)
    else if decide (rulespec ∈ fi_chain i chain) then (None, i)
    else (None, {| fi_chains := <[chain := fi_chain i chain ++ [rulespec]]> (fi_chains i);
                   fi_locked := fi_locked i |});
  ipt_Delete _ chain rulespec i :=
    if decide (chain ∈ fi_locked i) then (Some chain_locked, i)
    else if decide (rulespec ∈ fi_chain i chain)
    then (None, {| fi_chains :=
                     <[chain := filter (λ x, x ≠ rulespec) (fi_chain i chain)]>
                       (fi_chains i);
                   fi_locked := fi_locked i |})
    else (Some "bad rule (does a matching rule exist in that chain?)", i);
  ipt_ClearChain _ chain i :=
    if decide (chain ∈ fi_locked i) then (Some chain_locked, i)
    else (None, {| fi_chains := <[chain := []]> (fi_chains i);
                   fi_locked := fi_locked i |});
  ipt_ChangePolicy _ chain _ i :=
    if decide (chain ∈ fi_locked i) then (Some chain_locked, i) else (None, i)
}.

(** *** Configurations and worlds used in concrete runs *)

Definition docker_rule : FirewallRule :=
  {| cfg_Chain := "DOCKER"; cfg_Protocol := "tcp"; cfg_Source := "172.17.0.0/16";
     cfg_Dest := ""; cfg_SPort := ""; cfg_DPort := "8080";
     cfg_Action := "ACCEPT"; cfg_Comment := "containers" |}.

Definition ssh_rule : FirewallRule :=
  {| cfg_Chain := "INPUT"; cfg_Protocol := "tcp"; cfg_Source := "";
     cfg_Dest := ""; cfg_SPort := ""; cfg_DPort := "22";
     cfg_Action := "ACCEPT"; cfg_Comment := "" |}.

Definition two_rules : FirewallConfig :=
  {| DefaultPolicy := "deny"; SyncInterval := (30 * Second)%Z;
     Rules := [docker_rule; ssh_rule] |}.

(** The iptables backend over a filter table whose chain DOCKER cannot be
    written. *)
Definition docker_locked : AnyBackend FakeIPTables :=
  UseIPTables {| ipt := {| fi_chains := ∅; fi_locked := ["DOCKER"] |};
                 ipt_calls := [] |}.

(** A store of two rules over the iptables backend. *)
Definition two_stored : Manager * World (AnyBackend FakeIPTables) :=
  ({| config := no_config;
      rules := {["allow-ssh" := 1%positive; "web" := 2%positive]};
      stopChan := ChanOpen; running := true |},
   world_of {[1%positive := allow_ssh; 2%positive := allow_web]}
     (UseIPTables {| ipt := {| fi_chains := ∅; fi_locked := [] |};
                     ipt_calls := [] |})).

End Firewall.

(** ** Package config *)

Module Config.

(** The fields of the configuration structs that [Validate] and the
    constructors of the components read. *)
Record AgentConfig : Type := mkAgentConfig {
  NodeID : string
}.

(** [config.FirewallConfig]: [Backend], and the fields that the firewall
    manager reads. *)
Record FirewallConfig : Type := mkFirewallConfig {
  fw_Backend : string;
  fw_manager : Firewall.FirewallConfig
}.

Record DiscoveryConfig : Type := mkDiscoveryConfig {
  disc_Backend : string;
  disc_Interval : Z
}.

Record LoadBalanceConfig : Type := mkLoadBalanceConfig {
  Strategy : string
}.

Record ServiceMeshConfig : Type := mkServiceMeshConfig {
  Enabled : bool;
  Discovery : DiscoveryConfig;
  LoadBalance : LoadBalanceConfig
}.

Record MTLSConfig : Type := mkMTLSConfig {
  mtls_Enabled : bool;
  CertFile : string;
  KeyFile : string;
  CAFile : string
}.

Record SecurityConfig : Type := mkSecurityConfig {
  MTLS : MTLSConfig
}.

Record MonitoringConfig : Type := mkMonitoringConfig {
  mon_Enabled : bool
}.

Record Config : Type := mkConfig {
  Agent : AgentConfig;
  Firewall_ : FirewallConfig;
  ServiceMesh_ : ServiceMeshConfig;
  Security : SecurityConfig;
  Monitoring : MonitoringConfig
}.

(** The map literal of [Validate]. *)
Definition validBackends : gmap string bool :=
  {[ "consul" := true; "etcd" := true; "dns" := true; "static" := true ]}.

(** [Validate], a method of [Config]: the four checks in order, the first
    that fails giving the error. *)
Definition Validate (c : Config) : error :=
  if decide (NodeID (Agent c) = "") then Some "agent.node_id is required"
  else if bool_decide (fw_Backend (Firewall_ c) ≠ "iptables")
          && bool_decide (fw_Backend (Firewall_ c) ≠ "nftables")
  then Some "firewall.backend must be 'iptables' or 'nftables'"
  else
    let backend := disc_Backend (Discovery (ServiceMesh_ c)) in
    let mesh : error :=
      if Enabled (ServiceMesh_ c) then
        if decide (backend = "")
        then Some "service_mesh.discovery.backend is required when service mesh is enabled"
        else if negb (default false (validBackends !! backend))
        then Some ("invalid service_mesh.discovery.backend: " +:+ backend)
        else None
      else None in
    match mesh with
    | Some e => Some e
    | None =>
        if mtls_Enabled (MTLS (Security c)) then
          if bool_decide (CertFile (MTLS (Security c)) = "")
             || bool_decide (KeyFile (MTLS (Security c)) = "")
             || bool_decide (CAFile (MTLS (Security c)) = "")
          then Some "mTLS requires cert_file, key_file, and ca_file"
          else None
        else None
    end.

(** A configuration with the mesh enabled over the static backend and a
    strategy that [NewLoadBalancer] does not know. *)
Definition example : Config :=
  {| Agent := {| NodeID := "node-01" |};
     Firewall_ := {| fw_Backend := "nftables"; fw_manager := Firewall.two_rules |};
     ServiceMesh_ := {| Enabled := true;
                        Discovery := {| disc_Backend := "static";
                                        disc_Interval := (10 * Second)%Z |};
                        LoadBalance := {| Strategy := "least_connections" |} |};
     Security := {| MTLS := {| mtls_Enabled := false; CertFile := "";
                               KeyFile := ""; CAFile := "" |} |};
     Monitoring := {| mon_Enabled := true |} |}.

(** The same over the iptables backend. *)
Definition example_iptables : Config :=
  {| Agent := Agent example;
     Firewall_ := {| fw_Backend := "iptables"; fw_manager := Firewall.two_rules |};
     ServiceMesh_ := ServiceMesh_ example;
     Security := Security example;
     Monitoring := Monitoring example |}.

End Config.

(** ** Package api: the handlers of the by-ID routes *)

Module API.

(** What a handler reads of [*http.Request]. *)
Record Request : Type := mkRequest {
  Method : string;
  URL_Path : string
}.

(** What a handler writes to the [http.ResponseWriter]: the text handed to
    [http.Error], the value handed to [writeJSON], or nothing. *)
Inductive Body : Type :=
| Text (msg : string)
| JSONService (service : option ServiceMesh.Service)
| JSONRule (rule : option Firewall.Rule)
| NoBody.

Record Response : Type := mkResponse {
  StatusCode : Z;
  body : Body
}.

Definition StatusOK : Z := 200.
Definition StatusNoContent : Z := 204.
Definition StatusBadRequest : Z := 400.
Definition StatusNotFound : Z := 404.
Definition StatusMethodNotAllowed : Z := 405.
Definition StatusInternalServerError : Z := 500.
Definition StatusServiceUnavailable : Z := 503.

Definition http_Error (msg : string) (code : Z) : Response :=
  {| StatusCode := code; body := Text msg |}.

(** [parts := strings.Split(r.URL.Path, "/")] and the guarded [parts[n]]. *)
Definition path_part (path : string) (n : nat) : option string :=
  let parts := Split path "/"%char in
  if decide (length parts < S n) then None else parts !! n.

(** The patterns under which [Start] registers the two handlers; a
    pattern that ends in a slash matches every path it is a prefix of. *)
Definition services_pattern : string := "/api/v1/services/".
Definition rules_pattern : string := "/api/v1/firewall/rules/".

Section handlers.
Context {B : Type} `{!Firewall.Backend B} {D : Type} `{!ServiceMesh.Discovery D}.

(** [handleServiceByID]; [sm] is the field [serviceMesh], [nil] when the
    mesh is not enabled. *)
Definition handleServiceByID (r : Request) (sm : option ServiceMesh.Manager)
    (w : ServiceMesh.World D)
  : result Response * option ServiceMesh.Manager * ServiceMesh.World D :=
  match sm with
  | None =>
      (Return (http_Error "Service mesh not enabled" StatusServiceUnavailable),
       sm, w)
  | Some m =>
      match path_part (URL_Path r) 4 with
      | None => (Return (http_Error "Invalid service ID" StatusBadRequest), sm, w)
      | Some serviceID =>
          if decide (Method r = "GET") then
            match ServiceMesh.GetService serviceID m with
            | (_, Some e) => (Return (http_Error e StatusNotFound), sm, w)
            | (service, None) =>
                (Return {| StatusCode := StatusOK;
                           body := JSONService
                                     (service ≫= λ p, ServiceMesh.heap w !! p) |},
                 sm, w)
            end
          else if decide (Method r = "DELETE") then
            match ServiceMesh.DeregisterService serviceID m w with
            | (Panic msg, m, w) => (Panic msg, Some m, w)
            | (Return (Some e), m, w) =>
                (Return (http_Error e StatusInternalServerError), Some m, w)
            | (Return None, m, w) =>
                (Return {| StatusCode := StatusNoContent; body := NoBody |},
                 Some m, w)
            end
          else
            (Return (http_Error "Method not allowed" StatusMethodNotAllowed),
             sm, w)
      end
  end.

(** [handleFirewallRuleByID] *)
Definition handleFirewallRuleByID (r : Request) (m : Firewall.Manager)
    (w : Firewall.World B)
  : result Response * Firewall.Manager * Firewall.World B :=
  match path_part (URL_Path r) 5 with
  | None => (Return (http_Error "Invalid rule ID" StatusBadRequest), m, w)
  | Some ruleID =>
      if decide (Method r = "GET") then
        match Firewall.GetRule ruleID m with
        | (_, Some e) => (Return (http_Error e StatusNotFound), m, w)
        | (rule, None) =>
            (Return {| StatusCode := StatusOK;
                       body := JSONRule (rule ≫= λ p, Firewall.heap w !! p) |},
             m, w)
        end
      else if decide (Method r = "DELETE") then
        match Firewall.DeleteRule ruleID m w with
        | (Panic msg, m, w) => (Panic msg, m, w)
        | (Return (Some e), m, w) =>
            (Return (http_Error e StatusInternalServerError), m, w)
        | (Return None, m, w) =>
            (Return {| StatusCode := StatusNoContent; body := NoBody |}, m, w)
        end
      else
        (Return (http_Error "Method not allowed" StatusMethodNotAllowed), m, w)
  end.

End handlers.

(** [type Server struct]: of its fields the life cycle reads [server],
    which is [nil] until [Start] has set it. *)
Record Server : Type := mkServer {
  server : bool                          (* s.server != nil *)
}.

Definition NewServer : Server := {| server := false |}.

(** [Start], up to the point where [ListenAndServe] blocks. *)
Definition Server_Start (s : Server) : Server := {| server := true |}.

(** [Stop]; [server_Close] is the result of [s.server.Close()]. *)
Definition Server_Stop (server_Close : error) (s : Server) : error :=
  if server s then server_Close else None.

End API.


(** ** Package metrics: the life cycle of the manager *)

Module Metrics.

(** [type Manager struct]: the fields read by [Start] and [Stop];
    [server] is [nil] until [Start] has created it. *)
Record Manager : Type := mkManager {
  Enabled : bool;                        (* m.config.Enabled *)
  server : bool;                         (* m.server != nil *)
  running : bool
}.

Definition NewManager (enabled : bool) : Manager :=
  {| Enabled := enabled; server := false; running := false |}.

(** [Start]: the flag is set before the configuration is looked at; the
    server is created only when metrics are enabled.  [mux_Handle] is the
    outcome of [mux.Handle(m.config.MetricsPath, ...)] on the fresh mux:
    the message of its panic when the configured path is not a pattern
    that the mux accepts, [None] when the handler is registered. *)
Definition Start (mux_Handle : option string) (m : Manager)
  : result error * Manager :=
  if running m then (Return (Some "metrics manager is already running"), m)
  else
    let m := {| Enabled := Enabled m; server := server m; running := true |} in
    if negb (Enabled m) then (Return None, m)
    else
      match mux_Handle with
      | Some msg => (Panic msg, m)
      | None =>
          (Return None,
           {| Enabled := Enabled m; server := true; running := running m |})
      end.

(** [Stop]; [server_Close] is the result of [m.server.Close()]. *)
Definition Stop (server_Close : error) (m : Manager) : error * Manager :=
  if negb (running m) then (Some "metrics manager is not running", m)
  else
    let m := {| Enabled := Enabled m; server := server m; running := false |} in
    if server m then
      match server_Close with
      | Some e => (Some ("failed to stop metrics server: " +:+ e), m)
      | None => (None, m)
      end
    else (None, m).

End Metrics.

(** ** Package agent *)

Module Agent.

(** What the agent meets outside itself when it is built, started and
    shut down: the outcome of [iptables.New()], the clock, the random
    source and the order of the map ranges handed to the components, the
    outcome of registering the metrics handler under the configured path,
    and the results of closing the two HTTP servers. *)
Record Environment (I : Type) : Type := mkEnvironment {
  iptables_New : I + string;
  env_clock : nat → Z;
  env_rand : nat → Z;
  env_order : nat → nat;
  metrics_Handle : option string;
  metrics_Close : error;
  api_Close : error
}.
Global Arguments mkEnvironment {I}.
Global Arguments iptables_New {I}.
Global Arguments env_clock {I}.
Global Arguments env_rand {I}.
Global Arguments env_order {I}.
Global Arguments metrics_Handle {I}.
Global Arguments metrics_Close {I}.
Global Arguments api_Close {I}.

Section agent.
Context {I : Type} `{!Firewall.IPTables I}.

(** [type Agent struct]: each manager with the world it acts on;
    [serviceMesh] is [nil] when the mesh is not enabled. *)
Record Agent : Type := mkAgent {
  config : Config.Config;
  firewall : Firewall.Manager * Firewall.World (Firewall.AnyBackend I);
  serviceMesh :
    option (ServiceMesh.Manager * ServiceMesh.World ServiceMesh.AnyDiscovery);
  healthCheck : Health.Checker * Health.World;
  metrics : Metrics.Manager;
  apiServer : API.Server;
  running : bool;
  stopChan : chan_state
}.

Definition set_firewall
    (fw : Firewall.Manager * Firewall.World (Firewall.AnyBackend I)) (a : Agent)
  : Agent :=
  mkAgent (config a) fw (serviceMesh a) (healthCheck a) (metrics a) (apiServer a)
          (running a) (stopChan a).

Definition set_serviceMesh
    (sm : option (ServiceMesh.Manager * ServiceMesh.World ServiceMesh.AnyDiscovery))
    (a : Agent) : Agent :=
  mkAgent (config a) (firewall a) sm (healthCheck a) (metrics a) (apiServer a)
          (running a) (stopChan a).

Definition set_healthCheck (hc : Health.Checker * Health.World) (a : Agent) : Agent :=
  mkAgent (config a) (firewall a) (serviceMesh a) hc (metrics a) (apiServer a)
          (running a) (stopChan a).

Definition set_metrics (mm : Metrics.Manager) (a : Agent) : Agent :=
  mkAgent (config a) (firewall a) (serviceMesh a) (healthCheck a) mm (apiServer a)
          (running a) (stopChan a).

Definition set_apiServer (s : API.Server) (a : Agent) : Agent :=
  mkAgent (config a) (firewall a) (serviceMesh a) (healthCheck a) (metrics a) s
          (running a) (stopChan a).

Definition set_running (b : bool) (a : Agent) : Agent :=
  mkAgent (config a) (firewall a) (serviceMesh a) (healthCheck a) (metrics a)
          (apiServer a) b (stopChan a).

(** [firewall.NewManager]: the manager over the backend chosen by the
    configuration, with no rule allocated yet. *)
Definition firewall_NewManager (cfg : Config.FirewallConfig) (env : Environment I)
  : (Firewall.Manager * Firewall.World (Firewall.AnyBackend I)) + string :=
  match Firewall.select_backend (Config.fw_Backend cfg) (iptables_New env) with
  | inl b =>
      inl (Firewall.NewManager (Config.fw_manager cfg),
           {| Firewall.heap := ∅; Firewall.backend := b; Firewall.calls := [];
              Firewall.clock := env_clock env; Firewall.ticks := 0;
              Firewall.order := env_order env; Firewall.ranges := 0;
              Firewall.loops := 0 |})
  | inr e => inr e
  end.

(** [servicemesh.NewManager] *)
Definition servicemesh_NewManager (cfg : Config.ServiceMeshConfig)
    (env : Environment I)
  : (ServiceMesh.Manager * ServiceMesh.World ServiceMesh.AnyDiscovery) + string :=
  match ServiceMesh.NewDiscovery (Config.disc_Backend (Config.Discovery cfg)) with
  | inl d =>
      inl (ServiceMesh.NewManager (Config.Strategy (Config.LoadBalance cfg))
             (Config.disc_Interval (Config.Discovery cfg)),
           {| ServiceMesh.heap := ∅; ServiceMesh.discovery := d;
              ServiceMesh.calls := []; ServiceMesh.clock := env_clock env;
              ServiceMesh.ticks := 0; ServiceMesh.rand := env_rand env;
              ServiceMesh.draws := 0; ServiceMesh.order := env_order env;
              ServiceMesh.ranges := 0; ServiceMesh.loops := 0 |})
  | inr e => inr ("failed to create discovery backend: " +:+ e)
  end.

(** [New]; [cfg] is [None] for a nil pointer. *)
Definition New (cfg : option Config.Config) (env : Environment I) : Agent + string :=
  match cfg with
  | None => inr "config is required"
  | Some cfg =>
      match firewall_NewManager (Config.Firewall_ cfg) env with
      | inr e => inr ("failed to create firewall manager: " +:+ e)
      | inl fwManager =>
          let built smManager :=
            {| config := cfg; firewall := fwManager; serviceMesh := smManager;
               healthCheck :=
                 (Health.NewChecker,
                  {| Health.heap := ∅; Health.clock := env_clock env;
                     Health.ticks := 0; Health.order := env_order env;
                     Health.ranges := 0; Health.callbacks := [];
                     Health.loops := [] |});
               metrics := Metrics.NewManager (Config.mon_Enabled (Config.Monitoring cfg));
               apiServer := API.NewServer;
               running := false; stopChan := ChanOpen |} in
          if Config.Enabled (Config.ServiceMesh_ cfg) then
            match servicemesh_NewManager (Config.ServiceMesh_ cfg) env with
            | inr e => inr ("failed to create service mesh manager: " +:+ e)
            | inl smManager => inl (built (Some smManager))
            end
          else inl (built None)
      end
  end.

(** [a.serviceMesh.Start] and [a.serviceMesh.Stop] behind the test
    [a.serviceMesh != nil]. *)
Definition serviceMesh_Start
    (sm : option (ServiceMesh.Manager * ServiceMesh.World ServiceMesh.AnyDiscovery))
  : result error *
    option (ServiceMesh.Manager * ServiceMesh.World ServiceMesh.AnyDiscovery) :=
  match sm with
  | None => (Return None, None)
  | Some (m, w) => let '(r, m, w) := ServiceMesh.Start m w in (r, Some (m, w))
  end.

Definition serviceMesh_Stop
    (sm : option (ServiceMesh.Manager * ServiceMesh.World ServiceMesh.AnyDiscovery))
  : result error *
    option (ServiceMesh.Manager * ServiceMesh.World ServiceMesh.AnyDiscovery) :=
  match sm with
  | None => (Return None, None)
  | Some (m, w) => let '(r, m, w) := ServiceMesh.Stop m w in (r, Some (m, w))
  end.

(** [Start], up to the wait for the context to end: the components in
    the order firewall, service mesh, health checker, metrics, and then
    the API server in a goroutine of its own. *)
Definition Start (env : Environment I) (a : Agent) : result error * Agent :=
  if running a then (Return (Some "agent is already running"), a)
  else
    let a := set_running true a in
    match Firewall.Start (firewall a).1 (firewall a).2 with
    | (Panic msg, m, w) => (Panic msg, set_firewall (m, w) a)
    | (Return (Some e), m, w) =>
        (Return (Some ("failed to start firewall manager: " +:+ e)),
         set_firewall (m, w) a)
    | (Return None, m, w) =>
        let a := set_firewall (m, w) a in
        match serviceMesh_Start (serviceMesh a) with
        | (Panic msg, sm) => (Panic msg, set_serviceMesh sm a)
        | (Return (Some e), sm) =>
            (Return (Some ("failed to start service mesh manager: " +:+ e)),
             set_serviceMesh sm a)
        | (Return None, sm) =>
            let a := set_serviceMesh sm a in
            match Health.Start (healthCheck a).1 (healthCheck a).2 with
            | (Panic msg, c, w) => (Panic msg, set_healthCheck (c, w) a)
            | (Return (Some e), c, w) =>
                (Return (Some ("failed to start health checker: " +:+ e)),
                 set_healthCheck (c, w) a)
            | (Return None, c, w) =>
                let a := set_healthCheck (c, w) a in
                match Metrics.Start (metrics_Handle env) (metrics a) with
                | (Panic msg, mm) => (Panic msg, set_metrics mm a)
                | (Return (Some e), mm) =>
                    (Return (Some ("failed to start metrics manager: " +:+ e)),
                     set_metrics mm a)
                | (Return None, mm) =>
                    let a := set_metrics mm a in
                    (Return None, set_apiServer (API.Server_Start (apiServer a)) a)
                end
            end
        end
    end.

(** [errors = append(errors, fmt.Errorf(prefix + ": %w", err))] *)
Definition collect (errors : list string) (prefix : string) (err : error)
  : list string :=
  match err with
  | Some e => errors ++ [prefix +:+ ": " +:+ e]
  | None => errors
  end.

(** [fmt.Sprintf("%v", errors)] for a slice of errors: the messages
    between brackets, separated by a space. *)
Definition Sprintf_v (errors : list string) : string :=
  "[" +:+ String.concat " " errors +:+ "]".

(** [Stop]: the components in the reverse order, each stopped whatever
    the one before it returned. *)
Definition Stop (env : Environment I) (a : Agent) : result error * Agent :=
  if negb (running a) then (Return (Some "agent is not running"), a)
  else
    let a := set_running false a in
    let errors : list string := [] in
    let errors :=
      collect errors "failed to stop API server"
        (API.Server_Stop (api_Close env) (apiServer a)) in
    let '(err, mm) := Metrics.Stop (metrics_Close env) (metrics a) in
    let a := set_metrics mm a in
    let errors := collect errors "failed to stop metrics manager" err in
    match Health.Stop (healthCheck a).1 (healthCheck a).2 with
    | (Panic msg, c, w) => (Panic msg, set_healthCheck (c, w) a)
    | (Return err, c, w) =>
        let a := set_healthCheck (c, w) a in
        let errors := collect errors "failed to stop health checker" err in
        match serviceMesh_Stop (serviceMesh a) with
        | (Panic msg, sm) => (Panic msg, set_serviceMesh sm a)
        | (Return err, sm) =>
            let a := set_serviceMesh sm a in
            let errors :=
              collect errors "failed to stop service mesh manager" err in
            match Firewall.Stop (firewall a).1 (firewall a).2 with
            | (Panic msg, m, w) => (Panic msg, set_firewall (m, w) a)
            | (Return err, m, w) =>
                let a := set_firewall (m, w) a in
                let errors :=
                  collect errors "failed to stop firewall manager" err in
                match stopChan a with
                | ChanClosed => (Panic "close of closed channel", a)
                | ChanOpen =>
                    let a :=
                      mkAgent (config a) (firewall a) (serviceMesh a)
                        (healthCheck a) (metrics a) (apiServer a) (running a)
                        ChanClosed in
                    if decide (0 < length errors)
                    then (Return (Some ("errors during shutdown: " +:+
                                        Sprintf_v errors)), a)
                    else (Return None, a)
                end
            end
        end
    end.

(** [IsRunning] *)
Definition IsRunning (a : Agent) : bool := running a.

End agent.

(** *** Environments used in concrete runs *)

(** Every outside call succeeds. *)
Definition calm : Environment Firewall.FakeIPTables :=
  {| iptables_New := inl {| Firewall.fi_chains := ∅; Firewall.fi_locked := [] |};
     env_clock := Firewall.wall_clock; env_rand := λ n, Z.of_nat n;
     env_order := λ n, n;
     metrics_Handle := None; metrics_Close := None; api_Close := None |}.

(** The chain INPUT of the filter table cannot be written. *)
Definition input_locked : Environment Firewall.FakeIPTables :=
  {| iptables_New :=
       inl {| Firewall.fi_chains := ∅; Firewall.fi_locked := ["INPUT"] |};
     env_clock := Firewall.wall_clock; env_rand := λ n, Z.of_nat n;
     env_order := λ n, n;
     metrics_Handle := None; metrics_Close := None; api_Close := None |}.

(** The API server does not close cleanly. *)
Definition api_stuck : Environment Firewall.FakeIPTables :=
  {| iptables_New := inl {| Firewall.fi_chains := ∅; Firewall.fi_locked := [] |};
     env_clock := Firewall.wall_clock; env_rand := λ n, Z.of_nat n;
     env_order := λ n, n;
     metrics_Handle := None; metrics_Close := None;
     api_Close := Some "close tcp 0.0.0.0:8080: use of closed network connection" |}.

End Agent.

(** * Properties *)

(** ** Integer wrap-around *)

Lemma wrap_int64_id (z : Z) :
  (- 2 ^ 63 ≤ z < 2 ^ 63)%Z → wrap_int64 z = z.
Proof.
  intros Hz. unfold wrap_int64.
  rewrite Z.mod_small by lia. lia.
Qed.

Lemma wrap_uint64_id (z : Z) :
  (0 ≤ z < 2 ^ 64)%Z → wrap_uint64 z = z.
Proof. intros Hz. unfold wrap_uint64. by rewrite Z.mod_small. Qed.

(** ** Instance selectors *)

Section selectors.
Import ServiceMesh.

Lemma RoundRobin_Select_step (services : list sref) (lb : RoundRobinLoadBalancer) :
  services ≠ [] →
  (0 ≤ counter lb < 2 ^ 64 - 1)%Z →
  RoundRobin_Select services lb =
    ((services !! Z.to_nat ((counter lb + 1) mod Z.of_nat (length services)), None),
     {| counter := counter lb + 1 |}).
Proof.
  intros Hne Hc. unfold RoundRobin_Select.
  destruct (decide (length services = 0)) as [Hl|Hl].
  - destruct services; [done | discriminate].
  - by rewrite wrap_uint64_id by lia.
Qed.

Lemma RoundRobin_index_in_range (services : list sref) (k : Z) :
  services ≠ [] →
  is_Some (services !! Z.to_nat (k mod Z.of_nat (length services))).
Proof.
  intros Hne. apply lookup_lt_is_Some.
  assert (0 < length services) by (destruct services; [done | simpl; lia]).
  pose proof (Z.mod_pos_bound k (Z.of_nat (length services))). lia.
Qed.

Lemma RoundRobin_calls_spec (n : nat) (services : list sref)
    (lb : RoundRobinLoadBalancer) :
  services ≠ [] →
  (0 ≤ counter lb)%Z →
  (counter lb + Z.of_nat n < 2 ^ 64)%Z →
  RoundRobin_calls n services lb =
    ((λ k : nat,
        (services !! Z.to_nat ((counter lb + Z.of_nat k) mod Z.of_nat (length services)),
         None)) <$> seq 1 n,
     {| counter := counter lb + Z.of_nat n |}).
Proof.
  intros Hne. revert lb. induction n as [|n IH]; intros lb H0 Hn.
  - simpl. destruct lb as [c]. simpl. by rewrite Z.add_0_r.
  - cbn [RoundRobin_calls].
    rewrite RoundRobin_Select_step by (done || lia).
    rewrite IH by (simpl; lia). cbn [counter].
    f_equal.
    + cbn [seq fmap list_fmap]. f_equal.
      rewrite <- (fmap_S_seq 1 n), <- list_fmap_compose.
      apply list_fmap_ext. intros _ k _. unfold compose.
      replace (counter lb + 1 + Z.of_nat k)%Z with (counter lb + Z.of_nat (S k))%Z
        by lia.
      done.
    + f_equal. lia.
Qed.

Lemma conn_of_bounds (bound : Z) (lb : LeastConnLoadBalancer) (id : string) :
  (0 ≤ bound)%Z → nonneg_counts bound lb →
  (0 ≤ conn_of (connections lb) id ≤ bound)%Z.
Proof.
  intros Hb Hlb. unfold conn_of.
  destruct (connections lb !! id) as [c|] eqn:Hc; simpl; [by eapply Hlb | lia].
Qed.

Lemma LeastConn_scan_first_least (conns : gmap string Z) (services : list sref) :
  (∀ id, 0 ≤ conn_of conns id)%Z →
  services ≠ [] →
  ∃ i s,
    foldl (LeastConn_scan conns) (None, (-1)%Z) services
      = (Some s, conn_of conns (ID s.2)) ∧
    first_least conns services i s.
Proof.
  intros Hpos. induction services as [|x l IH] using rev_ind; [done | intros _].
  rewrite foldl_snoc.
  destruct (decide (l = [])) as [->|Hl].
  - exists 0, x. split; [done |]. repeat split.
    + intros [|j] t Ht; simplify_eq/=; lia.
    + intros j t Hj; lia.
  - destruct (IH Hl) as (i & s & -> & Hi & Hle & Hlt).
    unfold LeastConn_scan at 1. cbn [snd].
    rewrite (bool_decide_eq_false_2 (conn_of conns (ID s.2) = (-1)%Z))
      by (specialize (Hpos (ID s.2)); lia).
    cbn [orb]. case_bool_decide as Hx.
    + exists (length l), x. split; [done |]. repeat split.
      * by rewrite lookup_app_r, Nat.sub_diag.
      * intros j t Ht. apply lookup_snoc_Some in Ht as [[_ Ht]|[_ ->]]; [|lia].
        specialize (Hle _ _ Ht). lia.
      * intros j t Hj Ht. rewrite lookup_app_l in Ht by done.
        specialize (Hle _ _ Ht). lia.
    + exists i, s. split; [done |]. repeat split.
      * rewrite lookup_app_l; [done | by eapply lookup_lt_Some].
      * intros j t Ht. apply lookup_snoc_Some in Ht as [[_ Ht]|[_ ->]]; [|lia].
        by eapply Hle.
      * intros j t Hj Ht. apply lookup_snoc_Some in Ht as [[_ Ht]|[-> ->]].
        -- by eapply Hlt.
        -- apply lookup_lt_Some in Hi. lia.
Qed.

Lemma LeastConn_Select_first_least (services : list sref) (lb : LeastConnLoadBalancer) :
  services ≠ [] →
  (∀ id c, connections lb !! id = Some c → (0 ≤ c < MaxInt64)%Z) →
  ∃ i s,
    LeastConn_Select services lb =
      ((Some s, None),
       {| connections :=
            <[ID s.2 := (conn_of (connections lb) (ID s.2) + 1)%Z]> (connections lb) |}) ∧
    first_least (connections lb) services i s.
Proof.
  intros Hne Hc.
  assert (Hpos : ∀ id, (0 ≤ conn_of (connections lb) id < MaxInt64)%Z).
  { intros id. unfold conn_of.
    destruct (connections lb !! id) as [c|] eqn:E; simpl; [by eapply Hc |].
    unfold MaxInt64. lia. }
  destruct (LeastConn_scan_first_least (connections lb) services) as (i & s & Hf & Hs);
    [intros id; apply Hpos | done |].
  exists i, s. split; [|done].
  unfold LeastConn_Select.
  destruct (decide (length services = 0)) as [Hl|_].
  { destruct services; [done | discriminate]. }
  rewrite Hf. rewrite wrap_int64_id; [done |].
  specialize (Hpos (ID s.2)). unfold MaxInt64 in Hpos. lia.
Qed.

Lemma LeastConn_scan_selected (conns : gmap string Z) (services : list sref)
    (st : option sref * Z) :
  foldl (LeastConn_scan conns) st services = st ∨
  ∃ s, s ∈ services ∧
       foldl (LeastConn_scan conns) st services = (Some s, conn_of conns (ID s.2)).
Proof.
  induction services as [|x l IH] using rev_ind; [by left |].
  rewrite foldl_snoc. unfold LeastConn_scan at 1 3.
  destruct (_ || _).
  - right. exists x. split; [apply elem_of_app; right; by apply list_elem_of_singleton | done].
  - destruct IH as [->|(s & Hs & ->)]; [by left |].
    right. exists s. split; [apply elem_of_app; by left | done].
Qed.

Lemma LeastConn_Select_cases (services : list sref) (lb : LeastConnLoadBalancer) :
  (services = [] ∧ LeastConn_Select services lb = ((None, Some no_services), lb)) ∨
  (∃ s, s ∈ services ∧
        LeastConn_Select services lb =
          ((Some s, None),
           {| connections :=
                <[ID s.2 := wrap_int64 (conn_of (connections lb) (ID s.2) + 1)]>
                  (connections lb) |})).
Proof.
  unfold LeastConn_Select.
  destruct services as [|x l]; [by left | right].
  cbn [length]. destruct (decide (S (length l) = 0)) as [?|_]; [lia |].
  cbn [foldl]. unfold LeastConn_scan at 2. cbn [snd bool_decide orb].
  rewrite bool_decide_eq_true_2 by done. cbn [orb].
  destruct (LeastConn_scan_selected (connections lb) l
              (Some x, conn_of (connections lb) (ID x.2))) as [->|(s & Hs & ->)].
  - exists x. split; [by left | done].
  - exists s. split; [by right | done].
Qed.

Lemma LeastConn_step_nonneg (bound : Z) (lb : LeastConnLoadBalancer) (op : SelectorOp) :
  (0 ≤ bound < MaxInt64)%Z →
  nonneg_counts bound lb →
  nonneg_counts (bound + 1) (LeastConn_step lb op).
Proof.
  intros Hb Hlb. destruct op as [services|serviceID]; cbn [LeastConn_step].
  - destruct (LeastConn_Select_cases services lb) as [[_ ->]|(s & _ & ->)]; cbn [snd].
    + intros id c Hc. specialize (Hlb _ _ Hc). lia.
    + pose proof (conn_of_bounds bound lb (ID s.2) ltac:(lia) Hlb) as Hs.
      unfold MaxInt64 in Hb. rewrite wrap_int64_id by lia.
      intros id c. cbn [connections]. rewrite lookup_insert.
      case_decide; intros Hc; simplify_eq; [lia |].
      specialize (Hlb _ _ Hc). lia.
  - unfold LeastConn_ReleaseConnection.
    destruct (connections lb !! serviceID) as [count|] eqn:Hcount;
      [case_bool_decide as Hpos |].
    + pose proof (Hlb _ _ Hcount) as Hc0. unfold MaxInt64 in Hb.
      rewrite wrap_int64_id by lia.
      intros id c. cbn [connections]. rewrite lookup_insert.
      case_decide; intros Hc; simplify_eq; [lia |].
      specialize (Hlb _ _ Hc). lia.
    + intros id c Hc. specialize (Hlb _ _ Hc). lia.
    + intros id c Hc. specialize (Hlb _ _ Hc). lia.
Qed.

Lemma LeastConn_run_nonneg (ops : list SelectorOp) (bound : Z)
    (lb : LeastConnLoadBalancer) :
  (0 ≤ bound)%Z →
  (bound + Z.of_nat (length ops) ≤ MaxInt64)%Z →
  nonneg_counts bound lb →
  nonneg_counts (bound + Z.of_nat (length ops)) (LeastConn_run ops lb).
Proof.
  intros Hb. induction ops as [|op ops IH] using rev_ind; intros Hlen Hlb.
  - simpl. by rewrite Z.add_0_r.
  - unfold LeastConn_run in *. rewrite foldl_snoc.
    rewrite length_app in *. cbn [length] in *.
    replace (bound + Z.of_nat (length ops + 1))%Z
      with (bound + Z.of_nat (length ops) + 1)%Z by lia.
    apply LeastConn_step_nonneg; [lia |]. apply IH; [lia | done].
Qed.

(** C6: on a non-empty list of candidates, [Select] of the round-robin
    balancer adds one to its counter and returns the candidate at index
    (counter mod length); the k-th of successive calls on a fixed list thus
    returns the candidate at index (k mod length).  Over [a; b; c], six
    calls return [b; c; a; b; c; a]: a rotation in which each instance is
    selected exactly twice. *)
Theorem C6_round_robin_rotation :
  (∀ (services : list sref) (lb : RoundRobinLoadBalancer),
     services ≠ [] →
     (0 ≤ counter lb < 2 ^ 64 - 1)%Z →
     ∃ s,
       RoundRobin_Select services lb = ((Some s, None), {| counter := counter lb + 1 |}) ∧
       services !! Z.to_nat ((counter lb + 1) mod Z.of_nat (length services)) = Some s) ∧
  (∀ (n : nat) (services : list sref),
     services ≠ [] →
     (Z.of_nat n < 2 ^ 64)%Z →
     RoundRobin_calls n services {| counter := 0 |} =
       ((λ k : nat,
           (services !! Z.to_nat (Z.of_nat k mod Z.of_nat (length services)), None))
          <$> seq 1 n,
        {| counter := Z.of_nat n |})) ∧
  (∀ a b c : sref,
     NewLoadBalancer "round_robin" = RoundRobin {| counter := 0 |} ∧
     (RoundRobin_calls 6 [a; b; c] {| counter := 0 |}).1 =
       (λ s, (Some s, None)) <$> [b; c; a; b; c; a] ∧
     (NoDup [a; b; c] →
      ∀ x, x ∈ [a; b; c] →
           length (filter (λ r, r.1 = Some x)
                     (RoundRobin_calls 6 [a; b; c] {| counter := 0 |}).1) = 2)).
Proof.
  split; [|split].
  - intros services lb Hne Hc.
    destruct (RoundRobin_index_in_range services (counter lb + 1) Hne) as [s Hs].
    exists s. split; [|done].
    by rewrite RoundRobin_Select_step, Hs.
  - intros n services Hne Hn.
    by rewrite RoundRobin_calls_spec by (done || simpl; lia).
  - intros a b c. split; [done |]. split; [done |].
    intros Hnd x Hx.
    apply NoDup_cons in Hnd as [Ha Hnd]. apply NoDup_cons in Hnd as [Hb _].
    rewrite !elem_of_cons in Ha. rewrite !elem_of_cons in Hb.
    rewrite !elem_of_cons in Hx.
    assert (Hab : a ≠ b) by (intros ->; apply Ha; by left).
    assert (Hac : a ≠ c) by (intros ->; apply Ha; right; by left).
    assert (Hbc : b ≠ c) by (intros ->; apply Hb; by left).
    change (RoundRobin_calls 6 [a; b; c] {| counter := 0 |}).1
      with ((λ s : sref, (Some s, @None string)) <$> [b; c; a; b; c; a]).
    cbn [fmap list_fmap].
    destruct Hx as [Hx|[Hx|[Hx|Hx]]]; [| | |by apply elem_of_nil in Hx];
      subst x; cbn [filter list_filter fst];
      repeat case_decide; first [reflexivity | exfalso; congruence].
Qed.

Lemma C6_round_robin_rotation_witness :
  RoundRobin_calls 4 [(1%positive, web1);
                      (2%positive, web2)]
    {| counter := 0 |} =
  ((λ k : nat,
      ([(1%positive, web1);
        (2%positive, web2)]
         !! Z.to_nat (Z.of_nat k mod Z.of_nat 2), None))
     <$> seq 1 4,
   {| counter := 4 |}).
Proof.
  apply (proj1 (proj2 C6_round_robin_rotation) 4); [done | simpl; lia].
Defined.

(** C7: on a non-empty list, [Select] of the least-connection balancer
    returns the first service in list order whose count of outstanding
    connections is the least, and adds one to that count.  When all counts
    are equal it returns the head of the list; with counts A:2, B:0, C:1 it
    returns B, and after a release on A, with A:1, B:1, C:1, it returns A.
    The first part is stated for a table in which no count is negative or
    at the top of the int64 range, the second for every table that
    [Select] and [ReleaseConnection] build from a new balancer. *)
Theorem C7_least_conn_first_minimum :
  (∀ (services : list sref) (lb : LeastConnLoadBalancer),
     services ≠ [] →
     (∀ id c, connections lb !! id = Some c → (0 ≤ c < MaxInt64)%Z) →
     ∃ (i : nat) (s : sref),
       LeastConn_Select services lb =
         ((Some s, None),
          {| connections :=
               <[ID s.2 := (conn_of (connections lb) (ID s.2) + 1)%Z]> (connections lb) |}) ∧
       services !! i = Some s ∧
       (∀ j t, services !! j = Some t →
               (conn_of (connections lb) (ID s.2) ≤ conn_of (connections lb) (ID t.2))%Z) ∧
       (∀ j t, j < i → services !! j = Some t →
               (conn_of (connections lb) (ID s.2) < conn_of (connections lb) (ID t.2))%Z)) ∧
  (∀ (ops : list SelectorOp) (services : list sref),
     services ≠ [] →
     (Z.of_nat (length ops) < 2 ^ 63 - 1)%Z →
     ∃ (i : nat) (s : sref),
       (LeastConn_Select services (LeastConn_run ops {| connections := ∅ |})).1 =
         (Some s, None) ∧
       first_least (connections (LeastConn_run ops {| connections := ∅ |}))
         services i s) ∧
  (∀ (first : sref) (rest : list sref) (lb : LeastConnLoadBalancer) (k : Z),
     (0 ≤ k)%Z →
     (∀ t, t ∈ first :: rest → conn_of (connections lb) (ID t.2) = k) →
     (LeastConn_Select (first :: rest) lb).1 = (Some first, None)) ∧
  (∀ a b c : sref,
     ID a.2 = "A" → ID b.2 = "B" → ID c.2 = "C" →
     let lb0 := {| connections := <["A" := 2%Z]> (<["B" := 0%Z]> (<["C" := 1%Z]> ∅)) |} in
     let '(r1, lb1) := LeastConn_Select [a; b; c] lb0 in
     let lb2 := LeastConn_ReleaseConnection "A" lb1 in
     let '(r2, lb3) := LeastConn_Select [a; b; c] lb2 in
     r1 = (Some b, None) ∧
     connections lb1 = <["A" := 2%Z]> (<["B" := 1%Z]> (<["C" := 1%Z]> ∅)) ∧
     connections lb2 = <["A" := 1%Z]> (<["B" := 1%Z]> (<["C" := 1%Z]> ∅)) ∧
     r2 = (Some a, None)).
Proof.
  split; [|split; [|split]].
  - intros services lb Hne Hc.
    destruct (LeastConn_Select_first_least services lb Hne Hc)
      as (i & s & Hsel & Hi & Hle & Hlt).
    by exists i, s.
  - intros ops services Hne Hlen.
    pose proof (LeastConn_run_nonneg ops 0 {| connections := ∅ |}) as Hrun.
    destruct (LeastConn_Select_first_least services
                (LeastConn_run ops {| connections := ∅ |}) Hne)
      as (i & s & Hsel & Hfirst).
    + intros id c Hc. unfold MaxInt64.
      assert (0 ≤ c ≤ 0 + Z.of_nat (length ops))%Z; [|lia].
      eapply Hrun; [lia | unfold MaxInt64; lia | | exact Hc].
      intros id' c'. cbn [connections]. by rewrite lookup_empty.
    + exists i, s. by rewrite Hsel.
  - intros first rest lb k Hk Hc.
    unfold LeastConn_Select. cbn [length].
    destruct (decide (S (length rest) = 0)) as [?|_]; [lia |].
    cbn [foldl]. unfold LeastConn_scan at 2. cbn [snd].
    rewrite bool_decide_eq_true_2 by done. cbn [orb].
    rewrite (Hc first) by (by left).
    assert (Hfold : foldl (LeastConn_scan (connections lb)) (Some first, k) rest
                    = (Some first, k)).
    { assert (Hr : ∀ t, t ∈ rest → conn_of (connections lb) (ID t.2) = k).
      { intros t Ht. apply Hc. by right. }
      clear Hc. induction rest as [|x l IH]; [done |].
      cbn [foldl]. unfold LeastConn_scan at 2. cbn [snd].
      rewrite (Hr x) by (by left).
      rewrite bool_decide_eq_false_2 by lia.
      rewrite bool_decide_eq_false_2 by lia. cbn [orb].
      apply IH. intros t Ht. apply Hr. by right. }
    by rewrite Hfold.
  - intros [pa [ia ? ? ? ? ? ? ? ? ?]] [pb [ib ? ? ? ? ? ? ? ? ?]]
           [pc [ic ? ? ? ? ? ? ? ? ?]]; cbn [snd ID].
    intros -> -> ->. vm_compute. repeat split; reflexivity.
Qed.

Lemma C7_least_conn_first_minimum_witness :
  ∃ (i : nat) (s : sref),
    LeastConn_Select
      [(1%positive, web1);
       (2%positive, web2)]
      {| connections := <["S1" := 3%Z]> ∅ |} =
      ((Some s, None),
       {| connections :=
            <[ID s.2 := (conn_of (<["S1" := 3%Z]> ∅) (ID s.2) + 1)%Z]> (<["S1" := 3%Z]> ∅) |}) ∧
    [(1%positive, web1);
     (2%positive, web2)] !! i
      = Some s ∧
    ID s.2 = "S2".
Proof.
  destruct (proj1 C7_least_conn_first_minimum
      [(1%positive, web1);
       (2%positive, web2)]
      {| connections := <["S1" := 3%Z]> ∅ |}) as (i & s & Hsel & Hi & _ & _).
  - done.
  - intros id c. cbn [connections]. rewrite lookup_insert.
    case_decide; intros Hc; simplify_eq. unfold MaxInt64. lia.
  - exists i, s. split; [exact Hsel |]. split; [exact Hi |].
    vm_compute in Hsel. by simplify_eq.
Defined.

(** C10: after any history of [Select] and [ReleaseConnection] calls on a
    new least-connection balancer (fewer than 2^63 of them, the range of
    the int64 counters), no counter is negative.  [Select] leaves the
    table as it is only when it is given no service and fails; otherwise
    it returns one of the services, adds one to the counter of that
    service and writes no other counter.  [ReleaseConnection] takes one
    off a counter that exists and is positive, and does nothing
    otherwise. *)
Theorem C10_least_conn_counts_nonnegative :
  (∀ (ops : list SelectorOp),
     (Z.of_nat (length ops) < 2 ^ 63)%Z →
     ∀ id c,
       connections (LeastConn_run ops {| connections := ∅ |}) !! id = Some c →
       (0 ≤ c ≤ Z.of_nat (length ops))%Z) ∧
  (∀ (services : list sref) (lb : LeastConnLoadBalancer),
     (services = [] ∧
      LeastConn_Select services lb = ((None, Some no_services), lb)) ∨
     ∃ s, s ∈ services ∧
          (LeastConn_Select services lb).1 = (Some s, None) ∧
          connections (LeastConn_Select services lb).2 =
            <[ID s.2 := wrap_int64 (conn_of (connections lb) (ID s.2) + 1)]>
              (connections lb) ∧
          (∀ id, id ≠ ID s.2 →
                 connections (LeastConn_Select services lb).2 !! id =
                   connections lb !! id) ∧
          ((0 ≤ conn_of (connections lb) (ID s.2) < MaxInt64)%Z →
           conn_of (connections (LeastConn_Select services lb).2) (ID s.2) =
             (conn_of (connections lb) (ID s.2) + 1)%Z)) ∧
  (∀ (serviceID : string) (lb : LeastConnLoadBalancer) (count : Z),
     connections lb !! serviceID = Some count →
     (0 < count)%Z →
     connections (LeastConn_ReleaseConnection serviceID lb) =
       <[serviceID := wrap_int64 (count - 1)]> (connections lb)) ∧
  (∀ (serviceID : string) (lb : LeastConnLoadBalancer),
     connections lb !! serviceID = None ∨
     (∃ count, connections lb !! serviceID = Some count ∧ (count ≤ 0)%Z) →
     LeastConn_ReleaseConnection serviceID lb = lb).
Proof.
  split; [|split; [|split]].
  - intros ops Hlen id c Hc.
    pose proof (LeastConn_run_nonneg ops 0 {| connections := ∅ |}) as Hrun.
    unfold nonneg_counts in Hrun at 2.
    eapply Hrun; [lia | unfold MaxInt64; lia | | exact Hc].
    intros id' c'. cbn [connections]. by rewrite lookup_empty.
  - intros services lb.
    destruct (LeastConn_Select_cases services lb) as [[-> ->]|(s & Hs & ->)].
    + by left.
    + right. exists s. cbn [fst snd connections].
      split; [exact Hs |]. split; [done |]. split; [done |]. split.
      * intros id Hid. by rewrite lookup_insert_ne.
      * intros Hc. unfold conn_of at 1. rewrite lookup_insert_eq. cbn.
        apply wrap_int64_id. unfold MaxInt64 in Hc. lia.
  - intros serviceID lb count Hcount Hpos. unfold LeastConn_ReleaseConnection.
    rewrite Hcount. by rewrite bool_decide_eq_true_2 by lia.
  - intros serviceID lb [Hnone|(count & Hcount & Hle)];
      unfold LeastConn_ReleaseConnection.
    + by rewrite Hnone.
    + rewrite Hcount. by rewrite bool_decide_eq_false_2 by lia.
Qed.

Lemma C10_least_conn_counts_nonnegative_witness :
  connections
    (LeastConn_run
       [OpSelect [(1%positive, web1)];
        OpReleaseConnection "S1";
        OpReleaseConnection "S1"]
       {| connections := ∅ |}) !! "S1" = Some 0%Z ∧
  (0 ≤ 0 ≤ Z.of_nat 3)%Z.
Proof.
  assert (Hc : connections
                 (LeastConn_run
                    [OpSelect [(1%positive, web1)];
                     OpReleaseConnection "S1";
                     OpReleaseConnection "S1"]
                    {| connections := ∅ |}) !! "S1" = Some 0%Z) by (by vm_compute).
  split; [exact Hc |].
  refine (proj1 C10_least_conn_counts_nonnegative _ _ "S1" 0%Z Hc).
  simpl. lia.
Defined.

End selectors.

(** ** The order of map ranges *)

Lemma insert_at_Permutation {A : Type} (i : nat) (x : A) (l : list A) :
  insert_at i x l ≡ₚ x :: l.
Proof.
  unfold insert_at. rewrite <- Permutation_middle. by rewrite take_drop.
Qed.

(** A range meets every entry of the map once. *)
Lemma range_order_Permutation {A : Type} (seed : nat) (l : list A) :
  range_order seed l ≡ₚ l.
Proof.
  revert seed. induction l as [|x l IH]; intros seed; cbn [range_order]; [done |].
  by rewrite insert_at_Permutation, IH.
Qed.

Lemma range_order_0 {A : Type} (l : list A) : range_order 0 l = l.
Proof.
  induction l as [|x l IH]; cbn [range_order]; [done |].
  rewrite Nat.Div0.mod_0_l, Nat.Div0.div_0_l, IH. done.
Qed.

(** No order of the entries is left out. *)
Lemma range_order_covers {A : Type} (l l' : list A) :
  l' ≡ₚ l → ∃ seed, range_order seed l = l'.
Proof.
  revert l'. induction l as [|x l IH]; intros l' Hperm.
  - apply Permutation_nil_r in Hperm as ->. by exists 0.
  - assert (Hx : x ∈ l') by (rewrite Hperm; by left).
    apply list_elem_of_split in Hx as (l1 & l2 & ->).
    symmetry in Hperm. apply Permutation_cons_app_inv in Hperm.
    symmetry in Hperm.
    destruct (IH (l1 ++ l2) Hperm) as [seed Hseed].
    assert (Hlen : length l1 < S (length l)).
    { apply Permutation_length in Hperm. rewrite length_app in Hperm. lia. }
    exists (length l1 + seed * S (length l)). cbn [range_order].
    rewrite Nat.Div0.mod_add, Nat.mod_small by done.
    rewrite Nat.div_add, Nat.div_small by (done || lia).
    rewrite Nat.add_0_l, Hseed. unfold insert_at.
    by rewrite take_app_length, drop_app_length.
Qed.

Lemma elem_of_range_order {A B : Type} (seed : nat) (l : list (A * B)) (y : B) :
  y ∈ (range_order seed l).*2 ↔ y ∈ l.*2.
Proof. by rewrite range_order_Permutation. Qed.

(** ** Health monitor *)

Section health.
Import Health.

Lemma probe_set_LastCheck (net : Network) (now : Z) (k : Check) :
  probe net (set_LastCheck now k) = probe net k.
Proof. done. Qed.

Lemma performCheck_heap (check : ptr) (net : Network) (w : World) (k : Check) :
  heap w !! check = Some k →
  (performCheck check net w).1 = Return () ∧
  heap (performCheck check net w).2 =
    <[check := ticked net (clock w (ticks w)) k]> (heap w) ∧
  clock (performCheck check net w).2 = clock w.
Proof.
  intros Hk. unfold performCheck, ticked. rewrite Hk. cbn.
  rewrite probe_set_LastCheck.
  destruct (probe net k) as [err|]; cbn; [|done].
  destruct (callback (record_probe err (set_LastCheck (clock w (ticks w)) k)));
    cbn; by rewrite insert_insert_eq.
Qed.

Lemma ticked_fails (net : Network) (now : Z) (k : Check) :
  fails net k →
  Failures (ticked net now k) = wrap_int64 (Failures k + 1) ∧
  Status (ticked net now k) =
    (if bool_decide (wrap_int64 (Failures k + 1) >= 3)%Z
     then StatusCritical else StatusWarning) ∧
  probe net (ticked net now k) = probe net k.
Proof. intros [e He]. unfold ticked. rewrite He. done. Qed.

Lemma ticked_passes (net : Network) (now : Z) (k : Check) :
  passes net k →
  Failures (ticked net now k) = 0%Z ∧ Status (ticked net now k) = StatusPassing.
Proof. intros He. unfold ticked. rewrite He. done. Qed.

Lemma ticked_probe (net net' : Network) (now : Z) (k : Check) :
  probe net' (ticked net now k) = probe net' k.
Proof. unfold ticked. by destruct (probe net k) as [[e|]|]. Qed.

(** [n] consecutive failures starting from a counter [f]. *)
Lemma performChecks_failures (check : ptr) (nets : list Network) (w : World)
    (k : Check) :
  heap w !! check = Some k →
  (0 ≤ Failures k)%Z →
  (Failures k + Z.of_nat (length nets) < 2 ^ 63)%Z →
  Forall (λ net, fails net k) nets →
  ∃ k',
    heap (performChecks check nets w) !! check = Some k' ∧
    (∀ net, probe net k' = probe net k) ∧
    Failures k' = (Failures k + Z.of_nat (length nets))%Z ∧
    (nets ≠ [] →
     Status k' = if bool_decide (Failures k' >= 3)%Z
                 then StatusCritical else StatusWarning).
Proof.
  intros Hk H0. induction nets as [|net nets IH] using rev_ind; intros Hlen Hall.
  - exists k. simpl. split; [done |]. split; [done |]. split; [lia | done].
  - rewrite length_app in Hlen. cbn [length] in Hlen.
    rewrite Forall_app, Forall_singleton in Hall. destruct Hall as [Hall Hnet].
    destruct IH as (k1 & Hk1 & Hp1 & Hf1 & _); [lia | done |].
    unfold performChecks in *. rewrite foldl_snoc.
    set (w1 := foldl _ w nets) in *.
    destruct (performCheck_heap check net w1 k1 Hk1) as (_ & Hheap & _).
    assert (Hfails : fails net k1).
    { destruct Hnet as [e He]. exists e. by rewrite Hp1. }
    destruct (ticked_fails net (clock w1 (ticks w1)) k1 Hfails) as (Hf & Hs & _).
    exists (ticked net (clock w1 (ticks w1)) k1).
    rewrite Hheap, lookup_insert_eq. split; [done |].
    split. { intros net'. by rewrite ticked_probe. }
    rewrite Hf1 in Hf. rewrite wrap_int64_id in Hf by lia.
    rewrite Hf1 in Hs. rewrite wrap_int64_id in Hs by lia.
    split; [rewrite Hf, length_app; simpl; lia |].
    intros _. by rewrite Hs, Hf.
Qed.

(** The interval that [AddCheck] leaves in the check is positive unless
    the caller supplied a negative one. *)
Lemma added_Interval (k : Check) (id : string) (now : Z) :
  (Interval (added k id now) ≤ 0)%Z ↔ (Interval k < 0)%Z.
Proof.
  cbn [added Interval]. unfold Second. case_decide; lia.
Qed.

Lemma AddCheck_heap (check : ptr) (c : Checker) (w : World) (k : Check) :
  heap w !! check = Some k →
  ∃ id now,
    (AddCheck check c w).1.1 =
      (if running c && bool_decide (Interval k < 0)%Z
       then Panic NewTicker_panic else Return None) ∧
    checks (AddCheck check c w).1.2 = <[id := check]> (checks c) ∧
    heap (AddCheck check c w).2 = <[check := added k id now]> (heap w) ∧
    (ID k ≠ "" → id = ID k).
Proof.
  intros Hk. unfold AddCheck, go_checkLoop. rewrite Hk.
  destruct (decide (ID k = "")); cbn [generateCheckID time_Now fst snd];
    destruct (running c); cbn [andb heap ticks clock set_heap fst snd];
    rewrite ?lookup_insert_eq;
    try (eexists _, _; done).
  all: eexists _, _.
  all: destruct (decide (Interval (added _ _ _) ≤ 0)%Z) as [Hi|Hi];
    rewrite added_Interval in Hi;
    [rewrite bool_decide_eq_true_2 by done
    |rewrite bool_decide_eq_false_2 by done]; done.
Qed.

(** C3 (amended): [AddCheck] puts a check in Passing and keeps the failure
    counter the caller supplied (0 for a newly built check); it returns
    [nil], unless the checker is running and the check comes with a
    negative interval, on which its loop cannot start.  A failed
    probe adds one to the counter (in 64-bit arithmetic) and makes the
    status Critical when the new counter is at least 3, Warning otherwise;
    a successful probe resets the counter to 0 and the status to Passing.
    Hence, from a counter of 0, one or two consecutive failures give
    Warning and three or more give Critical. *)
Theorem C3_health_state_machine :
  (∀ (check : ptr) (c : Checker) (w : World) (k : Check),
     heap w !! check = Some k →
     ∃ k',
       ((running c = true → (0 ≤ Interval k)%Z) →
        (AddCheck check c w).1.1 = Return None) ∧
       heap (AddCheck check c w).2 !! check = Some k' ∧
       Status k' = StatusPassing ∧
       Failures k' = Failures k) ∧
  (∀ (check : ptr) (net : Network) (w : World) (k : Check),
     heap w !! check = Some k →
     fails net k →
     ∃ k',
       heap (performCheck check net w).2 !! check = Some k' ∧
       Failures k' = wrap_int64 (Failures k + 1) ∧
       Status k' = if bool_decide (Failures k' >= 3)%Z
                   then StatusCritical else StatusWarning) ∧
  (∀ (check : ptr) (net : Network) (w : World) (k : Check),
     heap w !! check = Some k →
     passes net k →
     ∃ k',
       heap (performCheck check net w).2 !! check = Some k' ∧
       Failures k' = 0%Z ∧
       Status k' = StatusPassing) ∧
  (∀ (check : ptr) (nets : list Network) (w : World) (k : Check),
     heap w !! check = Some k →
     Failures k = 0%Z →
     (Z.of_nat (length nets) < 2 ^ 63)%Z →
     Forall (λ net, fails net k) nets →
     ∃ k',
       heap (performChecks check nets w) !! check = Some k' ∧
       Failures k' = Z.of_nat (length nets) ∧
       (length nets = 1 ∨ length nets = 2 → Status k' = StatusWarning) ∧
       (3 ≤ length nets → Status k' = StatusCritical)).
Proof.
  split; [|split; [|split]].
  - intros check c w k Hk.
    destruct (AddCheck_heap check c w k Hk) as (id & now & Hres & _ & Hheap & _).
    exists (added k id now). rewrite Hheap, lookup_insert_eq.
    split; [|done]. intros Hi. rewrite Hres.
    destruct (running c); [|done].
    rewrite bool_decide_eq_false_2; [done |]. specialize (Hi eq_refl). lia.
  - intros check net w k Hk Hfails.
    destruct (performCheck_heap check net w k Hk) as (_ & Hheap & _).
    destruct (ticked_fails net (clock w (ticks w)) k Hfails) as (Hf & Hs & _).
    exists (ticked net (clock w (ticks w)) k).
    rewrite Hheap, lookup_insert_eq. by rewrite Hs, Hf.
  - intros check net w k Hk Hpasses.
    destruct (performCheck_heap check net w k Hk) as (_ & Hheap & _).
    destruct (ticked_passes net (clock w (ticks w)) k Hpasses) as (Hf & Hs).
    exists (ticked net (clock w (ticks w)) k).
    by rewrite Hheap, lookup_insert_eq.
  - intros check nets w k Hk H0 Hlen Hall.
    destruct (performChecks_failures check nets w k Hk) as (k' & Hk' & _ & Hf & Hs);
      [lia | lia | done |].
    rewrite H0, Z.add_0_l in Hf.
    exists k'. split; [done |]. split; [done |]. split.
    + intros Hn. rewrite Hs by (intros ->; simpl in Hn; lia).
      rewrite bool_decide_eq_false_2; [done | lia].
    + intros Hn. rewrite Hs by (intros ->; simpl in Hn; lia).
      rewrite bool_decide_eq_true_2; [done | lia].
Qed.

Lemma C3_starts_with_supplied_counter :
  let w1 := (AddCheck 1%positive NewChecker stale_world).2 in
  Status <$> heap w1 !! 1%positive = Some StatusPassing ∧
  Failures <$> heap w1 !! 1%positive = Some 2%Z ∧
  Failures <$> heap w1 !! 1%positive ≠ Some 0%Z ∧
  Status <$> heap (performCheck 1%positive net_down w1).2 !! 1%positive
    = Some StatusCritical.
Proof. vm_compute. repeat split; congruence. Qed.

Lemma C3_health_state_machine_witness :
  ∃ k',
    heap (performChecks 1%positive [net_down; net_down; net_down] new_world)
      !! 1%positive = Some k' ∧
    Failures k' = 3%Z ∧
    Status k' = StatusCritical.
Proof.
  destruct (proj2 (proj2 (proj2 C3_health_state_machine))
              1%positive [net_down; net_down; net_down] new_world new_check)
    as (k' & Hk' & Hf & _ & Hs).
  - reflexivity.
  - reflexivity.
  - simpl. lia.
  - repeat constructor; eexists; reflexivity.
  - exists k'. split; [exact Hk' |]. split; [exact Hf |]. apply Hs. simpl. lia.
Defined.

End health.


(** ** Rule reconciler *)

Section firewall.
Import Firewall.
Context {B : Type} `{!Backend B}.

Implicit Types (m : Manager) (w : World B) (r : Rule) (rule : ptr).

Lemma generateRuleID_nonempty w : (generateRuleID w).1 ≠ "".
Proof. done. Qed.

(** The effect of [AddRule] on an allocated rule. *)
Lemma AddRule_allocated rule m w r :
  heap w !! rule = Some r →
  ∃ id createdAt err,
    id ≠ "" ∧
    (ID r ≠ "" → id = ID r) ∧
    heap (AddRule rule m w).2 = <[rule := stamped r id createdAt]> (heap w) ∧
    calls (AddRule rule m w).2 =
      calls w ++ [(CallAddRule (stamped r id createdAt), err)] ∧
    match err with
    | None =>
        (AddRule rule m w).1 = (Return None, set_rules (<[id := rule]> (rules m)) m)
    | Some e =>
        (AddRule rule m w).1 = (Return (Some ("failed to add rule: " +:+ e)), m)
    end.
Proof.
  intros Hr. unfold AddRule. rewrite Hr.
  destruct (decide (ID r = "")) as [Hid|Hid]; cbn.
  - exists ("rule-" +:+ Sprintf_d (clock w (ticks w))), (clock w (S (ticks w))).
    destruct (backend_AddRule _ _) as [[e|] b]; cbn;
      [exists (Some e) | exists None]; done.
  - exists (ID r), (clock w (ticks w)).
    destruct (backend_AddRule _ _) as [[e|] b]; cbn;
      [exists (Some e) | exists None]; done.
Qed.

Lemma AddRule_unallocated rule m w :
  heap w !! rule = None →
  AddRule rule m w = (Panic nil_dereference, m, w).
Proof. intros Hr. unfold AddRule. by rewrite Hr. Qed.

Lemma DeleteRule_cases ruleID m w :
  (rules m !! ruleID = None ∧
   DeleteRule ruleID m w = (Return (Some ("rule not found: " +:+ ruleID)), m, w)) ∨
  (∃ rule, rules m !! ruleID = Some rule ∧ heap w !! rule = None ∧
           DeleteRule ruleID m w = (Panic nil_dereference, m, w)) ∨
  (∃ rule r err,
     rules m !! ruleID = Some rule ∧ heap w !! rule = Some r ∧
     heap (DeleteRule ruleID m w).2 = heap w ∧
     calls (DeleteRule ruleID m w).2 = calls w ++ [(CallDeleteRule r, err)] ∧
     match err with
     | None =>
         (DeleteRule ruleID m w).1 =
           (Return None, set_rules (delete ruleID (rules m)) m)
     | Some e =>
         (DeleteRule ruleID m w).1 =
           (Return (Some ("failed to delete rule: " +:+ e)), m)
     end).
Proof.
  unfold DeleteRule.
  destruct (rules m !! ruleID) as [rule|]; [|by left].
  right. destruct (heap w !! rule) as [r|] eqn:Hr; [right | left; by exists rule].
  exists rule, r. cbn.
  destruct (backend_DeleteRule _ _) as [[e|] b]; cbn;
    [exists (Some e) | exists None]; done.
Qed.











(** *** The periodic sync *)

Lemma rulesEqual_fields r1 r2 :
  rulesEqual r1 r2 = true ↔
  Chain r1 = Chain r2 ∧ Protocol r1 = Protocol r2 ∧ Source r1 = Source r2 ∧
  Dest r1 = Dest r2 ∧ SPort r1 = SPort r2 ∧ DPort r1 = DPort r2 ∧
  Action r1 = Action r2.
Proof.
  unfold rulesEqual. rewrite !andb_true_iff, !bool_decide_eq_true. tauto.
Qed.

Lemma found_in_false (backendRules : list Rule) r :
  found_in backendRules r = false ↔
  ∀ b, b ∈ backendRules → rulesEqual r b = false.
Proof.
  unfold found_in. rewrite <- not_true_iff_false, existsb_exists. split.
  - intros Hno b Hb. apply not_true_iff_false. intros Heq. apply Hno.
    exists b. split; [by apply list_elem_of_In | done].
  - intros Hall (b & Hb & Heq). apply list_elem_of_In in Hb.
    rewrite (Hall b Hb) in Heq. discriminate.
Qed.

Lemma sync_loop_calls (backendRules : list Rule) (stored : list ptr) w :
  ∃ new,
    calls (sync_loop backendRules stored w).2 = calls w ++ new ∧
    heap (sync_loop backendRules stored w).2 = heap w ∧
    (∀ c, c ∈ new.*1 →
          ∃ rule r, rule ∈ stored ∧ heap w !! rule = Some r ∧
                    found_in backendRules r = false ∧ c = CallAddRule r) ∧
    ((∀ rule, rule ∈ stored → is_Some (heap w !! rule)) →
     (sync_loop backendRules stored w).1 = Return () ∧
     ∀ rule r, rule ∈ stored → heap w !! rule = Some r →
               found_in backendRules r = false → CallAddRule r ∈ new.*1).
Proof.
  revert w. induction stored as [|rule stored IH]; intros w; cbn [sync_loop].
  - exists []. rewrite app_nil_r. split; [done |]. split; [done |]. split.
    + intros c Hc. by apply elem_of_nil in Hc.
    + intros _. split; [done |]. intros rule r Hin. by apply elem_of_nil in Hin.
  - destruct (heap w !! rule) as [r|] eqn:Hr.
    + destruct (found_in backendRules r) eqn:Hfound.
      * destruct (IH w) as (new & Hcalls & Hheap & Honly & Hall).
        exists new. split; [done |]. split; [done |]. split.
        -- intros c Hc. destruct (Honly c Hc) as (rule' & r' & Hin & H').
           exists rule', r'. split; [by right | done].
        -- intros Halloc. destruct Hall as [Hret Hall].
           { intros rule' Hin. apply Halloc. by right. }
           split; [done |]. intros rule' r' Hin Hr' Hnf.
           apply elem_of_cons in Hin as [->|Hin]; [congruence |].
           by eapply Hall.
      * destruct (call_AddRule r w) as [err w1] eqn:Hcall.
        assert (Hw1 : calls w1 = calls w ++ [(CallAddRule r, err)] ∧ heap w1 = heap w).
        { unfold call_AddRule, backend_step in Hcall. by injection Hcall as <- <-. }
        destruct Hw1 as [Hcalls1 Hheap1].
        destruct (IH w1) as (new & Hcalls & Hheap & Honly & Hall).
        exists ((CallAddRule r, err) :: new).
        split; [by rewrite Hcalls, Hcalls1, <- app_assoc |].
        split; [by rewrite Hheap |]. split.
        -- intros c Hc. rewrite fmap_cons in Hc.
           apply elem_of_cons in Hc as [->|Hc].
           ++ exists rule, r. split; [by left | done].
           ++ destruct (Honly c Hc) as (rule' & r' & Hin & Hr' & H').
              exists rule', r'. rewrite <- Hheap1. split; [by right | done].
        -- intros Halloc. destruct Hall as [Hret Hall].
           { intros rule' Hin. rewrite Hheap1. apply Halloc. by right. }
           split; [done |]. intros rule' r' Hin Hr' Hnf. rewrite fmap_cons.
           apply elem_of_cons in Hin as [->|Hin].
           ++ rewrite Hr in Hr'. injection Hr' as <-. by left.
           ++ right. eapply Hall; [done | by rewrite Hheap1 | done].
    + exists []. rewrite app_nil_r. split; [done |]. split; [done |]. split.
      * intros c Hc. by apply elem_of_nil in Hc.
      * intros Halloc. destruct (Halloc rule) as [r' Hr']; [by left | congruence].
Qed.

Lemma elem_of_stored m rule :
  rule ∈ (map_to_list (rules m)).*2 ↔ ∃ id, rules m !! id = Some rule.
Proof.
  rewrite list_elem_of_fmap. split.
  - intros ([id rule'] & -> & Hin). exists id. by apply elem_of_map_to_list.
  - intros [id Hid]. exists (id, rule). split; [done |].
    by apply elem_of_map_to_list.
Qed.

(** The range of [sync] over the store: the stored pointers in some
    order, and a world that differs in the count of the ranges only. *)
Lemma range_rules_spec m w :
  (range_rules m w).1 ≡ₚ (map_to_list (rules m)).*2 ∧
  (∀ rule, rule ∈ (range_rules m w).1 ↔ ∃ id, rules m !! id = Some rule) ∧
  heap (range_rules m w).2 = heap w ∧
  calls (range_rules m w).2 = calls w ∧
  backend (range_rules m w).2 = backend w.
Proof.
  unfold range_rules. cbn [fst snd heap calls backend].
  split; [by rewrite range_order_Permutation |]. split; [|done].
  intros rule. by rewrite elem_of_range_order, elem_of_stored.
Qed.

(** One pass of [sync], call by call. *)
Lemma sync_issued m w :
  ∃ new,
    issued_by_sync m w = CallListRules :: new ∧
    heap (sync m w).2 = heap w ∧
    (∀ c, c ∈ new →
          ∃ id rule r, rules m !! id = Some rule ∧ heap w !! rule = Some r ∧
                       found_in (backend_ListRules (backend w)).1.1 r = false ∧
                       c = CallAddRule r) ∧
    match (backend_ListRules (backend w)).1.2 with
    | Some e =>
        new = [] ∧
        (sync m w).1 = Return (Some ("failed to list backend rules: " +:+ e))
    | None =>
        store_allocated m w →
        (sync m w).1 = Return None ∧
        ∀ id rule r, rules m !! id = Some rule → heap w !! rule = Some r →
                     found_in (backend_ListRules (backend w)).1.1 r = false →
                     CallAddRule r ∈ new
    end.
Proof.
  unfold issued_by_sync, sync, call_ListRules, backend_step.
  destruct (backend_ListRules (backend w)) as [[backendRules err] b]. cbn [fst snd].
  destruct err as [e|].
  - exists []. cbn [fst snd calls heap].
    rewrite drop_app_length. split; [done |]. split; [done |].
    split; [|done]. intros c Hc. by apply elem_of_nil in Hc.
  - set (w0 := mkWorld _ _ _ _ _ _ _ _).
    destruct (range_rules_spec m w0) as (_ & Hstored & Hheap0 & Hcalls0 & _).
    destruct (range_rules m w0) as [stored w1]. cbn [fst snd] in *.
    destruct (sync_loop_calls backendRules stored w1)
      as (new & Hcalls & Hheap & Honly & Hall).
    rewrite Hheap0 in *.
    assert (Hcalls' : calls (sync_loop backendRules stored w1).2
                      = calls w ++ (CallListRules, None) :: new).
    { rewrite Hcalls, Hcalls0. subst w0. cbn [calls]. by rewrite <- app_assoc. }
    exists new.*1.
    destruct (sync_loop backendRules stored w1) as [[[]|msg] w2];
      cbn [fst snd] in *; rewrite Hcalls', drop_app_length.
    all: split; [done |]; split; [by rewrite Hheap |]; split.
    all: try (intros c Hc; destruct (Honly c Hc) as (rule & r & Hin & Hr & Hnf & ->);
              apply Hstored in Hin as [id Hid]; by exists id, rule, r).
    + intros Halloc. split; [done |]. intros id rule r Hid Hr Hnf.
      apply Hall with rule; [|by apply Hstored; exists id | done | done].
      intros rule' [id' Hid']%Hstored. by eapply Halloc.
    + intros Halloc. destruct Hall as [Hret _]; [|done].
      intros rule' [id' Hid']%Hstored. by eapply Halloc.
Qed.

(** C5: one pass of the periodic sync lists the backend's rules and then
    only ever calls the backend's [AddRule]: never [DeleteRule], never
    [Flush].  When the listing succeeds, a stored rule is re-added if and
    only if no listed rule equals it, and the equality compares exactly
    chain, protocol, source, destination, both ports and action. *)
Theorem C5_sync_only_adds_missing_rules :
  (∀ m w c,
     c ∈ issued_by_sync m w →
     (c = CallListRules ∨ ∃ r, c = CallAddRule r) ∧
     (∀ r, c ≠ CallDeleteRule r) ∧ c ≠ CallFlush) ∧
  (∀ m w backendRules b',
     backend_ListRules (backend w) = ((backendRules, None), b') →
     store_allocated m w →
     (sync m w).1 = Return None ∧
     ∀ id rule r,
       rules m !! id = Some rule → heap w !! rule = Some r →
       (CallAddRule r ∈ issued_by_sync m w ↔
        ∀ b, b ∈ backendRules → rulesEqual r b = false)) ∧
  (∀ r1 r2,
     rulesEqual r1 r2 = true ↔
     Chain r1 = Chain r2 ∧ Protocol r1 = Protocol r2 ∧ Source r1 = Source r2 ∧
     Dest r1 = Dest r2 ∧ SPort r1 = SPort r2 ∧ DPort r1 = DPort r2 ∧
     Action r1 = Action r2).
Proof.
  split; [|split; [|apply rulesEqual_fields]].
  - intros m w c Hc.
    destruct (sync_issued m w) as (new & Hissued & _ & Honly & _).
    rewrite Hissued in Hc. apply elem_of_cons in Hc as [->|Hc].
    + split; [by left |]. done.
    + destruct (Honly c Hc) as (id & rule & r & _ & _ & _ & ->).
      split; [right; by exists r |]. done.
  - intros m w backendRules b' Hlist Halloc.
    destruct (sync_issued m w) as (new & Hissued & _ & Honly & Hall).
    rewrite Hlist in Honly, Hall. cbn [fst snd] in Honly, Hall.
    destruct (Hall Halloc) as [Hret Hcomplete].
    split; [done |]. intros id rule r Hid Hr.
    rewrite Hissued, <- found_in_false. split.
    + intros Hc. apply elem_of_cons in Hc as [?|Hc]; [done |].
      destruct (Honly _ Hc) as (id' & rule' & r' & _ & _ & Hnf & [= ->]). done.
    + intros Hnf. right. by eapply Hcomplete.
Qed.

End firewall.

Section firewall_runs.
Import Firewall.



Lemma C5_sync_only_adds_missing_rules_witness :
  (sync drifted.1 drifted.2).1 = Return None ∧
  issued_by_sync drifted.1 drifted.2 = [CallListRules; CallAddRule allow_web] ∧
  (CallAddRule allow_web ∈ issued_by_sync drifted.1 drifted.2 ↔
   ∀ b, b ∈ [listed_ssh] → rulesEqual allow_web b = false) ∧
  (CallAddRule allow_ssh ∈ issued_by_sync drifted.1 drifted.2 ↔
   ∀ b, b ∈ [listed_ssh] → rulesEqual allow_ssh b = false).
Proof.
  assert (Halloc : store_allocated drifted.1 drifted.2).
  { intros id rule Hid. apply elem_of_map_to_list in Hid.
    replace (map_to_list (rules drifted.1))
      with [("web", 2%positive); ("allow-ssh", 1%positive)] in Hid
      by (by vm_compute).
    apply elem_of_cons in Hid as [[= -> ->]|Hid]; [by eexists |].
    apply elem_of_cons in Hid as [[= -> ->]|Hid]; [by eexists |].
    by apply elem_of_nil in Hid. }
  assert (Hlist : backend_ListRules (backend drifted.2) =
                    (([listed_ssh], None), mkFakeBackend [listed_ssh] false))
    by reflexivity.
  destruct (proj1 (proj2 C5_sync_only_adds_missing_rules) drifted.1 drifted.2
              [listed_ssh] (mkFakeBackend [listed_ssh] false) Hlist Halloc)
    as [Hret Hiff].
  split; [exact Hret |]. split; [by vm_compute |]. split.
  - by apply (Hiff "web" 2%positive).
  - by apply (Hiff "allow-ssh" 1%positive).
Defined.

End firewall_runs.


(** ** Service registry manager *)

Section servicemesh.
Import ServiceMesh.
Context {D : Type} `{!Discovery D}.

Implicit Types (m : Manager) (w : World D) (s : Service) (service : ptr).

(** The effect of [RegisterService] on an allocated service. *)
Lemma RegisterService_allocated service m w s :
  heap w !! service = Some s →
  ∃ id registeredAt lastSeen err,
    id ≠ "" ∧
    (ID s ≠ "" → id = ID s) ∧
    heap (RegisterService service m w).2 =
      <[service := registered s id registeredAt lastSeen]> (heap w) ∧
    calls (RegisterService service m w).2 =
      calls w ++
      [(CallRegister (service, registered s id registeredAt lastSeen), err)] ∧
    match err with
    | None =>
        (RegisterService service m w).1 =
          (Return None, set_services (<[id := service]> (services m)) m)
    | Some e =>
        (RegisterService service m w).1 =
          (Return (Some ("failed to register service: " +:+ e)), m)
    end.
Proof.
  intros Hs. unfold RegisterService. rewrite Hs.
  destruct (decide (ID s = "")) as [Hid|Hid]; cbn.
  - exists (Name s +:+ "-" +:+ Sprintf_d (clock w (ticks w))),
      (clock w (S (ticks w))), (clock w (S (S (ticks w)))).
    destruct (Register _ _) as [[e|] d]; cbn;
      [exists (Some e) | exists None]; (split; [|done]).
    all: by destruct (Name s).
  - exists (ID s), (clock w (ticks w)), (clock w (S (ticks w))).
    destruct (Register _ _) as [[e|] d]; cbn;
      [exists (Some e) | exists None]; done.
Qed.

Lemma RegisterService_unallocated service m w :
  heap w !! service = None →
  RegisterService service m w = (Panic nil_dereference, m, w).
Proof. intros Hs. unfold RegisterService. by rewrite Hs. Qed.

(** *** Selection *)

Lemma RoundRobin_Select_member (candidates : list sref) (lb : RoundRobinLoadBalancer) :
  candidates ≠ [] →
  ∃ x, (RoundRobin_Select candidates lb).1 = (Some x, None) ∧ x ∈ candidates.
Proof.
  intros Hne. unfold RoundRobin_Select.
  destruct (decide (length candidates = 0)) as [Hl|_].
  { destruct candidates; [done | discriminate]. }
  destruct (RoundRobin_index_in_range candidates (wrap_uint64 (counter lb + 1)) Hne)
    as [x Hx].
  exists x. cbn. rewrite Hx. split; [done |]. by eapply list_elem_of_lookup_2.
Qed.

Lemma Random_Select_member (candidates : list sref) (rnd : Z) :
  candidates ≠ [] →
  ∃ x, Random_Select candidates rnd = (Some x, None) ∧ x ∈ candidates.
Proof.
  intros Hne. unfold Random_Select.
  destruct (decide (length candidates = 0)) as [Hl|_].
  { destruct candidates; [done | discriminate]. }
  destruct (RoundRobin_index_in_range candidates rnd Hne) as [x Hx].
  exists x. rewrite Hx. split; [done |]. by eapply list_elem_of_lookup_2.
Qed.

(** Whatever the strategy, the instance selected is one of the candidates. *)
Lemma LoadBalancer_Select_member (candidates : list sref) (rnd : Z) (lb : LoadBalancer) :
  candidates ≠ [] →
  ∃ x, (LoadBalancer_Select candidates rnd lb).1 = (Some x, None) ∧ x ∈ candidates.
Proof.
  intros Hne. destruct lb as [rr|lc| |]; cbn [LoadBalancer_Select].
  - destruct (RoundRobin_Select_member candidates rr Hne) as (x & Hx & Hin).
    destruct (RoundRobin_Select candidates rr). by exists x.
  - destruct (LeastConn_Select_cases candidates lc) as [[? _]|(x & Hin & Hx)]; [done |].
    rewrite Hx. by exists x.
  - by apply Random_Select_member.
  - by apply Random_Select_member.
Qed.

(** C4 (amended): when the discovery call succeeds, [SelectService] fails
    with a "no instances found" error if nothing was discovered, fails with
    a "no healthy instances" error if instances were discovered and none of
    them is Healthy, and otherwise returns what the configured load
    balancer selects among the Healthy instances, which is one of them; in
    both failures no instance is returned. *)
Theorem C4_SelectService_healthy_only
    (serviceName : string) m w (found : list sref) (d' : D) :
  Discover serviceName (heap w) (discovery w) = ((found, None), d') →
  (∀ x, x ∈ healthy_only found ↔ x ∈ found ∧ Status x.2 = StatusHealthy) ∧
  (found = [] →
   (SelectService serviceName m w).1 =
     ((None, Some ("no instances found for service: " +:+ serviceName)), m)) ∧
  (found ≠ [] → healthy_only found = [] →
   (SelectService serviceName m w).1 =
     ((None, Some ("no healthy instances found for service: " +:+ serviceName)), m)) ∧
  (healthy_only found ≠ [] →
   ∃ rnd x,
     (SelectService serviceName m w).1.1 =
       (LoadBalancer_Select (healthy_only found) rnd (loadBalance m)).1 ∧
     loadBalance (SelectService serviceName m w).1.2 =
       (LoadBalancer_Select (healthy_only found) rnd (loadBalance m)).2 ∧
     (SelectService serviceName m w).1.1 = (Some x, None) ∧
     x ∈ found ∧ Status x.2 = StatusHealthy).
Proof.
  intros Hfound.
  assert (Hmem : ∀ x, x ∈ healthy_only found ↔ x ∈ found ∧ Status x.2 = StatusHealthy).
  { intros x. unfold healthy_only. rewrite list_elem_of_filter. tauto. }
  split; [exact Hmem |].
  unfold SelectService, DiscoverService, call_Discover, backend_step.
  rewrite Hfound. cbn [fst snd].
  split; [|split].
  - intros ->. done.
  - intros Hne Hnone. rewrite Hnone.
    destruct (decide (length found = 0)) as [Hl|_];
      [destruct found; [done | discriminate] | done].
  - intros Hsome.
    assert (Hfne : found ≠ []) by (intros ->; by apply Hsome).
    destruct (decide (length found = 0)) as [Hl|_];
      [destruct found; [done | discriminate] |].
    destruct (decide (length (healthy_only found) = 0)) as [Hl|_];
      [destruct (healthy_only found); [done | discriminate] |].
    set (rnd := match loadBalance m with
                | Random | Weighted => rand w (draws w)
                | _ => 0%Z
                end).
    destruct (LoadBalancer_Select_member (healthy_only found) rnd (loadBalance m) Hsome)
      as (x & Hx & Hin).
    exists rnd, x. apply Hmem in Hin as [Hin Hst].
    destruct (loadBalance m) as [rr|lc| |] eqn:Hlb; subst rnd; cbn [rand_Int fst snd] in *;
      destruct (LoadBalancer_Select _ _ _) as [r lb']; cbn [fst snd] in *; done.
Qed.

(** *** Status after registration *)

Lemma UpdateServiceStatus_stored (serviceID : string) (status : ServiceStatus)
    m w service s :
  services m !! serviceID = Some service →
  heap w !! service = Some s →
  (UpdateServiceStatus serviceID status m w).1 = Return None ∧
  heap (UpdateServiceStatus serviceID status m w).2 =
    <[service := updated s status (clock w (ticks w))]> (heap w).
Proof.
  intros Hid Hs. unfold UpdateServiceStatus. rewrite Hid, Hs. done.
Qed.

(** The other methods of the manager do not write to a service. *)
Lemma deregister_all_heap (ps : list ptr) w :
  heap (deregister_all ps w).2 = heap w.
Proof.
  revert w. induction ps as [|p ps IH]; intros w; cbn [deregister_all]; [done |].
  destruct (heap w !! p) as [s|]; [|done].
  unfold call_Deregister, backend_step. cbn [fst snd]. by rewrite IH.
Qed.

Lemma reregister_all_heap (ps : list ptr) w :
  heap (reregister_all ps w).2 = heap w.
Proof.
  revert w. induction ps as [|p ps IH]; intros w; cbn [reregister_all]; [done |].
  destruct (heap w !! p) as [s|]; [|done].
  unfold call_Register, backend_step. cbn [fst snd]. by rewrite IH.
Qed.

Lemma DeregisterService_heap (serviceID : string) m w :
  heap (DeregisterService serviceID m w).2 = heap w.
Proof.
  unfold DeregisterService, call_Deregister, backend_step.
  destruct (services m !! serviceID); [|done].
  cbn. by destruct (Deregister _ _ _).1.
Qed.

Lemma SelectService_heap (serviceName : string) m w :
  heap (SelectService serviceName m w).2 = heap w.
Proof.
  unfold SelectService, DiscoverService, call_Discover, backend_step.
  destruct (Discover serviceName (heap w) (discovery w)) as [[found [e|]] d];
    cbn [fst snd]; [done |].
  destruct (decide (length found = 0)); [done |].
  destruct (decide (length (healthy_only found) = 0)); [done |].
  destruct (loadBalance m) as [rr|lc| |]; cbn [rand_Int];
    destruct (LoadBalancer_Select _ _ _); done.
Qed.

(** The range over the registry: the stored pointers in some order, and
    a world that differs in the count of the ranges only. *)
Lemma range_services_spec m w :
  (range_services m w).1 ≡ₚ (map_to_list (services m)).*2 ∧
  heap (range_services m w).2 = heap w ∧
  calls (range_services m w).2 = calls w ∧
  discovery (range_services m w).2 = discovery w ∧
  loops (range_services m w).2 = loops w.
Proof.
  unfold range_services. cbn [fst snd heap calls discovery loops].
  split; [by rewrite range_order_Permutation | done].
Qed.

Lemma syncDiscovery_heap m w : heap (syncDiscovery m w).2 = heap w.
Proof.
  unfold syncDiscovery.
  destruct (range_services_spec m w) as (_ & Hheap & _).
  destruct (range_services m w) as [stored w1]. cbn [fst snd] in *.
  by rewrite reregister_all_heap.
Qed.

Lemma Start_Stop_heap m w :
  heap (Start m w).2 = heap w ∧ heap (Stop m w).2 = heap w.
Proof.
  unfold Start, Stop, go_discoveryLoop. split.
  { destruct (running m); [done |]. by case_decide. }
  destruct (running m); cbn [negb]; [|done].
  destruct (range_services_spec (set_running false m) w) as (_ & Hheap0 & _).
  destruct (range_services (set_running false m) w) as [stored w0].
  cbn [fst snd] in *.
  pose proof (deregister_all_heap stored w0) as Hheap.
  destruct (deregister_all _ w0) as [[[]|msg] w1]; cbn [fst snd] in *;
    [|congruence].
  destruct (stopChan (set_running false m)); cbn [snd]; congruence.
Qed.

Lemma RegisterService_other service m w (p : ptr) :
  p ≠ service →
  heap (RegisterService service m w).2 !! p = heap w !! p.
Proof.
  intros Hp. destruct (heap w !! service) as [s|] eqn:Hs.
  - destruct (RegisterService_allocated service m w s Hs)
      as (id & t1 & t2 & err & _ & _ & Hheap & _).
    by rewrite Hheap, lookup_insert_ne.
  - by rewrite RegisterService_unallocated.
Qed.

(** C8 (amended): right after a successful [RegisterService] the status of
    the service is Unknown whether or not it carries a health-check
    specification, so [SelectService] does not count it among the healthy
    instances.  [UpdateServiceStatus] is what writes another status: the
    other methods do not write to a service, except [RegisterService] to
    the one it is given. *)
Theorem C8_registered_status_is_unknown :
  (∀ service m w s,
     heap w !! service = Some s →
     (RegisterService service m w).1.1 = Return None →
     ∃ s',
       heap (RegisterService service m w).2 !! service = Some s' ∧
       services (RegisterService service m w).1.2 !! ID s' = Some service ∧
       HealthCheck_ s' = HealthCheck_ s ∧
       Status s' = StatusUnknown ∧
       ∀ found, (service, s') ∉ healthy_only found) ∧
  (∀ serviceID status m w service s,
     services m !! serviceID = Some service →
     heap w !! service = Some s →
     (UpdateServiceStatus serviceID status m w).1 = Return None ∧
     ∃ s',
       heap (UpdateServiceStatus serviceID status m w).2 !! service = Some s' ∧
       Status s' = status) ∧
  (∀ m w (name : string) (other service : ptr),
     heap (SelectService name m w).2 = heap w ∧
     heap (DeregisterService name m w).2 = heap w ∧
     heap (syncDiscovery m w).2 = heap w ∧
     heap (Start m w).2 = heap w ∧
     heap (Stop m w).2 = heap w ∧
     (other ≠ service →
      heap (RegisterService other m w).2 !! service = heap w !! service)).
Proof.
  split; [|split].
  - intros service m w s Hs Hret.
    destruct (RegisterService_allocated service m w s Hs)
      as (id & t1 & t2 & err & _ & _ & Hheap & _ & Hres).
    destruct err as [e|]; rewrite Hres in *; [discriminate |].
    exists (registered s id t1 t2). cbn [fst snd services set_services registered ID].
    rewrite Hheap, !lookup_insert_eq.
    repeat split; try done.
    intros found [Hst _]%list_elem_of_filter. cbn in Hst. discriminate.
  - intros serviceID status m w service s Hid Hs.
    destruct (UpdateServiceStatus_stored serviceID status m w service s Hid Hs)
      as [Hret Hheap].
    split; [done |]. eexists. rewrite Hheap, lookup_insert_eq. done.
  - intros m w name other service.
    split; [apply SelectService_heap |].
    split; [apply DeregisterService_heap |].
    split; [apply syncDiscovery_heap |].
    split; [apply Start_Stop_heap |].
    split; [apply Start_Stop_heap |].
    intros Hne. by apply RegisterService_other.
Qed.

End servicemesh.

Section servicemesh_runs.
Import ServiceMesh.

(** C4, as stated, fails on a name for which nothing is discovered: the
    error is not the "no healthy instances" one. *)
Lemma C4_nothing_discovered :
  let st := SelectService "web" (NewManager "round_robin" (10 * Second)%Z)
              (world_of ∅ mkConsulDiscovery) in
  st.1.1 = (None, Some "no instances found for service: web") ∧
  st.1.1 ≠ (None, Some "no healthy instances found for service: web").
Proof. vm_compute. split; [done | discriminate]. Qed.

Lemma C4_SelectService_healthy_only_witness :
  ∃ rnd x,
    (SelectService "web" two_registered.1 two_registered.2).1.1 =
      (LoadBalancer_Select
         (healthy_only (Discover "web" (heap two_registered.2)
                          (discovery two_registered.2)).1.1)
         rnd (loadBalance two_registered.1)).1 ∧
    (SelectService "web" two_registered.1 two_registered.2).1.1 = (Some x, None) ∧
    ID x.2 = "S2".
Proof.
  assert (Hfound :
    Discover "web" (heap two_registered.2) (discovery two_registered.2) =
      (((Discover "web" (heap two_registered.2) (discovery two_registered.2)).1.1,
        None),
       discovery two_registered.2)) by reflexivity.
  destruct (C4_SelectService_healthy_only "web" two_registered.1 two_registered.2
              _ _ Hfound) as (_ & _ & _ & Hsel).
  destruct Hsel as (rnd & x & Hlb & _ & Hx & _ & _); [by vm_compute |].
  exists rnd, x. split; [exact Hlb |]. split; [exact Hx |].
  vm_compute in Hx. by injection Hx as <-.
Defined.

(** C8, as stated, fails: a service registered without a health-check
    specification is stored as Unknown and is not selected. *)
Lemma C8_no_health_check_stays_unknown :
  let st := RegisterService 1%positive (NewManager "round_robin" (10 * Second)%Z)
              (world_of {[1%positive := web1]} NewStaticDiscovery) in
  HealthCheck_ web1 = None ∧
  st.1.1 = Return None ∧
  Status <$> heap st.2 !! 1%positive = Some StatusUnknown ∧
  Status <$> heap st.2 !! 1%positive ≠ Some StatusHealthy ∧
  (SelectService "web" st.1.2 st.2).1.1 =
    (None, Some "no healthy instances found for service: web").
Proof. vm_compute. repeat split; congruence. Qed.

(** The same service is selected once [UpdateServiceStatus] has marked it
    healthy: the registry and the manager share the struct. *)
Example registered_then_healthy_is_selected :
  let st := RegisterService 1%positive (NewManager "round_robin" (10 * Second)%Z)
              (world_of {[1%positive := web1]} NewStaticDiscovery) in
  let w := (UpdateServiceStatus "S1" StatusHealthy st.1.2 st.2).2 in
  fst <$> (SelectService "web" st.1.2 w).1.1.1 = Some 1%positive.
Proof. by vm_compute. Qed.

Lemma C8_registered_status_is_unknown_witness :
  let st := RegisterService 2%positive (NewManager "round_robin" (10 * Second)%Z)
              (world_of {[2%positive := web2]} NewStaticDiscovery) in
  ∃ s',
    heap st.2 !! 2%positive = Some s' ∧
    services st.1.2 !! ID s' = Some 2%positive ∧
    is_Some (HealthCheck_ s') ∧
    Status s' = StatusUnknown.
Proof.
  destruct (proj1 C8_registered_status_is_unknown 2%positive
              (NewManager "round_robin" (10 * Second)%Z)
              (world_of {[2%positive := web2]} NewStaticDiscovery) web2)
    as (s' & Hs' & Hid & Hhc & Hst & _).
  - reflexivity.
  - reflexivity.
  - exists s'. split; [exact Hs' |]. split; [exact Hid |].
    split; [rewrite Hhc; by eexists | exact Hst].
Defined.

End servicemesh_runs.

(** ** Failed additions and lifecycle errors, for all managers *)

Lemma app_singleton_inv {A} (l : list A) (x y : A) :
  l ++ [x] = l ++ [y] → x = y.
Proof. intros H. apply app_inv_head in H. by injection H. Qed.

Lemma app_singleton_ne {A} (l : list A) (x : A) : l ≠ l ++ [x].
Proof.
  intros H. apply (f_equal length) in H. rewrite length_app in H. simpl in H. lia.
Qed.

(** C2 (amended): when the backend call made by [AddRule], respectively
    [RegisterService], fails, the operation returns an error that wraps
    the backend's and the manager is left as it was: nothing is inserted
    in its map.  The call has written to one struct, the one behind its
    argument, which it stamps before it calls the backend (the ID when
    there was none and the creation time of a rule; the ID, the status
    Unknown and the two time stamps of a service).  Hence every record of
    the store reads as before when the pointer handed over was not
    stored already. *)
Theorem C2_failed_add_stores_nothing :
  (∀ (B : Type) (HB : Firewall.Backend B) (rule : ptr) (m : Firewall.Manager)
     (w : Firewall.World B) (r : Firewall.Rule) (e : string),
     Firewall.calls (Firewall.AddRule rule m w).2 =
       Firewall.calls w ++ [(Firewall.CallAddRule r, Some e)] →
     (Firewall.AddRule rule m w).1 =
       (Return (Some ("failed to add rule: " +:+ e)), m) ∧
     Firewall.ListRules (Firewall.AddRule rule m w).1.2 ≡ₚ Firewall.ListRules m ∧
     Firewall.heap (Firewall.AddRule rule m w).2 = <[rule := r]> (Firewall.heap w) ∧
     (∃ r0, Firewall.heap w !! rule = Some r0 ∧
            r = Firewall.stamped r0 (Firewall.ID r) (Firewall.CreatedAt r) ∧
            (Firewall.ID r0 ≠ "" → Firewall.ID r = Firewall.ID r0)) ∧
     ((∀ id, Firewall.rules m !! id ≠ Some rule) →
      ∀ id p, Firewall.rules m !! id = Some p →
              Firewall.heap (Firewall.AddRule rule m w).2 !! p =
                Firewall.heap w !! p)) ∧
  (∀ (D : Type) (HD : ServiceMesh.Discovery D) (service : ptr)
     (m : ServiceMesh.Manager) (w : ServiceMesh.World D) (s : ServiceMesh.sref)
     (e : string),
     ServiceMesh.calls (ServiceMesh.RegisterService service m w).2 =
       ServiceMesh.calls w ++ [(ServiceMesh.CallRegister s, Some e)] →
     (ServiceMesh.RegisterService service m w).1 =
       (Return (Some ("failed to register service: " +:+ e)), m) ∧
     ServiceMesh.ListServices (ServiceMesh.RegisterService service m w).1.2 ≡ₚ
       ServiceMesh.ListServices m ∧
     s.1 = service ∧
     ServiceMesh.heap (ServiceMesh.RegisterService service m w).2 =
       <[service := s.2]> (ServiceMesh.heap w) ∧
     (∃ s0, ServiceMesh.heap w !! service = Some s0 ∧
            s.2 = ServiceMesh.registered s0 (ServiceMesh.ID s.2)
                    (ServiceMesh.RegisteredAt s.2) (ServiceMesh.LastSeen s.2) ∧
            (ServiceMesh.ID s0 ≠ "" → ServiceMesh.ID s.2 = ServiceMesh.ID s0)) ∧
     ((∀ id, ServiceMesh.services m !! id ≠ Some service) →
      ∀ id p, ServiceMesh.services m !! id = Some p →
              ServiceMesh.heap (ServiceMesh.RegisterService service m w).2 !! p =
                ServiceMesh.heap w !! p)).
Proof.
  split.
  - intros B HB rule m w r e Hcalls.
    destruct (Firewall.heap w !! rule) as [r0|] eqn:Hr.
    + destruct (AddRule_allocated rule m w r0 Hr)
        as (id & t & err & _ & Hid & Hheap & Hcalls' & Hres).
      rewrite Hcalls' in Hcalls. apply app_singleton_inv in Hcalls.
      injection Hcalls as <- ->. rewrite Hres. cbn [fst snd].
      split; [done |]. split; [done |]. split; [done |]. split.
      * exists r0. done.
      * intros Hfresh id' p Hp. rewrite Hheap, lookup_insert_ne; [done |].
        intros <-. by apply (Hfresh id').
    + rewrite AddRule_unallocated in Hcalls by done. cbn [snd] in Hcalls.
      by apply app_singleton_ne in Hcalls.
  - intros D HD service m w s e Hcalls.
    destruct (ServiceMesh.heap w !! service) as [s0|] eqn:Hs.
    + destruct (RegisterService_allocated service m w s0 Hs)
        as (id & t1 & t2 & err & _ & Hid & Hheap & Hcalls' & Hres).
      rewrite Hcalls' in Hcalls. apply app_singleton_inv in Hcalls.
      injection Hcalls as <- ->. rewrite Hres. cbn [fst snd].
      split; [done |]. split; [done |]. split; [done |]. split; [done |]. split.
      * exists s0. done.
      * intros Hfresh id' p Hp. rewrite Hheap, lookup_insert_ne; [done |].
        intros <-. by apply (Hfresh id').
    + rewrite RegisterService_unallocated in Hcalls by done. cbn [snd] in Hcalls.
      by apply app_singleton_ne in Hcalls.
Qed.

(** C2, as stated, fails when the pointer handed over is in the store
    already: the call that failed has rewritten the stored record.  A
    service reported healthy reads Unknown after the failed attempt to
    register it again, and a stored rule has a new creation time. *)
Lemma C2_failed_call_rewrites_stored_record :
  let m := {| ServiceMesh.interval := (10 * Second)%Z;
              ServiceMesh.loadBalance :=
                ServiceMesh.RoundRobin {| ServiceMesh.counter := 0 |};
              ServiceMesh.services := {["S1" := 1%positive]};
              ServiceMesh.stopChan := ChanOpen;
              ServiceMesh.running := true |} in
  let w := ServiceMesh.world_of {[1%positive := ServiceMesh.web1]}
             (ServiceMesh.mkFakeDiscovery ServiceMesh.NewStaticDiscovery true) in
  let st := ServiceMesh.RegisterService 1%positive m w in
  let fm := {| Firewall.config := Firewall.no_config;
               Firewall.rules := {["allow-ssh" := 1%positive]};
               Firewall.stopChan := ChanOpen;
               Firewall.running := true |} in
  let fw := Firewall.world_of {[1%positive := Firewall.allow_ssh]}
              (Firewall.mkFakeBackend [] true) in
  let fst_ := Firewall.AddRule 1%positive fm fw in
  (st.1 = (Return (Some "failed to register service: registry unreachable"), m) ∧
   ServiceMesh.GetService "S1" m = (Some 1%positive, None) ∧
   ServiceMesh.Status <$> ServiceMesh.heap w !! 1%positive =
     Some ServiceMesh.StatusHealthy ∧
   ServiceMesh.Status <$> ServiceMesh.heap st.2 !! 1%positive =
     Some ServiceMesh.StatusUnknown) ∧
  (fst_.1 = (Return (Some "failed to add rule: backend unavailable"), fm) ∧
   Firewall.GetRule "allow-ssh" fm = (Some 1%positive, None) ∧
   Firewall.CreatedAt <$> Firewall.heap fw !! 1%positive = Some 0%Z ∧
   Firewall.CreatedAt <$> Firewall.heap fst_.2 !! 1%positive =
     Some 1700000000000000000%Z).
Proof. by vm_compute. Qed.

Lemma C2_failed_add_stores_nothing_witness :
  (Firewall.AddRule 1%positive (Firewall.NewManager Firewall.no_config)
     (Firewall.world_of {[1%positive := Firewall.allow_web]}
        (Firewall.mkFakeBackend [] true))).1 =
    (Return (Some "failed to add rule: backend unavailable"),
     Firewall.NewManager Firewall.no_config) ∧
  (ServiceMesh.RegisterService 1%positive
     (ServiceMesh.NewManager "round_robin" (10 * Second)%Z)
     (ServiceMesh.world_of {[1%positive := ServiceMesh.web1]}
        (ServiceMesh.mkFakeDiscovery ServiceMesh.NewStaticDiscovery true))).1 =
    (Return (Some "failed to register service: registry unreachable"),
     ServiceMesh.NewManager "round_robin" (10 * Second)%Z).
Proof.
  split.
  - eapply (proj1 C2_failed_add_stores_nothing). vm_compute. reflexivity.
  - eapply (proj2 C2_failed_add_stores_nothing). vm_compute. reflexivity.
Defined.

(** C9: for each of the three managers, [Start] on a running manager fails
    with an "already running" error and [Stop] on a manager that is not
    running fails with a "not running" error, the second of two [Stop]s
    in a row included; the manager and everything it acts on are left as
    they were. *)
Theorem C9_lifecycle_errors :
  (∀ (B : Type) (HB : Firewall.Backend B) (m : Firewall.Manager) (w : Firewall.World B),
     (Firewall.running m = true →
      Firewall.Start m w =
        (Return (Some "firewall manager is already running"), m, w)) ∧
     (Firewall.running m = false →
      Firewall.Stop m w =
        (Return (Some "firewall manager is not running"), m, w)) ∧
     (∀ m' w', Firewall.Stop m w = (Return None, m', w') →
               Firewall.Stop m' w' =
                 (Return (Some "firewall manager is not running"), m', w'))) ∧
  (∀ (D : Type) (HD : ServiceMesh.Discovery D) (m : ServiceMesh.Manager)
     (w : ServiceMesh.World D),
     (ServiceMesh.running m = true →
      ServiceMesh.Start m w =
        (Return (Some "service mesh manager is already running"), m, w)) ∧
     (ServiceMesh.running m = false →
      ServiceMesh.Stop m w =
        (Return (Some "service mesh manager is not running"), m, w)) ∧
     (∀ m' w', ServiceMesh.Stop m w = (Return None, m', w') →
               ServiceMesh.Stop m' w' =
                 (Return (Some "service mesh manager is not running"), m', w'))) ∧
  (∀ (c : Health.Checker) (w : Health.World),
     (Health.running c = true →
      Health.Start c w =
        (Return (Some "health checker is already running"), c, w)) ∧
     (Health.running c = false →
      Health.Stop c w =
        (Return (Some "health checker is not running"), c, w)) ∧
     (∀ c' w', Health.Stop c w = (Return None, c', w') →
               Health.Stop c' w' =
                 (Return (Some "health checker is not running"), c', w'))).
Proof.
  split; [|split].
  - intros B HB m w. split; [|split].
    + intros Hr. unfold Firewall.Start. by rewrite Hr.
    + intros Hr. unfold Firewall.Stop. by rewrite Hr.
    + intros m' w'. unfold Firewall.Stop.
      destruct (Firewall.running m); cbn; [|discriminate].
      destruct (Firewall.stopChan m); [|discriminate].
      by intros [= <- <-].
  - intros D HD m w. split; [|split].
    + intros Hr. unfold ServiceMesh.Start. by rewrite Hr.
    + intros Hr. unfold ServiceMesh.Stop. by rewrite Hr.
    + intros m' w'. unfold ServiceMesh.Stop.
      destruct (ServiceMesh.running m); cbn [negb]; [|discriminate].
      destruct (ServiceMesh.range_services _ _) as [stored w0].
      destruct (ServiceMesh.deregister_all _ _) as [[[]|msg] w1]; [|discriminate].
      cbn. destruct (ServiceMesh.stopChan m); [|discriminate].
      by intros [= <- <-].
  - intros c w. split; [|split].
    + intros Hr. unfold Health.Start. by rewrite Hr.
    + intros Hr. unfold Health.Stop. by rewrite Hr.
    + intros c' w'. unfold Health.Stop.
      destruct (Health.running c); cbn; [|discriminate].
      destruct (Health.stopChan c); [|discriminate].
      by intros [= <- <-].
Qed.

Lemma C9_lifecycle_errors_witness :
  let fw := Firewall.Start (Firewall.NewManager Firewall.no_config)
              (Firewall.world_of ∅ Firewall.mkNFTablesBackend) in
  let sm := ServiceMesh.Start (ServiceMesh.NewManager "round_robin" (10 * Second)%Z)
              (ServiceMesh.world_of ∅ ServiceMesh.NewStaticDiscovery) in
  let hc := Health.Start Health.NewChecker Health.new_world in
  Firewall.Start fw.1.2 fw.2 =
    (Return (Some "firewall manager is already running"), fw.1.2, fw.2) ∧
  ServiceMesh.Stop (ServiceMesh.NewManager "round_robin" (10 * Second)%Z)
      (ServiceMesh.world_of ∅ ServiceMesh.NewStaticDiscovery) =
    (Return (Some "service mesh manager is not running"),
     ServiceMesh.NewManager "round_robin" (10 * Second)%Z,
     ServiceMesh.world_of ∅ ServiceMesh.NewStaticDiscovery) ∧
  ServiceMesh.Start sm.1.2 sm.2 =
    (Return (Some "service mesh manager is already running"), sm.1.2, sm.2) ∧
  Health.Start hc.1.2 hc.2 =
    (Return (Some "health checker is already running"), hc.1.2, hc.2) ∧
  Health.Stop (Health.Stop hc.1.2 hc.2).1.2 (Health.Stop hc.1.2 hc.2).2 =
    (Return (Some "health checker is not running"),
     (Health.Stop hc.1.2 hc.2).1.2, (Health.Stop hc.1.2 hc.2).2).
Proof.
  intros fw sm hc. split; [|split; [|split; [|split]]].
  - exact (proj1 (proj1 C9_lifecycle_errors _ _ fw.1.2 fw.2) eq_refl).
  - exact (proj1 (proj2 (proj1 (proj2 C9_lifecycle_errors) _ _
                           (ServiceMesh.NewManager "round_robin" (10 * Second)%Z)
                           (ServiceMesh.world_of ∅ ServiceMesh.NewStaticDiscovery)))
             eq_refl).
  - exact (proj1 (proj1 (proj2 C9_lifecycle_errors) _ _ sm.1.2 sm.2) eq_refl).
  - exact (proj1 (proj2 (proj2 C9_lifecycle_errors) hc.1.2 hc.2) eq_refl).
  - exact (proj2 (proj2 (proj2 (proj2 C9_lifecycle_errors) hc.1.2 hc.2))
             _ _ eq_refl).
Defined.

(** * Further properties of the code *)

(** ** The iptables backend *)

Section iptables.
Import Firewall.

(** An optional part [flag value] of a rule specification can be read
    back when what follows does not begin with the same flag. *)
Lemma optional_part_inj (flag v v' : string) (rest rest' : list string) :
  head rest ≠ Some flag → head rest' ≠ Some flag →
  (if decide (v = "") then [] else [flag; v]) ++ rest =
  (if decide (v' = "") then [] else [flag; v']) ++ rest' →
  v = v' ∧ rest = rest'.
Proof.
  intros Hrest Hrest'. repeat case_decide; cbn; intros Heq.
  - split; congruence.
  - subst rest. by destruct Hrest.
  - subst rest'. by destruct Hrest'.
  - by simplify_eq.
Qed.

(** The specification as the sequence of its parts. *)
Lemma buildRuleSpec_parts (r : Rule) :
  buildRuleSpec r =
  (if decide (Protocol r = "") then [] else ["-p"; Protocol r]) ++
  (if decide (Source r = "") then [] else ["-s"; Source r]) ++
  (if decide (Dest r = "") then [] else ["-d"; Dest r]) ++
  (if decide (SPort r = "") then [] else ["--sport"; SPort r]) ++
  (if decide (DPort r = "") then [] else ["--dport"; DPort r]) ++
  (if decide (Comment r = "") then []
   else ["-m"; "comment"; "--comment"; Comment r]) ++
  ["-j"; Action r].
Proof. unfold buildRuleSpec. by repeat case_decide. Qed.

Lemma buildRuleSpec_fields (r1 r2 : Rule) :
  buildRuleSpec r1 = buildRuleSpec r2 ↔
  Protocol r1 = Protocol r2 ∧ Source r1 = Source r2 ∧ Dest r1 = Dest r2 ∧
  SPort r1 = SPort r2 ∧ DPort r1 = DPort r2 ∧ Comment r1 = Comment r2 ∧
  Action r1 = Action r2.
Proof.
  split.
  - rewrite !buildRuleSpec_parts. intros H.
    apply optional_part_inj in H as [H1 H];
      [| clear; repeat case_decide; cbn; discriminate ..].
    apply optional_part_inj in H as [H2 H];
      [| clear; repeat case_decide; cbn; discriminate ..].
    apply optional_part_inj in H as [H3 H];
      [| clear; repeat case_decide; cbn; discriminate ..].
    apply optional_part_inj in H as [H4 H];
      [| clear; repeat case_decide; cbn; discriminate ..].
    apply optional_part_inj in H as [H5 H];
      [| clear; repeat case_decide; cbn; discriminate ..].
    repeat case_decide; simplify_eq/=; repeat split; congruence.
  - intros (H1 & H2 & H3 & H4 & H5 & H6 & H7). unfold buildRuleSpec.
    by rewrite H1, H2, H3, H4, H5, H6, H7.
Qed.


(** X1: the command that the iptables backend issues for a rule.  The
    specification determines, and is determined by, protocol, source,
    destination, both ports, comment and action (ID, chain and time stamp
    never enter it).  Hence two rules address the same entry of the filter
    table (same chain, same specification) exactly when [rulesEqual] holds
    of them and their comments agree as well: the comparison made by the
    periodic sync is coarser than the identity used by [AppendUnique] and
    [Delete] by the comment alone. *)
Theorem buildRuleSpec_identifies (r1 r2 : Rule) :
  (buildRuleSpec r1 = buildRuleSpec r2 ↔
   Protocol r1 = Protocol r2 ∧ Source r1 = Source r2 ∧ Dest r1 = Dest r2 ∧
   SPort r1 = SPort r2 ∧ DPort r1 = DPort r2 ∧ Comment r1 = Comment r2 ∧
   Action r1 = Action r2) ∧
  ((Chain r1 = Chain r2 ∧ buildRuleSpec r1 = buildRuleSpec r2) ↔
   (rulesEqual r1 r2 = true ∧ Comment r1 = Comment r2)).
Proof.
  split; [apply buildRuleSpec_fields |].
  rewrite buildRuleSpec_fields, rulesEqual_fields. tauto.
Qed.

Context {I : Type} `{!IPTables I}.

(** X2: [Flush] of the manager over the iptables backend.  The chains
    INPUT, FORWARD and OUTPUT of the filter table are cleared in this
    order and the first failure ends the call: the chains before it have
    been cleared, those after it are not touched, and the manager keeps
    every stored rule.  Only when all three calls succeed is the store
    emptied. *)
Theorem Flush_iptables_stops_at_first_failure
    (m : Manager) (w : World (IPTablesBackend I)) :
  let clear chain := CallClearChain "filter" chain in
  let issued :=
    drop (length (ipt_calls (backend w))) (ipt_calls (backend (Flush m w).2)) in
  heap (Flush m w).2 = heap w ∧
  ((∃ e, issued = [(clear "INPUT", Some e)] ∧
         (Flush m w).1 =
           (Some ("failed to flush rules: failed to clear chain INPUT: " +:+ e), m)) ∨
   (∃ e, issued = [(clear "INPUT", None); (clear "FORWARD", Some e)] ∧
         (Flush m w).1 =
           (Some ("failed to flush rules: failed to clear chain FORWARD: " +:+ e), m)) ∨
   (∃ e, issued = [(clear "INPUT", None); (clear "FORWARD", None);
                   (clear "OUTPUT", Some e)] ∧
         (Flush m w).1 =
           (Some ("failed to flush rules: failed to clear chain OUTPUT: " +:+ e), m)) ∨
   (issued = [(clear "INPUT", None); (clear "FORWARD", None);
              (clear "OUTPUT", None)] ∧
    (Flush m w).1 = (None, set_rules ∅ m))).
Proof.
  intros clear issued. subst issued clear.
  unfold Flush, call_Flush, backend_step.
  cbn [backend_Flush IPTablesBackend_Backend].
  unfold IPTables_Flush, IPTables_Flush_loop, ipt_step.
  destruct (ipt_ClearChain "filter" "INPUT" _) as [[e1|] i1]; cbn.
  { split; [done |]. left. exists e1. by rewrite drop_app_length. }
  destruct (ipt_ClearChain "filter" "FORWARD" _) as [[e2|] i2]; cbn.
  { split; [done |]. right; left. exists e2.
    by rewrite <- app_assoc, drop_app_length. }
  destruct (ipt_ClearChain "filter" "OUTPUT" _) as [[e3|] i3]; cbn.
  { split; [done |]. right; right; left. exists e3.
    by rewrite <- !app_assoc, drop_app_length. }
  split; [done |]. right; right; right.
  by rewrite <- !app_assoc, drop_app_length.
Qed.

End iptables.

(** ** The firewall manager over any backend *)

Section firewall_more.
Import Firewall.
Context {B : Type} `{!Backend B}.

Implicit Types (m : Manager) (w : World B) (r : Rule) (rule : ptr).

(** [setDefaultPolicies] writes no struct and starts no loop. *)
Lemma setDefaultPolicies_frame m w :
  heap (setDefaultPolicies m w).2 = heap w ∧
  loops (setDefaultPolicies m w).2 = loops w.
Proof.
  unfold setDefaultPolicies, setDefaultPolicies_loop, call_SetDefaultPolicy,
    backend_step.
  generalize (if decide (DefaultPolicy (config m) = "deny")
              then "DROP" else "ACCEPT").
  intros policy.
  destruct (backend_SetDefaultPolicy "INPUT" policy _) as [[e1|] b1]; cbn;
    [done |].
  destruct (backend_SetDefaultPolicy "FORWARD" policy _) as [[e2|] b2]; cbn;
    [done |].
  by destruct (backend_SetDefaultPolicy "OUTPUT" policy _) as [[e3|] b3].
Qed.

(** X3: [setDefaultPolicies].  The policy is DROP exactly when the
    configured default policy is the string "deny" and ACCEPT for every
    other value; it is set on INPUT, FORWARD and OUTPUT in this order, and
    the first failure ends the call with the chains after it left as they
    were.  No struct is written. *)
Theorem setDefaultPolicies_first_failure m w :
  let policy :=
    if decide (DefaultPolicy (config m) = "deny") then "DROP" else "ACCEPT" in
  let set chain := CallSetDefaultPolicy chain policy in
  let issued := drop (length (calls w)) (calls (setDefaultPolicies m w).2) in
  heap (setDefaultPolicies m w).2 = heap w ∧
  loops (setDefaultPolicies m w).2 = loops w ∧
  ((∃ e, issued = [(set "INPUT", Some e)] ∧
         (setDefaultPolicies m w).1 =
           Some ("failed to set default policy for INPUT: " +:+ e)) ∨
   (∃ e, issued = [(set "INPUT", None); (set "FORWARD", Some e)] ∧
         (setDefaultPolicies m w).1 =
           Some ("failed to set default policy for FORWARD: " +:+ e)) ∨
   (∃ e, issued = [(set "INPUT", None); (set "FORWARD", None);
                   (set "OUTPUT", Some e)] ∧
         (setDefaultPolicies m w).1 =
           Some ("failed to set default policy for OUTPUT: " +:+ e)) ∨
   (issued = [(set "INPUT", None); (set "FORWARD", None); (set "OUTPUT", None)] ∧
    (setDefaultPolicies m w).1 = None)).
Proof.
  intros policy set issued. subst issued set.
  unfold setDefaultPolicies, setDefaultPolicies_loop, call_SetDefaultPolicy,
    backend_step.
  fold policy. generalize policy. clear policy. intros policy.
  destruct (backend_SetDefaultPolicy "INPUT" policy _) as [[e1|] b1]; cbn.
  { split; [done |]. split; [done |]. left. exists e1. by rewrite drop_app_length. }
  destruct (backend_SetDefaultPolicy "FORWARD" policy _) as [[e2|] b2]; cbn.
  { split; [done |]. split; [done |]. right; left. exists e2.
    by rewrite <- app_assoc, drop_app_length. }
  destruct (backend_SetDefaultPolicy "OUTPUT" policy _) as [[e3|] b3]; cbn.
  { split; [done |]. split; [done |]. right; right; left. exists e3.
    by rewrite <- !app_assoc, drop_app_length. }
  split; [done |]. split; [done |]. right; right; right.
  by rewrite <- !app_assoc, drop_app_length.
Qed.

(** [AddRule] on a rule that comes without an ID. *)
Lemma AddRule_unnamed rule m w r :
  heap w !! rule = Some r → ID r = "" →
  let id := "rule-" +:+ Sprintf_d (clock w (ticks w)) in
  let r' := stamped r id (clock w (S (ticks w))) in
  let res := backend_AddRule r' (backend w) in
  AddRule rule m w =
    (match res.1 with
     | Some e => Return (Some ("failed to add rule: " +:+ e))
     | None => Return None
     end,
     match res.1 with
     | Some _ => m
     | None => set_rules (<[id := rule]> (rules m)) m
     end,
     mkWorld (<[rule := r']> (heap w)) res.2
       (calls w ++ [(CallAddRule r', res.1)]) (clock w) (S (S (ticks w)))
       (order w) (ranges w) (loops w)).
Proof.
  intros Hr Hid. unfold AddRule. rewrite Hr.
  destruct (decide (ID r = "")) as [_|Hne]; [|done]. cbn.
  by destruct (backend_AddRule _ _) as [[e|] b].
Qed.

(** [loadConfigRules]: one [AddRule] for each configured rule. *)
Lemma loadConfigRules_loop_spec (cfgRules : list FirewallRule) m w :
  ∃ m' w' new,
    loadConfigRules_loop cfgRules m w = (Return None, m', w') ∧
    config m' = config m ∧ stopChan m' = stopChan m ∧ running m' = running m ∧
    loops w' = loops w ∧ clock w' = clock w ∧
    ticks w' = ticks w + 2 * length cfgRules ∧
    heap w ⊆ heap w' ∧
    dom (rules m) ⊆ dom (rules m') ∧
    calls w' = calls w ++ new ∧
    Forall2 (λ call c,
               ∃ t t', call.1 = CallAddRule
                         (stamped (rule_of_config c) ("rule-" +:+ Sprintf_d t) t'))
            new cfgRules.
Proof.
  revert m w. induction cfgRules as [|c cfgRules IH]; intros m w.
  - exists m, w, []. cbn. rewrite app_nil_r.
    repeat split; first [done | cbn; lia | constructor].
  - cbn [loadConfigRules_loop]. unfold alloc.
    set (p := fresh (dom (heap w))).
    assert (Hp : heap w !! p = None).
    { apply not_elem_of_dom. apply is_fresh. }
    set (w1 := set_heap (<[p := rule_of_config c]> (heap w)) w).
    assert (Hp1 : heap w1 !! p = Some (rule_of_config c)).
    { subst w1. cbn. by rewrite lookup_insert_eq. }
    rewrite (AddRule_unnamed p m w1 _ Hp1 eq_refl). cbn zeta.
    set (id := "rule-" +:+ Sprintf_d (clock w1 (ticks w1))).
    set (r' := stamped (rule_of_config c) id (clock w1 (S (ticks w1)))).
    destruct (backend_AddRule r' (backend w1)) as [err b1]. cbn [fst snd].
    set (m1 := match err with Some _ => m | None => _ end).
    set (w2 := mkWorld _ _ _ _ _ _ _ _).
    assert (Hm1 : config m1 = config m ∧ stopChan m1 = stopChan m ∧
                  running m1 = running m ∧ dom (rules m) ⊆ dom (rules m1)).
    { subst m1. destruct err; cbn; repeat split; try done.
      rewrite dom_insert. set_solver. }
    destruct Hm1 as (Hc1 & Hs1 & Hr1 & Hd1).
    destruct (IH m1 w2)
      as (m' & w' & new & Hres & Hc & Hs & Hr & Hl & Hck & Ht & Hh & Hd & Hcalls & Hall).
    assert (Hret : match err with
                   | Some e => Return (Some ("failed to add rule: " +:+ e))
                   | None => Return None
                   end = Return (match err with
                                 | Some e => Some ("failed to add rule: " +:+ e)
                                 | None => None
                                 end) :> result error).
    { by destruct err. }
    rewrite Hret, Hres.
    exists m', w', ((CallAddRule r', err) :: new).
    split; [done |]. split; [congruence |]. split; [congruence |].
    split; [congruence |]. split; [by rewrite Hl |]. split; [by rewrite Hck |].
    split; [rewrite Ht; subst w2 w1; cbn; lia |].
    split.
    { etrans; [|exact Hh]. subst w2 w1. cbn.
      rewrite insert_insert_eq. by apply insert_subseteq. }
    split; [set_solver |].
    split; [rewrite Hcalls; subst w2 w1; cbn; by rewrite <- app_assoc |].
    constructor; [|done]. cbn. by eexists _, _.
Qed.

(** X4: [Start] does not notice configured rules that could not be
    installed.  With a sync interval that is positive, so that the sync
    loop can start, and once the three policy calls have succeeded,
    [Start] returns [nil], marks the manager running and starts one sync
    loop, whatever the backend answers to the [AddRule] calls: it issues
    one [AddRule] for each configured rule, in the order of the
    configuration, for a new rule with the configured fields and a
    generated ID, and a call that fails is skipped.  The structs already
    on the heap and the IDs already stored are kept. *)
Theorem Start_ignores_failed_config_rules m w :
  running m = false →
  (0 < SyncInterval (config m))%Z →
  (setDefaultPolicies m w).1 = None →
  ∃ new,
    (Start m w).1.1 = Return None ∧
    running (Start m w).1.2 = true ∧
    loops (Start m w).2 = S (loops w) ∧
    calls (Start m w).2 = calls (setDefaultPolicies m w).2 ++ new ∧
    Forall2 (λ call c,
               ∃ t t', call.1 = CallAddRule
                         (stamped (rule_of_config c) ("rule-" +:+ Sprintf_d t) t'))
            new (Rules (config m)) ∧
    heap w ⊆ heap (Start m w).2 ∧
    dom (rules m) ⊆ dom (rules (Start m w).1.2).
Proof.
  intros Hrun Hpos Hpol. unfold Start. rewrite Hrun.
  change (setDefaultPolicies (set_running true m) w) with (setDefaultPolicies m w).
  destruct (setDefaultPolicies_frame m w) as (Hheap & Hloops).
  destruct (setDefaultPolicies m w) as [err w1]. cbn [fst snd] in *. subst err.
  unfold loadConfigRules.
  destruct (loadConfigRules_loop_spec (Rules (config (set_running true m)))
              (set_running true m) w1)
    as (m' & w' & new & Hres & Hc & Hs & Hr & Hl & Hck & Ht & Hh & Hd & Hcalls & Hall).
  rewrite Hres. unfold go_syncLoop. rewrite Hc. cbn [config set_running].
  destruct (decide (SyncInterval (config m) ≤ 0)%Z) as [?|_]; [lia |].
  cbn [fst snd]. exists new.
  split; [done |]. split; [by rewrite Hr |].
  split; [cbn; by rewrite Hl, Hloops |].
  split; [done |]. split; [done |]. split; [by rewrite <- Hheap |]. done.
Qed.

(** X5: a [Start] that fails keeps the manager marked as running.  When a
    policy call fails, [Start] returns that error after it has set the
    flag: no rule is loaded, no sync loop is started, and a second [Start]
    is rejected as already running. *)
Theorem Start_failure_stays_running m w e :
  running m = false →
  (setDefaultPolicies m w).1 = Some e →
  (Start m w).1.1 = Return (Some ("failed to set default policies: " +:+ e)) ∧
  (Start m w).1.2 = set_running true m ∧
  heap (Start m w).2 = heap w ∧
  loops (Start m w).2 = loops w ∧
  (Start (Start m w).1.2 (Start m w).2).1.1 =
    Return (Some "firewall manager is already running").
Proof.
  intros Hrun Hpol. unfold Start at 1 2 3 4. unfold Start at 2 3. rewrite Hrun.
  change (setDefaultPolicies (set_running true m) w) with (setDefaultPolicies m w).
  destruct (setDefaultPolicies_frame m w) as (Hheap & Hloops).
  destruct (setDefaultPolicies m w) as [err w1]. cbn [fst snd] in *. subst err.
  cbn [fst snd]. split; [done |]. split; [done |]. split; [done |].
  split; [done |]. done.
Qed.

(** The pass of [sync] over the stored rules when the backend listed
    nothing: every stored rule is handed to [AddRule]. *)
Lemma sync_loop_nothing_listed (stored : list ptr) w :
  (∀ rule, rule ∈ stored → is_Some (heap w !! rule)) →
  (sync_loop [] stored w).1 = Return () ∧
  heap (sync_loop [] stored w).2 = heap w ∧
  ∃ new,
    calls (sync_loop [] stored w).2 = calls w ++ new ∧
    new.*1 = CallAddRule <$> omap (λ rule, heap w !! rule) stored.
Proof.
  revert w. induction stored as [|rule stored IH]; intros w Halloc.
  - cbn. split; [done |]. split; [done |]. exists []. by rewrite app_nil_r.
  - cbn [sync_loop]. destruct (Halloc rule) as [r Hr]; [by left |].
    rewrite Hr. cbn [found_in existsb].
    unfold call_AddRule, backend_step.
    set (w1 := mkWorld _ _ _ _ _ _ _ _).
    destruct (IH w1) as (Hret & Hheap & new & Hcalls & Hnew).
    { intros rule' Hin. apply Halloc. by right. }
    split; [done |]. split; [done |].
    exists ((CallAddRule r, (backend_AddRule r (backend w)).1) :: new).
    split; [rewrite Hcalls; subst w1; cbn; by rewrite <- app_assoc |].
    cbn [omap list_omap]. rewrite Hr. rewrite fmap_cons. cbn [fst].
    by rewrite Hnew.
Qed.

Lemma sync_nothing_listed m w b' :
  backend_ListRules (backend w) = (([], None), b') →
  store_allocated m w →
  (sync m w).1 = Return None ∧
  heap (sync m w).2 = heap w ∧
  ∃ readded,
    issued_by_sync m w = CallListRules :: (CallAddRule <$> readded) ∧
    readded ≡ₚ omap (λ rule, heap w !! rule) (ListRules m).
Proof.
  intros Hlist Halloc. unfold issued_by_sync, sync, call_ListRules, backend_step.
  rewrite Hlist. cbn [fst snd].
  set (w0 := mkWorld _ _ _ _ _ _ _ _).
  destruct (range_rules_spec m w0) as (Hperm & Hstored & Hheap0 & Hcalls0 & _).
  destruct (range_rules m w0) as [stored w1]. cbn [fst snd] in *.
  destruct (sync_loop_nothing_listed stored w1)
    as (Hret & Hheap & new & Hcalls & Hnew).
  { intros rule [id Hid]%Hstored. rewrite Hheap0. by eapply Halloc. }
  destruct (sync_loop [] stored w1) as [res w2].
  cbn [fst snd] in *. subst res. cbn [fst snd].
  split; [done |]. split; [by rewrite Hheap, Hheap0 |].
  exists (omap (λ rule, heap w !! rule) stored). split.
  - rewrite Hcalls, Hcalls0. subst w0. cbn [calls].
    rewrite <- app_assoc, drop_app_length. cbn. by rewrite Hnew, Hheap0.
  - unfold ListRules. by rewrite Hperm.
Qed.

(** X7: adding a rule and deleting it again.  After an [AddRule] that
    returned [nil] the rule passed in carries a non-empty ID (its own if
    it had one), [GetRule] on that ID returns the very pointer passed in,
    and [DeleteRule] on that ID hands the backend the same rule that
    [AddRule] handed it.  If that call succeeds the ID is no longer found
    and, unless it was stored before the addition, the store is what it
    was; if it fails the rule stays stored. *)
Theorem AddRule_then_DeleteRule rule m w r :
  heap w !! rule = Some r →
  (AddRule rule m w).1.1 = Return None →
  ∃ r' err,
    let m1 := (AddRule rule m w).1.2 in
    let w1 := (AddRule rule m w).2 in
    heap w1 !! rule = Some r' ∧ ID r' ≠ "" ∧ (ID r ≠ "" → ID r' = ID r) ∧
    GetRule (ID r') m1 = (Some rule, None) ∧
    calls (DeleteRule (ID r') m1 w1).2 =
      calls w ++ [(CallAddRule r', None); (CallDeleteRule r', err)] ∧
    heap (DeleteRule (ID r') m1 w1).2 = heap w1 ∧
    match err with
    | None =>
        (DeleteRule (ID r') m1 w1).1.1 = Return None ∧
        GetRule (ID r') (DeleteRule (ID r') m1 w1).1.2 =
          (None, Some ("rule not found: " +:+ ID r')) ∧
        (rules m !! ID r' = None →
         rules (DeleteRule (ID r') m1 w1).1.2 = rules m)
    | Some e =>
        (DeleteRule (ID r') m1 w1).1 =
          (Return (Some ("failed to delete rule: " +:+ e)), m1)
    end.
Proof.
  intros Hr Hok.
  destruct (AddRule_allocated rule m w r Hr)
    as (id & t & err & Hid & Hkeep & Hheap & Hcalls & Hres).
  destruct err as [e|]; [rewrite Hres in Hok; discriminate |].
  destruct (AddRule rule m w) as [[res m1] w1]. cbn [fst snd] in *.
  injection Hres as -> ->.
  assert (Hstored : rules (set_rules (<[id := rule]> (rules m)) m) !! id = Some rule).
  { cbn. by rewrite lookup_insert_eq. }
  assert (Hr1 : heap w1 !! rule = Some (stamped r id t)).
  { by rewrite Hheap, lookup_insert_eq. }
  destruct (DeleteRule_cases id (set_rules (<[id := rule]> (rules m)) m) w1)
    as [[Hnone _]|[(rule' & Hrule' & Hnone & _)|
                   (rule' & r' & err & Hrule' & Hr' & Hheap' & Hcalls' & Hres')]].
  { congruence. }
  { rewrite Hstored in Hrule'. injection Hrule' as <-. congruence. }
  rewrite Hstored in Hrule'. injection Hrule' as <-.
  rewrite Hr1 in Hr'. injection Hr' as <-.
  exists (stamped r id t), err. cbn [ID stamped].
  split; [done |]. split; [done |]. split; [done |].
  split; [unfold GetRule; by rewrite Hstored |].
  split; [by rewrite Hcalls', Hcalls, <- app_assoc |].
  split; [done |].
  destruct err as [e|]; [done |].
  rewrite Hres'. cbn [fst snd]. split; [done |].
  split.
  - unfold GetRule. cbn. by rewrite lookup_delete_eq.
  - intros Hfresh. cbn. by rewrite delete_insert_id.
Qed.

(** [Start] on a manager that is not running sets the flag and leaves
    the channel and the configuration as they were.  It fails on the
    policies only, and it returns [nil] unless the sync loop cannot start
    for want of a positive interval. *)
Lemma Start_marks_running m w :
  running m = false →
  ((∃ e, (Start m w).1.1 =
           Return (Some ("failed to set default policies: " +:+ e))) ∨
   ((0 < SyncInterval (config m))%Z ∧ (Start m w).1.1 = Return None) ∨
   ((SyncInterval (config m) ≤ 0)%Z ∧ (Start m w).1.1 = Panic NewTicker_panic)) ∧
  running (Start m w).1.2 = true ∧
  stopChan (Start m w).1.2 = stopChan m ∧
  config (Start m w).1.2 = config m.
Proof.
  intros Hrun. unfold Start. rewrite Hrun.
  destruct (setDefaultPolicies (set_running true m) w) as [[e|] w1].
  { split; [|done]. left. by eexists. }
  unfold loadConfigRules.
  destruct (loadConfigRules_loop_spec (Rules (config (set_running true m)))
              (set_running true m) w1)
    as (m' & w' & new & Hres & Hc & Hs & Hr & _).
  rewrite Hres. unfold go_syncLoop. rewrite Hc. cbn [config set_running].
  destruct (decide (SyncInterval (config m) ≤ 0)%Z) as [Hi|Hi]; cbn [fst snd].
  - split; [|by rewrite Hr, Hs]. right; right. done.
  - split; [|by rewrite Hr, Hs]. right; left. split; [lia | done].
Qed.

(** What [setDefaultPolicies] leaves of the world, and where its error
    shows. *)
Lemma setDefaultPolicies_calls m w :
  clock (setDefaultPolicies m w).2 = clock w ∧
  ticks (setDefaultPolicies m w).2 = ticks w ∧
  ∃ new,
    calls (setDefaultPolicies m w).2 = calls w ++ new ∧
    (Forall (λ c, c.2 = None) new → (setDefaultPolicies m w).1 = None).
Proof.
  unfold setDefaultPolicies, setDefaultPolicies_loop, call_SetDefaultPolicy,
    backend_step.
  generalize (if decide (DefaultPolicy (config m) = "deny")
              then "DROP" else "ACCEPT").
  intros policy.
  destruct (backend_SetDefaultPolicy "INPUT" policy _) as [[e1|] b1]; cbn.
  { split; [done |]. split; [done |]. eexists. split; [done |].
    intros Hall. by apply Forall_cons_1 in Hall as [? _]. }
  destruct (backend_SetDefaultPolicy "FORWARD" policy _) as [[e2|] b2]; cbn.
  { split; [done |]. split; [done |]. eexists.
    split; [by rewrite <- app_assoc |].
    intros Hall. apply Forall_cons_1 in Hall as [_ Hall].
    by apply Forall_cons_1 in Hall as [? _]. }
  destruct (backend_SetDefaultPolicy "OUTPUT" policy _) as [[e3|] b3]; cbn.
  { split; [done |]. split; [done |]. eexists.
    split; [by rewrite <- !app_assoc |].
    intros Hall. apply Forall_cons_1 in Hall as [_ Hall].
    apply Forall_cons_1 in Hall as [_ Hall].
    by apply Forall_cons_1 in Hall as [? _]. }
  split; [done |]. split; [done |]. eexists.
  split; [by rewrite <- !app_assoc |]. done.
Qed.

(** No ID that [generateRuleID] can still produce is in the store. *)
Lemma loadConfigRules_loop_all_stored (cfgRules : list FirewallRule) m w :
  (∀ i j, clock w i = clock w j → i = j) →
  (∀ k, ticks w ≤ k → rules m !! ("rule-" +:+ Sprintf_d (clock w k)) = None) →
  all_succeeded (loadConfigRules_loop cfgRules m w).2 →
  ∃ added : list (string * ptr),
    map_to_list (rules (loadConfigRules_loop cfgRules m w).1.2) ≡ₚ
      added ++ map_to_list (rules m) ∧
    Forall2 (λ a c,
               ∃ t, heap (loadConfigRules_loop cfgRules m w).2 !! a.2 =
                      Some (stamped (rule_of_config c) a.1 t))
            added cfgRules.
Proof.
  revert m w. induction cfgRules as [|c cfgRules IH]; intros m w Hinj Hfresh Hall.
  - exists []. split; [done | constructor].
  - revert Hall. cbn [loadConfigRules_loop]. unfold alloc.
    set (p := fresh (dom (heap w))).
    set (w1 := set_heap (<[p := rule_of_config c]> (heap w)) w).
    assert (Hp1 : heap w1 !! p = Some (rule_of_config c)).
    { subst w1. cbn. by rewrite lookup_insert_eq. }
    rewrite (AddRule_unnamed p m w1 _ Hp1 eq_refl). cbn zeta.
    set (id := "rule-" +:+ Sprintf_d (clock w1 (ticks w1))).
    set (r' := stamped (rule_of_config c) id (clock w1 (S (ticks w1)))).
    destruct (backend_AddRule r' (backend w1)) as [err b1]. cbn [fst snd].
    set (m1 := match err with Some _ => m | None => _ end).
    set (w2 := mkWorld _ _ _ _ _ _ _ _).
    assert (Hret : match err with
                   | Some e => Return (Some ("failed to add rule: " +:+ e))
                   | None => Return None
                   end = Return (match err with
                                 | Some e => Some ("failed to add rule: " +:+ e)
                                 | None => None
                                 end) :> result error).
    { by destruct err. }
    rewrite Hret.
    destruct (loadConfigRules_loop_spec cfgRules m1 w2)
      as (m' & w' & new & Hres & _ & _ & _ & _ & _ & _ & Hh & _ & Hcalls & _).
    intros Hall.
    assert (Herr : err = None).
    { unfold all_succeeded in Hall. rewrite Hres in Hall. cbn [snd] in Hall.
      rewrite Hcalls in Hall. subst w2. cbn [calls] in Hall.
      rewrite !Forall_app in Hall. destruct Hall as [[_ Hone] _].
      by apply Forall_cons_1 in Hone as [? _]. }
    subst err. subst m1.
    destruct (IH (set_rules (<[id := p]> (rules m)) m) w2) as (added & Hperm & Hadded).
    { exact Hinj. }
    { intros k Hk. cbn [rules set_rules]. rewrite lookup_insert_ne.
      - apply Hfresh. subst w2 w1. cbn in Hk. lia.
      - subst id. intros Heq. apply (inj (String.app "rule-")) in Heq.
        apply (inj pretty) in Heq. apply Hinj in Heq.
        subst w2 w1. cbn in Hk, Heq. lia. }
    { exact Hall. }
    exists ((id, p) :: added). split.
    + rewrite Hperm. cbn [rules set_rules].
      rewrite map_to_list_insert by (apply (Hfresh (ticks w)); lia).
      symmetry. apply Permutation_middle.
    + constructor; [|done]. cbn [fst snd].
      exists (clock w1 (S (ticks w1))).
      rewrite Hres. cbn [snd]. eapply lookup_weaken; [|exact Hh].
      subst w2. cbn [heap]. by rewrite lookup_insert_eq.
Qed.

(** X8: with a clock that never reads the same value twice and a sync
    interval that is positive, [Start] on a new manager stores one rule
    for each configured rule.  When every backend call of [Start]
    succeeds, it returns [nil] and the store afterwards holds, for each
    rule of the configuration, one rule with the configured fields under
    an ID of its own, and nothing else; [ListRules] is as long as the
    configured list. *)
Theorem Start_stores_each_config_rule m w :
  running m = false →
  rules m = ∅ →
  (0 < SyncInterval (config m))%Z →
  (∀ i j, clock w i = clock w j → i = j) →
  all_succeeded (Start m w).2 →
  (Start m w).1.1 = Return None ∧
  length (ListRules (Start m w).1.2) = length (Rules (config m)) ∧
  ∃ added : list (string * ptr),
    map_to_list (rules (Start m w).1.2) ≡ₚ added ∧
    Forall2 (λ a c,
               ∃ t, heap (Start m w).2 !! a.2 =
                      Some (stamped (rule_of_config c) a.1 t))
            added (Rules (config m)).
Proof.
  intros Hrun Hempty Hpos Hinj. unfold Start. rewrite Hrun.
  change (setDefaultPolicies (set_running true m) w) with (setDefaultPolicies m w).
  destruct (setDefaultPolicies_calls m w) as (Hclock & Hticks & new & Hcalls & Hok).
  destruct (setDefaultPolicies m w) as [err w1]. cbn [fst snd] in *.
  unfold loadConfigRules. cbn [config set_running].
  destruct (loadConfigRules_loop_spec (Rules (config m)) (set_running true m) w1)
    as (m' & w' & new' & Hres & Hc' & _ & _ & _ & _ & _ & _ & _ & Hcalls' & _).
  rewrite Hres. unfold go_syncLoop. rewrite Hc'. cbn [config set_running].
  destruct (decide (SyncInterval (config m) ≤ 0)%Z) as [?|_]; [lia |].
  assert (Hsucc : all_succeeded
                    (match err with
                     | Some e =>
                         (Return (Some ("failed to set default policies: " +:+ e)),
                          set_running true m, w1)
                     | None => (Return None, m', spawn_loop w')
                     end).2 →
                  err = None ∧ all_succeeded w').
  { unfold all_succeeded. destruct err as [e|]; cbn [snd].
    - rewrite Hcalls, Forall_app. intros [_ Hnew]. by specialize (Hok Hnew).
    - cbn [snd spawn_loop calls]. done. }
  intros Hall. destruct (Hsucc Hall) as [-> Hall']. clear Hsucc Hall.
  pose proof (loadConfigRules_loop_all_stored (Rules (config m))
                (set_running true m) w1) as Hstored.
  rewrite Hres in Hstored. cbn [fst snd] in Hstored.
  destruct Hstored as (added & Hperm & Hadded).
  { by rewrite Hclock. }
  { intros k _. cbn. by rewrite Hempty. }
  { exact Hall'. }
  cbn [fst snd].
  cbn [rules set_running] in Hperm. rewrite Hempty, map_to_list_empty, app_nil_r in Hperm.
  split; [done |]. split.
  - unfold ListRules. rewrite length_fmap, Hperm. by eapply Forall2_length.
  - exists added. split; [done |]. exact Hadded.
Qed.

End firewall_more.

Section firewall_backends.
Import Firewall.
Context {I : Type} `{!IPTables I}.

Lemma length_omap_allocated (h : gmap ptr Rule) (ps : list ptr) :
  (∀ p, p ∈ ps → is_Some (h !! p)) →
  length (omap (λ p, h !! p) ps) = length ps.
Proof.
  induction ps as [|p ps IH]; intros Halloc; [done |].
  cbn [omap list_omap]. destruct (Halloc p) as [r ->]; [by left |].
  cbn. rewrite IH; [done |]. intros p' Hin. apply Halloc. by right.
Qed.

(** X6: with either backend of the package, the periodic sync installs
    every stored rule again on every pass.  Both [ListRules]
    implementations return the empty slice, so no stored rule is ever
    found in the listing: one pass issues [ListRules] and then exactly one
    [AddRule] for each stored rule, in whatever order the range over the
    store takes them, and returns [nil] whatever these calls answer. *)
Theorem sync_readds_every_stored_rule (m : Manager) (w : World (AnyBackend I)) :
  store_allocated m w →
  (sync m w).1 = Return None ∧
  heap (sync m w).2 = heap w ∧
  (∃ readded,
     issued_by_sync m w = CallListRules :: (CallAddRule <$> readded) ∧
     readded ≡ₚ omap (λ rule, heap w !! rule) (ListRules m)) ∧
  length (issued_by_sync m w) = S (size (rules m)).
Proof.
  intros Halloc.
  assert (Hlist : ∃ b', backend_ListRules (backend w) = (([], None), b')).
  { destruct (backend w) as [b|b]; by eexists. }
  destruct Hlist as [b' Hlist].
  destruct (sync_nothing_listed m w b' Hlist Halloc)
    as (Hret & Hheap & readded & Hissued & Hperm).
  split; [done |]. split; [done |]. split; [by exists readded |].
  rewrite Hissued. cbn [length]. rewrite length_fmap, Hperm, length_omap_allocated.
  - unfold ListRules. by rewrite length_fmap, length_map_to_list.
  - intros rule [id Hid]%elem_of_stored. by eapply Halloc.
Qed.

End firewall_backends.

(** ** The service registry over any discovery backend *)

Section servicemesh_more.
Import ServiceMesh.
Context {D : Type} `{!Discovery D}.

Implicit Types (m : Manager) (w : World D) (s : Service) (service : ptr).

Lemma DeregisterService_cases (serviceID : string) m w :
  (services m !! serviceID = None ∧
   DeregisterService serviceID m w =
     (Return (Some ("service not found: " +:+ serviceID)), m, w)) ∨
  (∃ service err,
     services m !! serviceID = Some service ∧
     heap (DeregisterService serviceID m w).2 = heap w ∧
     calls (DeregisterService serviceID m w).2 =
       calls w ++ [(CallDeregister serviceID, err)] ∧
     match err with
     | None =>
         (DeregisterService serviceID m w).1 =
           (Return None, set_services (delete serviceID (services m)) m)
     | Some e =>
         (DeregisterService serviceID m w).1 =
           (Return (Some ("failed to deregister service: " +:+ e)), m)
     end).
Proof.
  unfold DeregisterService.
  destruct (services m !! serviceID) as [service|]; [|by left].
  right. exists service. unfold call_Deregister, backend_step. cbn.
  destruct (Deregister _ _ _) as [[e|] d]; cbn;
    [exists (Some e) | exists None]; done.
Qed.

(** X9: registering a service and deregistering it again.  After a
    [RegisterService] that returned [nil] the service passed in carries a
    non-empty ID (its own if it had one) and [GetService] on that ID
    returns the very pointer passed in.  [DeregisterService] on that ID
    hands the backend the ID alone; if the backend accepts, the ID is no
    longer found and, unless it was stored before the registration, the
    store is what it was, and if the backend refuses the service stays
    stored.  The struct itself is left as [RegisterService] wrote it. *)
Theorem RegisterService_then_DeregisterService service m w s :
  heap w !! service = Some s →
  (RegisterService service m w).1.1 = Return None →
  ∃ s' err,
    let m1 := (RegisterService service m w).1.2 in
    let w1 := (RegisterService service m w).2 in
    heap w1 !! service = Some s' ∧ ID s' ≠ "" ∧ (ID s ≠ "" → ID s' = ID s) ∧
    GetService (ID s') m1 = (Some service, None) ∧
    calls (DeregisterService (ID s') m1 w1).2 =
      calls w ++ [(CallRegister (service, s'), None);
                  (CallDeregister (ID s'), err)] ∧
    heap (DeregisterService (ID s') m1 w1).2 = heap w1 ∧
    match err with
    | None =>
        (DeregisterService (ID s') m1 w1).1.1 = Return None ∧
        GetService (ID s') (DeregisterService (ID s') m1 w1).1.2 =
          (None, Some ("service not found: " +:+ ID s')) ∧
        (services m !! ID s' = None →
         services (DeregisterService (ID s') m1 w1).1.2 = services m)
    | Some e =>
        (DeregisterService (ID s') m1 w1).1 =
          (Return (Some ("failed to deregister service: " +:+ e)), m1)
    end.
Proof.
  intros Hs Hok.
  destruct (RegisterService_allocated service m w s Hs)
    as (id & t1 & t2 & err & Hid & Hkeep & Hheap & Hcalls & Hres).
  destruct err as [e|]; [rewrite Hres in Hok; discriminate |].
  destruct (RegisterService service m w) as [[res m1] w1]. cbn [fst snd] in *.
  injection Hres as -> ->.
  assert (Hstored :
    services (set_services (<[id := service]> (services m)) m) !! id = Some service).
  { cbn. by rewrite lookup_insert_eq. }
  destruct (DeregisterService_cases id
              (set_services (<[id := service]> (services m)) m) w1)
    as [[Hnone _]|(service' & err & Hservice' & Hheap' & Hcalls' & Hres')].
  { congruence. }
  exists (registered s id t1 t2), err. cbn [ID registered].
  split; [by rewrite Hheap, lookup_insert_eq |].
  split; [done |]. split; [done |].
  split; [unfold GetService; by rewrite Hstored |].
  split; [by rewrite Hcalls', Hcalls, <- app_assoc |].
  split; [done |].
  destruct err as [e|]; [done |].
  rewrite Hres'. cbn [fst snd]. split; [done |].
  split.
  - unfold GetService. cbn. by rewrite lookup_delete_eq.
  - intros Hfresh. cbn. by rewrite delete_insert_id.
Qed.

(** The loop of [Stop] returns exactly when every pointer is allocated. *)
Lemma deregister_all_calls (ps : list ptr) w :
  (∀ p, p ∈ ps → is_Some (heap w !! p)) →
  (deregister_all ps w).1 = Return () ∧
  ∃ new,
    calls (deregister_all ps w).2 = calls w ++ new ∧
    new.*1 = CallDeregister <$> omap (λ p, ID <$> heap w !! p) ps.
Proof.
  revert w. induction ps as [|p ps IH]; intros w Halloc.
  - cbn. split; [done |]. exists []. by rewrite app_nil_r.
  - cbn [deregister_all]. destruct (Halloc p) as [s Hs]; [by left |].
    rewrite Hs. unfold call_Deregister, backend_step. cbn [fst snd].
    set (w1 := mkWorld _ _ _ _ _ _ _ _ _ _).
    destruct (IH w1) as (Hret & new & Hcalls & Hnew).
    { intros p' Hin. apply Halloc. by right. }
    split; [done |].
    exists ((CallDeregister (ID s), (Deregister (ID s) (heap w) (discovery w)).1)
              :: new).
    split; [rewrite Hcalls; subst w1; cbn; by rewrite <- app_assoc |].
    cbn [omap list_omap]. rewrite Hs. cbn. by rewrite Hnew.
Qed.

Lemma deregister_all_returned (ps : list ptr) w :
  (deregister_all ps w).1 = Return () →
  ∀ p, p ∈ ps → is_Some (heap w !! p).
Proof.
  revert w. induction ps as [|p ps IH]; intros w Hret p' Hin.
  - by apply elem_of_nil in Hin.
  - cbn [deregister_all] in Hret.
    destruct (heap w !! p) as [s|] eqn:Hs; [|discriminate].
    apply elem_of_cons in Hin as [->|Hin]; [by rewrite Hs |].
    unfold call_Deregister, backend_step in Hret. cbn [fst snd] in Hret.
    by apply (IH _ Hret).
Qed.

Lemma elem_of_ListServices m service :
  service ∈ ListServices m ↔ ∃ id, services m !! id = Some service.
Proof.
  unfold ListServices. rewrite list_elem_of_fmap. split.
  - intros ([id p] & -> & Hin). exists id. by apply elem_of_map_to_list.
  - intros [id Hid]. exists (id, service). split; [done |].
    by apply elem_of_map_to_list.
Qed.

(** X10: [Stop] of the service registry.  On a running manager whose
    stored services are allocated, [Stop] asks the backend to deregister
    every stored service, once each, by the ID read from the service and
    in whatever order the range over the store takes them, and returns
    [nil] whatever the backend answers; the store itself is not emptied,
    so that [GetService] answers after the [Stop] as it did before it. *)
Theorem Stop_deregisters_and_keeps_the_store m w :
  running m = true →
  stopChan m = ChanOpen →
  (∀ id service, services m !! id = Some service → is_Some (heap w !! service)) →
  (Stop m w).1.1 = Return None ∧
  services (Stop m w).1.2 = services m ∧
  running (Stop m w).1.2 = false ∧
  heap (Stop m w).2 = heap w ∧
  ∃ deregistered,
    (drop (length (calls w)) (calls (Stop m w).2)).*1 =
      CallDeregister <$> deregistered ∧
    deregistered ≡ₚ
      omap (λ service, ID <$> heap w !! service) (ListServices m).
Proof.
  intros Hrun Hchan Halloc. unfold Stop. rewrite Hrun. cbn [negb].
  destruct (range_services_spec (set_running false m) w)
    as (Hperm & Hheap0 & Hcalls0 & _).
  destruct (range_services (set_running false m) w) as [stored w0].
  cbn [fst snd services set_running stopChan] in *.
  destruct (deregister_all_calls stored w0) as (Hret & new & Hcalls & Hnew).
  { intros p Hp. rewrite Hperm in Hp. apply elem_of_ListServices in Hp as [id Hid].
    rewrite Hheap0. by eapply Halloc. }
  pose proof (deregister_all_heap stored w0) as Hheap.
  destruct (deregister_all stored w0) as [res w1].
  cbn [fst snd] in *. subst res. rewrite Hchan. cbn [fst snd services running].
  split; [done |]. split; [done |]. split; [done |].
  split; [by rewrite Hheap, Hheap0 |].
  exists (omap (λ service, ID <$> heap w !! service) stored). split.
  - by rewrite Hcalls, Hcalls0, drop_app_length, Hnew, Hheap0.
  - unfold ListServices. by rewrite Hperm.
Qed.

(** [RegisterService] with the answer of the backend spelled out. *)
Lemma RegisterService_backend service m w s :
  heap w !! service = Some s →
  ∃ id registeredAt lastSeen,
    let s' := registered s id registeredAt lastSeen in
    let r := Register (service, s') (discovery w) in
    id ≠ "" ∧ (ID s ≠ "" → id = ID s) ∧
    heap (RegisterService service m w).2 = <[service := s']> (heap w) ∧
    discovery (RegisterService service m w).2 = r.2 ∧
    (RegisterService service m w).1 =
      match r.1 with
      | None => (Return None, set_services (<[id := service]> (services m)) m)
      | Some e => (Return (Some ("failed to register service: " +:+ e)), m)
      end.
Proof.
  intros Hs. unfold RegisterService. rewrite Hs.
  destruct (decide (ID s = "")) as [Hid|Hid]; cbn.
  - exists (Name s +:+ "-" +:+ Sprintf_d (clock w (ticks w))),
      (clock w (S (ticks w))), (clock w (S (S (ticks w)))).
    split; [by destruct (Name s) |]. split; [done |].
    by destruct (Register _ _) as [[e|] d].
  - exists (ID s), (clock w (ticks w)), (clock w (S (ticks w))).
    split; [done |]. split; [done |].
    by destruct (Register _ _) as [[e|] d].
Qed.

End servicemesh_more.

(** ** The static discovery backend *)

Section static_discovery.
Import ServiceMesh.

Implicit Types (h : gmap ptr Service) (d : StaticDiscovery).

Lemma Static_index_Some h (serviceID : string) (l : list ptr) (i : nat) :
  Static_index h serviceID l = Some i →
  ∃ p s, l !! i = Some p ∧ h !! p = Some s ∧ ID s = serviceID.
Proof.
  revert i. induction l as [|p l IH]; intros i; cbn [Static_index]; [done |].
  destruct (h !! p) as [s|] eqn:Hp.
  - destruct (decide (ID s = serviceID)) as [Hid|Hid].
    + intros [= <-]. by exists p, s.
    + destruct (Static_index h serviceID l) as [j|]; [|done].
      intros [= <-]. by apply IH.
  - destruct (Static_index h serviceID l) as [j|]; [|done].
    intros [= <-]. by apply IH.
Qed.

Lemma Static_index_None h (serviceID : string) (l : list ptr) :
  Static_index h serviceID l = None →
  ∀ p s, p ∈ l → h !! p = Some s → ID s ≠ serviceID.
Proof.
  induction l as [|p l IH]; cbn [Static_index]; intros Hnone p' s' Hin Hp'.
  - by apply elem_of_nil in Hin.
  - apply elem_of_cons in Hin as [->|Hin].
    + rewrite Hp' in Hnone.
      by destruct (decide (ID s' = serviceID)).
    + apply (IH) with p'; [|done | done].
      destruct (h !! p) as [s|].
      * destruct (decide (ID s = serviceID)); [done |].
        by destruct (Static_index h serviceID l).
      * by destruct (Static_index h serviceID l).
Qed.

Lemma Static_Deregister_scan_spec h (serviceID : string)
    (entries : list (string * list ptr)) d :
  match (Static_Deregister_scan h serviceID entries d).1 with
  | None =>
      ∃ name l i p s,
        (name, l) ∈ entries ∧ l !! i = Some p ∧ h !! p = Some s ∧
        ID s = serviceID ∧
        (Static_Deregister_scan h serviceID entries d).2 =
          {| sd_services := <[name := delete i l]> (sd_services d) |}
  | Some e =>
      e = "service not found: " +:+ serviceID ∧
      (Static_Deregister_scan h serviceID entries d).2 = d ∧
      ∀ name l p s, (name, l) ∈ entries → p ∈ l → h !! p = Some s →
                    ID s ≠ serviceID
  end.
Proof.
  induction entries as [|[name l] entries IH]; cbn [Static_Deregister_scan].
  - cbn. split; [done |]. split; [done |].
    intros name l p s Hin. by apply elem_of_nil in Hin.
  - destruct (Static_index h serviceID l) as [i|] eqn:Hi.
    + cbn. destruct (Static_index_Some _ _ _ _ Hi) as (p & s & Hl & Hp & Hid).
      exists name, l, i, p, s. split; [by left | done].
    + destruct (Static_Deregister_scan h serviceID entries d) as [[e|] d'];
        cbn [fst snd] in *.
      * destruct IH as (-> & -> & Hno). split; [done |]. split; [done |].
        intros name' l' p s Hin Hp Hs.
        apply elem_of_cons in Hin as [[= -> ->]|Hin].
        -- by eapply Static_index_None.
        -- by eapply Hno.
      * destruct IH as (name' & l' & i & p & s & Hin & H').
        exists name', l', i, p, s. split; [by right | done].
Qed.

(** X11: [Deregister] of the static backend.  It succeeds exactly when
    some registered pointer leads to a service with the ID, and then
    removes one pointer with that ID from one slice, leaving every other
    registration (further registrations of the same service included)
    in place; otherwise it reports "service not found" and changes
    nothing. *)
Theorem Static_Deregister_removes_one (serviceID : string) h d :
  match (Static_Deregister serviceID h d).1 with
  | None =>
      ∃ name l i p s,
        sd_services d !! name = Some l ∧ l !! i = Some p ∧ h !! p = Some s ∧
        ID s = serviceID ∧
        (Static_Deregister serviceID h d).2 =
          {| sd_services := <[name := delete i l]> (sd_services d) |}
  | Some e =>
      e = "service not found: " +:+ serviceID ∧
      (Static_Deregister serviceID h d).2 = d ∧
      ∀ name l p s, sd_services d !! name = Some l → p ∈ l → h !! p = Some s →
                    ID s ≠ serviceID
  end.
Proof.
  unfold Static_Deregister.
  pose proof (Static_Deregister_scan_spec h serviceID
                (map_to_list (sd_services d)) d) as Hscan.
  destruct (Static_Deregister_scan h serviceID (map_to_list (sd_services d)) d)
    as [[e|] d']; cbn [fst snd] in *.
  - destruct Hscan as (-> & -> & Hno). split; [done |]. split; [done |].
    intros name l p s Hl. apply (Hno name l). by apply elem_of_map_to_list.
  - destruct Hscan as (name & l & i & p & s & Hin & H').
    exists name, l, i, p, s. split; [by apply elem_of_map_to_list | done].
Qed.

Implicit Types (m : Manager) (w : World StaticDiscovery).

(** What the keep-alive pass adds to the slice of one name. *)
Lemma reregister_all_static (ps : list ptr) w (name : string) :
  (∀ p, p ∈ ps → is_Some (heap w !! p)) →
  (reregister_all ps w).1 = Return () ∧
  default [] (sd_services (discovery (reregister_all ps w).2) !! name) =
    default [] (sd_services (discovery w) !! name) ++
    filter (λ p, Name <$> heap w !! p = Some name) ps.
Proof.
  revert w. induction ps as [|p ps IH]; intros w Halloc.
  - cbn. by rewrite app_nil_r.
  - cbn [reregister_all]. destruct (Halloc p) as [s Hs]; [by left |].
    rewrite Hs. unfold call_Register, backend_step. cbn [fst snd].
    set (w1 := mkWorld _ _ _ _ _ _ _ _ _ _).
    destruct (IH w1) as (Hret & Hlist).
    { intros p' Hin. apply Halloc. by right. }
    split; [done |]. rewrite Hlist. subst w1. cbn [discovery heap].
    cbn [Register StaticDiscovery_Discovery Static_Register snd sd_services fst].
    rewrite filter_cons. rewrite Hs. cbn [fmap option_fmap option_map].
    destruct (decide (Name s = name)) as [<-|Hne].
    + rewrite lookup_insert_eq. cbn [default].
      rewrite decide_True by done. unfold id. by rewrite <- app_assoc.
    + rewrite lookup_insert_ne by done.
      rewrite decide_False by congruence. done.
Qed.

(** X12: the keep-alive pass over the static backend registers every
    stored service once more.  [Register] appends without looking for an
    earlier registration, so after one pass of [syncDiscovery] a
    discovery of any name returns what it returned before followed by
    every stored service of that name again, in whatever order the range
    over the store took them: the instances of a name are listed once
    more for each pass that has run. *)
Theorem syncDiscovery_static_duplicates m w (name : string) :
  (∀ id service, services m !! id = Some service → is_Some (heap w !! service)) →
  (syncDiscovery m w).1 = Return () ∧
  heap (syncDiscovery m w).2 = heap w ∧
  ∃ again,
    (DiscoverService name (syncDiscovery m w).2).1 =
      ((DiscoverService name w).1.1 ++ again, None) ∧
    again ≡ₚ
      deref_all (heap w)
        (filter (λ p, Name <$> heap w !! p = Some name) (ListServices m)).
Proof.
  intros Halloc. split; [|split; [apply syncDiscovery_heap |]].
  all: unfold syncDiscovery.
  all: destruct (range_services_spec m w) as (Hperm & Hheap0 & _ & Hdisc0 & _).
  all: destruct (range_services m w) as [stored w0]; cbn [fst snd] in *.
  all: destruct (reregister_all_static stored w0 name) as (Hret & Hlist);
    [intros p Hp; rewrite Hperm in Hp;
     apply elem_of_ListServices in Hp as [id Hid];
     rewrite Hheap0; by eapply Halloc |].
  - done.
  - pose proof (reregister_all_heap stored w0) as Hheap.
    exists (deref_all (heap w)
              (filter (λ p, Name <$> heap w !! p = Some name) stored)).
    split.
    + unfold DiscoverService, call_Discover, backend_step.
      cbn [Discover StaticDiscovery_Discovery Static_Discover fst snd].
      rewrite Hlist, Hheap, Hheap0, Hdisc0. unfold deref_all. by rewrite omap_app.
    + unfold ListServices, deref_all. by rewrite Hperm.
Qed.

Lemma elem_of_delete_twice {A : Type} (l1 l2 : list A) (x : A) (i : nat) :
  x ∈ l2 → x ∈ delete i (l1 ++ x :: l2).
Proof.
  intros [j Hj]%list_elem_of_lookup_1.
  destruct (decide (length l1 < i)) as [Hlt|Hge].
  - apply list_elem_of_lookup_2 with (length l1).
    rewrite list_lookup_delete_lt by done. by rewrite list_lookup_middle.
  - apply list_elem_of_lookup_2 with (length l1 + j).
    rewrite list_lookup_delete_ge by lia.
    rewrite lookup_app_r by lia.
    replace (S (length l1 + j) - length l1) with (S j) by lia. done.
Qed.

Lemma elem_of_deref_all h (ps : list ptr) (p : ptr) (s : Service) :
  p ∈ ps → h !! p = Some s → (p, s) ∈ deref_all h ps.
Proof.
  intros Hin Hp. unfold deref_all. apply list_elem_of_omap.
  exists p. split; [done |]. by rewrite Hp.
Qed.

(** X13: a service deregistered after a keep-alive pass is still
    discovered.  Over the static backend, register a service, let one
    pass of [syncDiscovery] run, and deregister the service by its ID:
    all three succeed and the manager no longer knows the ID, yet the
    backend still lists the service under its name, because the pass
    registered it a second time and [Deregister] removes one registration
    only. *)
Theorem deregistered_service_stays_discoverable service m w s :
  heap w !! service = Some s →
  (∀ id p, services m !! id = Some p → is_Some (heap w !! p)) →
  let r1 := RegisterService service m w in
  let r2 := syncDiscovery r1.1.2 r1.2 in
  ∃ s',
    let r3 := DeregisterService (ID s') r1.1.2 r2.2 in
    heap r1.2 !! service = Some s' ∧ Name s' = Name s ∧
    r1.1.1 = Return None ∧ r2.1 = Return () ∧ r3.1.1 = Return None ∧
    GetService (ID s') r3.1.2 = (None, Some ("service not found: " +:+ ID s')) ∧
    (service, s') ∈ (DiscoverService (Name s) r3.2).1.1.
Proof.
  intros Hs Halloc r1 r2. subst r2 r1.
  destruct (RegisterService_backend service m w s Hs)
    as (sid & t1 & t2 & Hid & _ & Hheap1 & Hdisc1 & Hres1).
  cbn zeta in Hheap1, Hdisc1, Hres1.
  set (s' := registered s sid t1 t2) in *.
  cbn [Register StaticDiscovery_Discovery Static_Register fst snd] in Hdisc1, Hres1.
  destruct (RegisterService service m w) as [[res1 m1] w1]. cbn [fst snd] in *.
  injection Hres1 as -> ->.
  set (m1 := set_services (<[sid := service]> (services m)) m).
  assert (Hs1 : heap w1 !! service = Some s').
  { by rewrite Hheap1, lookup_insert_eq. }
  assert (Halloc1 : ∀ id' p, services m1 !! id' = Some p → is_Some (heap w1 !! p)).
  { intros id' p. subst m1. cbn [services set_services]. rewrite Hheap1.
    rewrite lookup_insert. case_decide as Hd.
    - intros [= <-]. by rewrite lookup_insert_eq.
    - intros Hp. destruct (decide (p = service)) as [->|Hne].
      + by rewrite lookup_insert_eq.
      + rewrite lookup_insert_ne by done. by eapply Halloc. }
  unfold syncDiscovery.
  destruct (range_services_spec m1 w1) as (Hperm & Hheap0 & _ & Hdisc0 & _).
  destruct (range_services m1 w1) as [stored w0]. cbn [fst snd] in *.
  destruct (reregister_all_static stored w0 (Name s)) as (Hret2 & Hlist2).
  { intros p Hp. rewrite Hperm in Hp.
    apply elem_of_ListServices in Hp as [id' Hid'].
    rewrite Hheap0. by eapply Halloc1. }
  pose proof (reregister_all_heap stored w0) as Hheap2.
  rewrite Hheap0 in Hheap2, Hlist2. rewrite Hdisc0 in Hlist2.
  set (w2 := (reregister_all stored w0).2) in *.
  assert (Hin2 : service ∈ filter (λ p, Name <$> heap w1 !! p = Some (Name s))
                            stored).
  { apply list_elem_of_filter. split; [by rewrite Hs1 |].
    rewrite Hperm. apply elem_of_ListServices. exists sid. subst m1. cbn.
    by rewrite lookup_insert_eq. }
  rewrite Hdisc1 in Hlist2. cbn [sd_services] in Hlist2.
  rewrite lookup_insert_eq in Hlist2.
  change (default [] (Some ?l)) with l in Hlist2.
  rewrite <- app_assoc in Hlist2. cbn [app] in Hlist2.
  exists s'. cbn zeta. cbn [ID registered s'].
  change (ID s') with sid.
  assert (Hstored : services m1 !! sid = Some service).
  { subst m1. cbn. by rewrite lookup_insert_eq. }
  unfold DeregisterService. rewrite Hstored.
  unfold call_Deregister, backend_step. cbn [fst snd].
  cbn [Deregister StaticDiscovery_Discovery].
  pose proof (Static_Deregister_scan_spec (heap w2) sid
                (map_to_list (sd_services (discovery w2))) (discovery w2)) as Hdereg.
  unfold Static_Deregister.
  destruct (Static_Deregister_scan (heap w2) sid
              (map_to_list (sd_services (discovery w2))) (discovery w2))
    as [[e|] d3]; cbn [fst snd] in *.
  { destruct Hdereg as (_ & _ & Hno). exfalso.
    destruct (sd_services (discovery w2) !! Name s) as [l|] eqn:Hl.
    - change (default [] (Some l)) with l in Hlist2.
      eapply (Hno (Name s) l service s');
        [by apply elem_of_map_to_list | | by rewrite Hheap2 | done].
      rewrite Hlist2. apply elem_of_app. right. by left.
    - change (default [] None) with (@nil ptr) in Hlist2.
      by apply app_cons_not_nil in Hlist2. }
  destruct Hdereg as (name & l & i & p & s3 & Hl%elem_of_map_to_list & _ & _ & _ & ->).
  split; [done |]. split; [done |]. split; [done |]. split; [done |].
  split; [done |].
  split; [unfold GetService; cbn; by rewrite lookup_delete_eq |].
  unfold DiscoverService, call_Discover, backend_step.
  cbn [Discover StaticDiscovery_Discovery Static_Discover fst snd heap discovery
       sd_services].
  apply elem_of_deref_all; [|by rewrite Hheap2].
  destruct (decide (name = Name s)) as [->|Hne].
  - rewrite lookup_insert_eq. change (default [] (Some ?x)) with x.
    rewrite Hl in Hlist2. change (default [] (Some l)) with l in Hlist2.
    rewrite Hlist2. apply elem_of_delete_twice. done.
  - rewrite lookup_insert_ne by done. rewrite Hlist2.
    apply elem_of_app. right. by left.
Qed.

End static_discovery.

(** ** The selectors *)

Section selectors_more.
Import ServiceMesh.

(** X14: any [length services] successive calls of the round-robin
    selector, from whatever state the counter is in, return every
    candidate exactly once: the results are the list of candidates
    rotated to the position after the one served last.  (The counter is
    taken not to wrap at 2^64 within the window.) *)
Theorem RoundRobin_window_serves_all (services : list sref)
    (lb : RoundRobinLoadBalancer) :
  services ≠ [] →
  (0 ≤ counter lb)%Z →
  (counter lb + Z.of_nat (length services) < 2 ^ 64)%Z →
  let start := Z.to_nat ((counter lb + 1) mod Z.of_nat (length services)) in
  (RoundRobin_calls (length services) services lb).1 =
    (λ s, (Some s, None)) <$> rotate start services ∧
  (RoundRobin_calls (length services) services lb).1 ≡ₚ
    (λ s, (Some s, None)) <$> services.
Proof.
  intros Hne H0 Hlt start.
  assert (Hlen : 0 < length services) by (destruct services; [done | cbn; lia]).
  assert (Heq : (RoundRobin_calls (length services) services lb).1 =
                (λ s, (Some s, None)) <$> rotate start services).
  { rewrite RoundRobin_calls_spec by done. cbn [fst].
    apply list_eq. intros i. rewrite !list_lookup_fmap.
    destruct (decide (i < length services)) as [Hi|Hi].
    - rewrite lookup_seq_lt by done. cbn [fmap option_fmap option_map].
      rewrite lookup_rotate_r by done. unfold rotate_nat_add. subst start.
      rewrite Z2Nat.id by (apply Z.mod_pos_bound; lia).
      rewrite Zplus_mod_idemp_l.
      replace (counter lb + Z.of_nat (1 + i))%Z
        with (counter lb + 1 + Z.of_nat i)%Z by lia.
      destruct (RoundRobin_index_in_range services
                  (counter lb + 1 + Z.of_nat i) Hne) as [x ->].
      done.
    - rewrite lookup_seq_ge by lia.
      rewrite (lookup_ge_None_2 (rotate start services))
        by (rewrite length_rotate; lia).
      done. }
  split; [done |]. rewrite Heq. apply fmap_Permutation.
  unfold rotate. rewrite Permutation_app_comm. by rewrite take_drop.
Qed.

(** X15: selecting with the least-connection selector and releasing the
    connection again leaves every count as it was.  (Counts are taken
    to lie between 0 and a bound below the largest int64, as they do
    after any history shorter than 2^63 calls.) *)
Theorem LeastConn_Select_then_Release (services : list sref)
    (lb lb' : LeastConnLoadBalancer) (bound : Z) (s : sref) :
  (0 ≤ bound < MaxInt64)%Z →
  nonneg_counts bound lb →
  LeastConn_Select services lb = ((Some s, None), lb') →
  s ∈ services ∧
  conn_of (connections lb') (ID s.2) = (conn_of (connections lb) (ID s.2) + 1)%Z ∧
  ∀ id, conn_of (connections (LeastConn_ReleaseConnection (ID s.2) lb')) id =
        conn_of (connections lb) id.
Proof.
  intros Hb Hnn Hsel.
  destruct (LeastConn_Select_cases services lb) as [[_ Hnone]|(x & Hin & Hx)].
  { rewrite Hnone in Hsel. discriminate. }
  rewrite Hx in Hsel. injection Hsel as -> <-. split; [done |].
  pose proof (conn_of_bounds bound lb (ID s.2) ltac:(lia) Hnn) as Hc.
  unfold MaxInt64 in Hb.
  rewrite wrap_int64_id by lia.
  split; [unfold conn_of at 1; cbn; by rewrite lookup_insert_eq |].
  intros id. unfold LeastConn_ReleaseConnection. cbn [connections].
  rewrite lookup_insert_eq.
  rewrite bool_decide_eq_true_2 by lia. cbn [connections].
  rewrite insert_insert_eq.
  replace (conn_of (connections lb) (ID s.2) + 1 - 1)%Z
    with (conn_of (connections lb) (ID s.2)) by lia.
  rewrite wrap_int64_id by lia.
  unfold conn_of at 1. destruct (decide (id = ID s.2)) as [->|Hne].
  - by rewrite lookup_insert_eq.
  - by rewrite lookup_insert_ne.
Qed.

End selectors_more.

(** ** The health monitor *)

Section health_more.
Import Health.

Implicit Types (c : Checker) (w : World) (k : Check) (check : ptr).

(** What a sequence of ticks leaves of a check, whatever the probes
    return: the fields that [performCheck] does not write. *)
Lemma performChecks_frame check (nets : list Network) w k :
  heap w !! check = Some k →
  ∃ k',
    heap (performChecks check nets w) !! check = Some k' ∧
    Type_ k' = Type_ k ∧ Target k' = Target k ∧ Timeout k' = Timeout k ∧
    callback k' = callback k ∧ ID k' = ID k.
Proof.
  intros Hk. induction nets as [|net nets IH] using rev_ind.
  - by exists k.
  - destruct IH as (k1 & Hk1 & Hty & Hta & Hti & Hcb & Hid).
    unfold performChecks in *. rewrite foldl_snoc.
    set (w1 := foldl _ w nets) in *.
    destruct (performCheck_heap check net w1 k1 Hk1) as (_ & Hheap & _).
    exists (ticked net (clock w1 (ticks w1)) k1).
    rewrite Hheap, lookup_insert_eq. split; [done |].
    unfold ticked. by destruct (probe net k1) as [[e|]|].
Qed.

(** X16: a check whose type is not "http", "tcp" or "grpc" is reported as
    passing and never probed.  [AddCheck] accepts it (it returns [nil]
    unless the checker is running and the interval is negative) and sets
    its status to Passing; every tick of its loop then only renews the
    time stamp: status and failure counter stay as [AddCheck] left them
    and the callback is never invoked, whatever the state of the
    network. *)
Theorem unknown_type_stays_passing check c w k (nets : list Network) :
  heap w !! check = Some k →
  Type_ k ≠ "http" → Type_ k ≠ "tcp" → Type_ k ≠ "grpc" →
  ((running c = true → (0 ≤ Interval k)%Z) →
   (AddCheck check c w).1.1 = Return None) ∧
  ∃ k',
    heap (performChecks check nets (AddCheck check c w).2) !! check = Some k' ∧
    Status k' = StatusPassing ∧
    Failures k' = Failures k ∧
    callbacks (performChecks check nets (AddCheck check c w).2) = callbacks w.
Proof.
  intros Hk Hhttp Htcp Hgrpc.
  destruct (AddCheck_heap check c w k Hk) as (id & now & Hres & _ & Hheap & _).
  split.
  { intros Hi. rewrite Hres. destruct (running c); [|done].
    rewrite bool_decide_eq_false_2; [done |]. specialize (Hi eq_refl). lia. }
  assert (Hcb : callbacks (AddCheck check c w).2 = callbacks w).
  { unfold AddCheck, go_checkLoop. rewrite Hk.
    destruct (decide (ID k = "")); cbn; destruct (running c); cbn;
      rewrite ?lookup_insert_eq; try done;
      by destruct (decide (Interval _ ≤ 0)%Z). }
  assert (Hk1 : heap (AddCheck check c w).2 !! check = Some (added k id now)).
  { by rewrite Hheap, lookup_insert_eq. }
  revert Hk1 Hcb. generalize (AddCheck check c w).2. intros w1 Hk1 Hcb.
  induction nets as [|net nets IH] using rev_ind.
  - exists (added k id now). done.
  - destruct IH as (k1 & Hk1' & Hst & Hf & Hcb1).
    destruct (performChecks_frame check nets w1 _ Hk1) as (k1' & Hk1'' & Hty & _).
    rewrite Hk1' in Hk1''. injection Hk1'' as <-.
    unfold performChecks in *. rewrite foldl_snoc.
    set (w2 := foldl _ w1 nets) in *.
    unfold performCheck. rewrite Hk1'. cbn.
    assert (Hprobe : ∀ now', probe net (set_LastCheck now' k1) = None).
    { intros now'. unfold probe. cbn [Type_ set_LastCheck]. rewrite Hty. cbn.
      by rewrite !decide_False. }
    rewrite Hprobe. cbn. rewrite lookup_insert_eq.
    eexists. split; [done |]. done.
Qed.

(** X17: the callback is invoked on every tick, not on a change of
    status.  For a check of one of the three known types that has a
    callback, each tick of the loop invokes the callback once, with the
    status the tick has just stored: after [n] ticks the callback has
    been invoked [n] more times, the last time with the status that the
    check now carries. *)
Theorem callback_invoked_on_every_tick check (nets : list Network) w k (cb : nat) :
  heap w !! check = Some k →
  callback k = Some cb →
  Type_ k = "http" ∨ Type_ k = "tcp" ∨ Type_ k = "grpc" →
  ∃ k' (statuses : list CheckStatus),
    heap (performChecks check nets w) !! check = Some k' ∧
    callbacks (performChecks check nets w) =
      callbacks w ++ ((λ status, (cb, status)) <$> statuses) ∧
    length statuses = length nets ∧
    (nets ≠ [] → last statuses = Some (Status k')).
Proof.
  intros Hk Hcb Hty. induction nets as [|net nets IH] using rev_ind.
  - exists k, []. cbn. by rewrite app_nil_r.
  - destruct IH as (k1 & statuses & Hk1 & Hcbs & Hlen & _).
    destruct (performChecks_frame check nets w k Hk) as (k1' & Hk1' & Hty1 & _ & _ & Hcb1 & _).
    rewrite Hk1 in Hk1'. injection Hk1' as <-.
    unfold performChecks in *. rewrite foldl_snoc.
    set (w1 := foldl _ w nets) in *.
    unfold performCheck. rewrite Hk1. cbn.
    assert (Hprobe : ∀ now, ∃ err, probe net (set_LastCheck now k1) = Some err).
    { intros now. unfold probe. cbn [Type_ set_LastCheck]. rewrite Hty1.
      destruct Hty as [-> | [-> | ->]]; cbn; by eexists. }
    destruct (Hprobe (clock w1 (ticks w1))) as [err ->]. cbn.
    assert (Hcb' : callback (record_probe err (set_LastCheck (clock w1 (ticks w1)) k1))
                   = Some cb).
    { destruct err; cbn; congruence. }
    rewrite Hcb'. cbn. rewrite lookup_insert_eq.
    eexists _, (statuses ++ [_]). split; [done |].
    split; [by rewrite Hcbs, fmap_app, app_assoc |].
    split; [rewrite !length_app; cbn; lia |].
    intros _. by rewrite last_snoc.
Qed.

(** X18: a check of type "grpc" always passes.  [checkGRPC] is a
    placeholder that reports success without contacting the target, so
    after one tick or more the check is Passing with a failure counter
    of 0, whatever the network answers and whatever the counter was. *)
Theorem grpc_check_always_passes check (nets : list Network) w k :
  heap w !! check = Some k →
  Type_ k = "grpc" →
  nets ≠ [] →
  ∃ k',
    heap (performChecks check nets w) !! check = Some k' ∧
    Status k' = StatusPassing ∧ Failures k' = 0%Z.
Proof.
  intros Hk Hty Hne.
  destruct nets as [|net nets _] using rev_ind; [done |].
  destruct (performChecks_frame check nets w k Hk) as (k1 & Hk1 & Hty1 & _).
  unfold performChecks in *. rewrite foldl_snoc.
  set (w1 := foldl _ w nets) in *.
  destruct (performCheck_heap check net w1 k1 Hk1) as (_ & Hheap & _).
  exists (ticked net (clock w1 (ticks w1)) k1).
  rewrite Hheap, lookup_insert_eq. split; [done |].
  apply and_comm, ticked_passes. unfold passes, probe. rewrite Hty1, Hty. done.
Qed.

(** X19: the verdict of an HTTP probe.  A check of type "http" passes
    exactly when the GET on its target, made with the time-out of the
    check, ends in a response whose status code lies between 200 and
    299: a transport error fails it, and so does a response with any
    other status code. *)
Theorem http_check_passes_iff_2xx (net : Network) k :
  Type_ k = "http" →
  (passes net k ↔
   ∃ code, http_Get net (Target k) (Timeout k) = inl code ∧ (200 ≤ code < 300)%Z) ∧
  (fails net k ↔
   (∃ e, http_Get net (Target k) (Timeout k) = inr e) ∨
   (∃ code, http_Get net (Target k) (Timeout k) = inl code ∧
            (code < 200 ∨ 300 ≤ code)%Z)).
Proof.
  intros Hty. unfold passes, fails, probe, checkHTTP. rewrite Hty. cbn.
  destruct (http_Get net (Target k) (Timeout k)) as [code|e].
  - assert (Hb : bool_decide (code < 200)%Z || bool_decide (code >= 300)%Z = true ↔
                 (code < 200 ∨ 300 ≤ code)%Z).
    { rewrite orb_true_iff, !bool_decide_eq_true. lia. }
    destruct (bool_decide (code < 200)%Z || bool_decide (code >= 300)%Z).
    + assert (Hout : (code < 200 ∨ 300 ≤ code)%Z) by by apply Hb.
      split; split.
      * intros [=].
      * intros (code' & [= <-] & ?). lia.
      * intros _. right. by exists code.
      * intros _. by eexists.
    + assert (Hin : ¬ (code < 200 ∨ 300 ≤ code)%Z).
      { intros Hout. apply Hb in Hout. discriminate. }
      split; split.
      * intros _. exists code. split; [done | lia].
      * done.
      * intros [e [=]].
      * intros [[e [=]]|(code' & [= <-] & ?)]. lia.
  - split; split.
    + intros [=].
    + intros (code & [=] & _).
    + intros _. left. by exists e.
    + intros _. by eexists.
Qed.


(** The loop of [Start]: one check loop for each stored check, when all
    of them are allocated and come with a positive interval. *)
Lemma go_checkLoops_spec (stored : list ptr) w :
  (∀ p, p ∈ stored → ∃ k, heap w !! p = Some k ∧ (0 < Interval k)%Z) →
  go_checkLoops stored w =
    (Return (),
     mkWorld (heap w) (clock w) (ticks w) (order w) (ranges w) (callbacks w)
             (loops w ++ stored)).
Proof.
  revert w. induction stored as [|p stored IH]; intros w Hall.
  - cbn. rewrite app_nil_r. by destruct w.
  - cbn [go_checkLoops]. unfold go_checkLoop.
    destruct (Hall p) as (k & -> & Hi); [by left |].
    rewrite decide_False by lia.
    rewrite IH; [cbn; by rewrite <- app_assoc |].
    intros p' Hp'. apply Hall. by right.
Qed.

(** One of the stored checks comes with an interval that is not positive:
    the loop of [Start] ends in the panic of its ticker. *)
Lemma go_checkLoops_panics (stored : list ptr) w :
  (∀ p, p ∈ stored → is_Some (heap w !! p)) →
  (∃ p k, p ∈ stored ∧ heap w !! p = Some k ∧ (Interval k ≤ 0)%Z) →
  (go_checkLoops stored w).1 = Panic NewTicker_panic.
Proof.
  revert w. induction stored as [|p stored IH]; intros w Halloc (p' & k & Hin & Hk & Hi).
  - by apply elem_of_nil in Hin.
  - cbn [go_checkLoops]. unfold go_checkLoop.
    destruct (Halloc p) as [k0 Hk0]; [by left |]. rewrite Hk0.
    destruct (decide (Interval k0 ≤ 0)%Z) as [?|Hpos]; [done |].
    apply IH.
    + intros q Hq. cbn. apply Halloc. by right.
    + exists p', k. apply elem_of_cons in Hin as [->|Hin].
      * rewrite Hk0 in Hk. injection Hk as ->. lia.
      * done.
Qed.

Lemma elem_of_ListChecks c check :
  check ∈ ListChecks c ↔ ∃ id, checks c !! id = Some check.
Proof.
  unfold ListChecks. rewrite list_elem_of_fmap. split.
  - intros ([id p] & -> & Hin). exists id. by apply elem_of_map_to_list.
  - intros [id Hid]. exists (id, check). split; [done |].
    by apply elem_of_map_to_list.
Qed.

(** [Start] on a checker that is not running, when every stored check is
    allocated and comes with a positive interval. *)
Lemma Start_spec c w :
  running c = false →
  (∀ id p, checks c !! id = Some p →
           ∃ k, heap w !! p = Some k ∧ (0 < Interval k)%Z) →
  ∃ started,
    Start c w =
      (Return None, mkChecker (checks c) (stopChan c) true,
       mkWorld (heap w) (clock w) (ticks w) (order w) (S (ranges w))
               (callbacks w) (loops w ++ started)) ∧
    started ≡ₚ ListChecks c.
Proof.
  intros Hrun Hall. unfold Start, range_checks. rewrite Hrun. cbn [checks fst snd].
  set (stored := (range_order _ _).*2).
  assert (Hperm : stored ≡ₚ ListChecks c).
  { subst stored. unfold ListChecks. by rewrite range_order_Permutation. }
  rewrite go_checkLoops_spec.
  - exists stored. done.
  - intros p Hp. rewrite Hperm in Hp. apply elem_of_ListChecks in Hp as [id Hid].
    cbn [heap]. by eapply Hall.
Qed.


End health_more.

(** ** Configuration and construction *)

Section configuration.

Lemma validBackends_spec (backend : string) :
  default false (Config.validBackends !! backend) = true ↔
  backend = "consul" ∨ backend = "etcd" ∨ backend = "dns" ∨ backend = "static".
Proof.
  unfold Config.validBackends.
  destruct (decide (backend = "consul")) as [->|H1]; [by split; [left |] |].
  rewrite lookup_insert_ne by done.
  destruct (decide (backend = "etcd")) as [->|H2]; [by split; [right; left |] |].
  rewrite lookup_insert_ne by done.
  destruct (decide (backend = "dns")) as [->|H3];
    [by split; [right; right; left |] |].
  rewrite lookup_insert_ne by done.
  destruct (decide (backend = "static")) as [->|H4];
    [by split; [right; right; right |] |].
  rewrite lookup_singleton_ne by done. cbn. split; [done |].
  intros [?|[?|[?|?]]]; done.
Qed.

Lemma Validate_backends (c : Config.Config) :
  Config.Validate c = None →
  (Config.fw_Backend (Config.Firewall_ c) = "iptables" ∨
   Config.fw_Backend (Config.Firewall_ c) = "nftables") ∧
  (Config.Enabled (Config.ServiceMesh_ c) = true →
   let backend := Config.disc_Backend (Config.Discovery (Config.ServiceMesh_ c)) in
   backend = "consul" ∨ backend = "etcd" ∨ backend = "dns" ∨ backend = "static").
Proof.
  unfold Config.Validate. cbn zeta.
  destruct (decide (Config.NodeID (Config.Agent c) = "")); [discriminate |].
  destruct (decide (Config.fw_Backend (Config.Firewall_ c) = "iptables")) as [Hi|Hi];
    destruct (decide (Config.fw_Backend (Config.Firewall_ c) = "nftables")) as [Hf|Hf].
  4: { rewrite !bool_decide_eq_true_2 by done. discriminate. }
  all: intros Hok; split; [tauto |]; intros Hen; rewrite Hen in Hok.
  all: apply validBackends_spec.
  all: destruct (_ && _); [discriminate |].
  all: destruct (decide (_ = "")); [discriminate |].
  all: by destruct (default false _).
Qed.

(** X21: the configurations that [Validate] accepts.  [Validate]
    returns [nil] exactly when the node ID is not empty, the firewall
    backend is "iptables" or "nftables", the discovery backend is one of
    "consul", "etcd", "dns" and "static" if the service mesh is enabled
    (it is not looked at otherwise), and the three mTLS files are named
    if mTLS is enabled.  Neither the default policy nor the
    load-balancing strategy is checked. *)
Theorem Validate_accepts_iff (c : Config.Config) :
  Config.Validate c = None ↔
  Config.NodeID (Config.Agent c) ≠ "" ∧
  (Config.fw_Backend (Config.Firewall_ c) = "iptables" ∨
   Config.fw_Backend (Config.Firewall_ c) = "nftables") ∧
  (Config.Enabled (Config.ServiceMesh_ c) = true →
   let backend := Config.disc_Backend (Config.Discovery (Config.ServiceMesh_ c)) in
   backend = "consul" ∨ backend = "etcd" ∨ backend = "dns" ∨ backend = "static") ∧
  (Config.mtls_Enabled (Config.MTLS (Config.Security c)) = true →
   Config.CertFile (Config.MTLS (Config.Security c)) ≠ "" ∧
   Config.KeyFile (Config.MTLS (Config.Security c)) ≠ "" ∧
   Config.CAFile (Config.MTLS (Config.Security c)) ≠ "").
Proof.
  unfold Config.Validate. cbn zeta.
  pose proof (validBackends_spec
                (Config.disc_Backend (Config.Discovery (Config.ServiceMesh_ c))))
    as Hvalid.
  destruct (decide (Config.NodeID (Config.Agent c) = "")) as [Hn|Hn].
  { split; [done | tauto]. }
  assert (Hfw : bool_decide (Config.fw_Backend (Config.Firewall_ c) ≠ "iptables")
                && bool_decide (Config.fw_Backend (Config.Firewall_ c) ≠ "nftables")
                = false ↔
                Config.fw_Backend (Config.Firewall_ c) = "iptables" ∨
                Config.fw_Backend (Config.Firewall_ c) = "nftables").
  { rewrite andb_false_iff, !bool_decide_eq_false.
    destruct (decide (Config.fw_Backend (Config.Firewall_ c) = "iptables"));
      destruct (decide (Config.fw_Backend (Config.Firewall_ c) = "nftables"));
      tauto. }
  destruct (_ && _).
  { split; [done |]. intros (_ & Hb & _). apply Hfw in Hb. discriminate. }
  assert (Hb : Config.fw_Backend (Config.Firewall_ c) = "iptables" ∨
               Config.fw_Backend (Config.Firewall_ c) = "nftables") by by apply Hfw.
  clear Hfw.
  assert (Hmtls :
    bool_decide (Config.CertFile (Config.MTLS (Config.Security c)) = "")
    || bool_decide (Config.KeyFile (Config.MTLS (Config.Security c)) = "")
    || bool_decide (Config.CAFile (Config.MTLS (Config.Security c)) = "") = false ↔
    Config.CertFile (Config.MTLS (Config.Security c)) ≠ "" ∧
    Config.KeyFile (Config.MTLS (Config.Security c)) ≠ "" ∧
    Config.CAFile (Config.MTLS (Config.Security c)) ≠ "").
  { rewrite !orb_false_iff, !bool_decide_eq_false. tauto. }
  assert (Hrest :
    (if Config.mtls_Enabled (Config.MTLS (Config.Security c))
     then
       if bool_decide (Config.CertFile (Config.MTLS (Config.Security c)) = "")
          || bool_decide (Config.KeyFile (Config.MTLS (Config.Security c)) = "")
          || bool_decide (Config.CAFile (Config.MTLS (Config.Security c)) = "")
       then Some "mTLS requires cert_file, key_file, and ca_file"
       else None
     else None) = None ↔
    (Config.mtls_Enabled (Config.MTLS (Config.Security c)) = true →
     Config.CertFile (Config.MTLS (Config.Security c)) ≠ "" ∧
     Config.KeyFile (Config.MTLS (Config.Security c)) ≠ "" ∧
     Config.CAFile (Config.MTLS (Config.Security c)) ≠ "")).
  { destruct (Config.mtls_Enabled _); [|by split].
    destruct (_ || _ || _).
    - split; [done |]. intros Hf. apply Hmtls in Hf; [discriminate | done].
    - split; [|done]. intros _ _. by apply Hmtls. }
  clear Hmtls.
  destruct (Config.Enabled (Config.ServiceMesh_ c)).
  - destruct (decide (Config.disc_Backend
                        (Config.Discovery (Config.ServiceMesh_ c)) = "")) as [He|He].
    { split; [done |]. intros (_ & _ & Hd & _). specialize (Hd eq_refl).
      cbn zeta in Hd. rewrite He in Hd. by destruct Hd as [?|[?|[?|?]]]. }
    destruct (default false _); cbn [negb].
    + rewrite Hrest. split; [|tauto].
      intros Hm. split; [done |]. split; [done |]. split; [|done].
      intros _. by apply Hvalid.
    + split; [done |]. intros (_ & _ & Hd & _). specialize (Hd eq_refl).
      apply Hvalid in Hd. discriminate.
  - rewrite Hrest. split; [|tauto]. intros Hm.
    split; [done |]. split; [done |]. split; [intros [=] | done].
Qed.

Context {I : Type} `{!Firewall.IPTables I}.

(** X22: a configuration that [Validate] accepts is one that [agent.New]
    can build from.  The backend names accepted by [Validate] are names
    that the constructors of the firewall manager and of the service
    registry know, so that [New] on a validated configuration fails only
    if iptables itself cannot be initialised; the agent it returns is not
    running, its firewall store is empty, and it has a service registry
    exactly when the mesh is enabled, with the round-robin selector
    whenever the configured strategy is not one of the other three. *)
Theorem validated_config_constructs (c : Config.Config)
    (env : Agent.Environment I) :
  Config.Validate c = None →
  match Agent.New (Some c) env with
  | inl a =>
      Agent.config a = c ∧ Agent.running a = false ∧
      Firewall.rules (Agent.firewall a).1 = ∅ ∧
      (is_Some (Agent.serviceMesh a) ↔
       Config.Enabled (Config.ServiceMesh_ c) = true) ∧
      ∀ sm w, Agent.serviceMesh a = Some (sm, w) →
              ServiceMesh.services sm = ∅ ∧
              let strategy :=
                Config.Strategy (Config.LoadBalance (Config.ServiceMesh_ c)) in
              (strategy ≠ "least_conn" → strategy ≠ "random" →
               strategy ≠ "weighted" →
               ServiceMesh.loadBalance sm =
                 ServiceMesh.RoundRobin {| ServiceMesh.counter := 0 |})
  | inr msg =>
      ∃ e, Agent.iptables_New env = inr e ∧
           Config.fw_Backend (Config.Firewall_ c) = "iptables" ∧
           msg = "failed to create firewall manager: failed to create firewall backend: failed to initialize iptables: " +:+ e
  end.
Proof.
  intros [Hfw Hdisc]%Validate_backends.
  assert (Hlb : ∀ strategy,
            strategy ≠ "least_conn" → strategy ≠ "random" → strategy ≠ "weighted" →
            ServiceMesh.NewLoadBalancer strategy =
              ServiceMesh.RoundRobin {| ServiceMesh.counter := 0 |}).
  { intros strategy H1 H2 H3. unfold ServiceMesh.NewLoadBalancer.
    repeat case_decide; done. }
  assert (Hmesh : Config.Enabled (Config.ServiceMesh_ c) = true →
                  ∃ w, Agent.servicemesh_NewManager (Config.ServiceMesh_ c) env =
                         inl (ServiceMesh.NewManager
                                (Config.Strategy
                                   (Config.LoadBalance (Config.ServiceMesh_ c)))
                                (Config.disc_Interval
                                   (Config.Discovery (Config.ServiceMesh_ c))),
                              w)).
  { intros Hen. specialize (Hdisc Hen). cbn zeta in Hdisc.
    unfold Agent.servicemesh_NewManager, ServiceMesh.NewDiscovery.
    destruct Hdisc as [-> | [-> | [-> | ->]]]; cbn; by eexists. }
  unfold Agent.New.
  destruct (Agent.firewall_NewManager (Config.Firewall_ c) env) as [fw|e] eqn:Hbuilt.
  - assert (Hrules : Firewall.rules fw.1 = ∅).
    { revert Hbuilt. unfold Agent.firewall_NewManager.
      destruct (Firewall.select_backend _ _); [|discriminate].
      by intros [= <-]. }
    destruct (Config.Enabled (Config.ServiceMesh_ c)).
    + destruct (Hmesh eq_refl) as [w ->]. cbn.
      split; [done |]. split; [done |]. split; [done |].
      split; [split; [done | by eexists] |].
      intros sm w' [= <- <-]. split; [done |]. cbn. apply Hlb.
    + cbn. split; [done |]. split; [done |]. split; [done |].
      split; [split; [by intros [? ?] | done] |]. done.
  - revert Hbuilt. unfold Agent.firewall_NewManager, Firewall.select_backend,
      Firewall.NewIPTablesBackend.
    destruct (decide (Config.fw_Backend (Config.Firewall_ c) = "iptables")) as [Hi|Hi].
    + destruct (Agent.iptables_New env) as [i|e0]; [discriminate |].
      intros [= <-]. by exists e0.
    + destruct (decide (Config.fw_Backend (Config.Firewall_ c) = "nftables"));
        [discriminate | tauto].
Qed.

End configuration.

(** ** The by-ID routes of the API *)

Section api.
Import API.

Lemma Split_nonempty (s : string) (sep : ascii) :
  ∃ part parts, Split s sep = part :: parts.
Proof.
  destruct s as [|a s]; cbn; [by eexists _, _ |].
  destruct (decide (a = sep)); [by eexists _, _ |].
  destruct (Split s sep); by eexists _, _.
Qed.

(** Splitting at a separator that occurs between [s1] and [s2]. *)
Lemma Split_app (s1 s2 : string) (sep : ascii) :
  Split (s1 +:+ String sep s2) sep = Split s1 sep ++ Split s2 sep.
Proof.
  induction s1 as [|a s1 IH].
  - change ("" +:+ String sep s2) with (String sep s2). cbn [Split].
    by rewrite decide_True.
  - change (String a s1 +:+ String sep s2) with (String a (s1 +:+ String sep s2)).
    cbn [Split]. destruct (decide (a = sep)); [by rewrite IH |].
    rewrite IH. destruct (Split_nonempty s1 sep) as (part & parts & ->). done.
Qed.

Lemma Split_no_sep (s : string) (sep : ascii) :
  sep ∉ String.list_ascii_of_string s → Split s sep = [s].
Proof.
  induction s as [|a s IH]; cbn; [done |].
  intros Hnot. rewrite not_elem_of_cons in Hnot. destruct Hnot as [Hne Hnot].
  rewrite decide_False by done. by rewrite IH.
Qed.

(** No part contains the separator. *)
Lemma Split_parts (s : string) (sep : ascii) (part : string) :
  part ∈ Split s sep → sep ∉ String.list_ascii_of_string part.
Proof.
  revert part. induction s as [|a s IH]; intros part; cbn.
  - intros ->%list_elem_of_singleton. cbn. apply not_elem_of_nil.
  - destruct (decide (a = sep)) as [->|Hne].
    + intros [->|Hin]%elem_of_cons; [cbn; apply not_elem_of_nil | by apply IH].
    + destruct (Split_nonempty s sep) as (p & ps & Hs). rewrite Hs in IH |- *.
      intros [->|Hin]%elem_of_cons.
      * cbn. rewrite not_elem_of_cons. split; [done |]. apply IH. by left.
      * apply IH. by right.
Qed.

Lemma path_part_rules (rest : string) :
  path_part (rules_pattern +:+ rest) 5 = head (Split rest "/").
Proof.
  unfold path_part, rules_pattern.
  change ("/api/v1/firewall/rules/" +:+ rest)
    with ("/api/v1/firewall/rules" +:+ String "/" rest).
  rewrite Split_app.
  replace (Split "/api/v1/firewall/rules" "/")
    with [""; "api"; "v1"; "firewall"; "rules"] by (by vm_compute).
  destruct (Split_nonempty rest "/") as (part & parts & ->).
  cbn [app length]. rewrite decide_False by lia. done.
Qed.

Lemma path_part_services (rest : string) :
  path_part (services_pattern +:+ rest) 4 = head (Split rest "/").
Proof.
  unfold path_part, services_pattern.
  change ("/api/v1/services/" +:+ rest)
    with ("/api/v1/services" +:+ String "/" rest).
  rewrite Split_app.
  replace (Split "/api/v1/services" "/")
    with [""; "api"; "v1"; "services"] by (by vm_compute).
  destruct (Split_nonempty rest "/") as (part & parts & ->).
  cbn [app length]. rewrite decide_False by lia. done.
Qed.

Lemma head_Split_segment (segment rest : string) :
  "/"%char ∉ String.list_ascii_of_string segment →
  head (Split segment "/") = Some segment ∧
  head (Split (segment +:+ String "/" rest) "/") = Some segment.
Proof.
  intros Hno. rewrite Split_app, Split_no_sep by done. done.
Qed.

(** X23: the ID that the by-ID handlers read from the path.  For every
    path routed to one of the two handlers (every path that begins with
    its pattern) the handler finds an ID, so the "Invalid ... ID" answer
    is never given; the ID is the text between the pattern and the next
    slash, whatever follows that slash.  A rule or service whose ID
    itself contains a slash can therefore not be addressed: the handler
    looks up a different ID. *)
Theorem ID_read_from_path :
  (∀ rest, is_Some (path_part (rules_pattern +:+ rest) 5) ∧
           is_Some (path_part (services_pattern +:+ rest) 4)) ∧
  (∀ segment rest,
     "/"%char ∉ String.list_ascii_of_string segment →
     path_part (rules_pattern +:+ segment) 5 = Some segment ∧
     path_part (rules_pattern +:+ segment +:+ String "/" rest) 5 = Some segment ∧
     path_part (services_pattern +:+ segment) 4 = Some segment ∧
     path_part (services_pattern +:+ segment +:+ String "/" rest) 4 = Some segment) ∧
  (∀ id,
     "/"%char ∈ String.list_ascii_of_string id →
     path_part (rules_pattern +:+ id) 5 ≠ Some id ∧
     path_part (services_pattern +:+ id) 4 ≠ Some id).
Proof.
  split; [|split].
  - intros rest. rewrite path_part_rules, path_part_services.
    destruct (Split_nonempty rest "/") as (part & parts & ->). by split.
  - intros segment rest Hno.
    rewrite !path_part_rules, !path_part_services.
    destruct (head_Split_segment segment rest Hno) as [-> ->]. done.
  - intros id Hin. rewrite path_part_rules, path_part_services.
    destruct (Split_nonempty id "/") as (part & parts & Hs). rewrite Hs. cbn.
    assert (Hpart : "/"%char ∉ String.list_ascii_of_string part).
    { apply (Split_parts id). rewrite Hs. by left. }
    split; intros [= ->]; done.
Qed.

Context {B : Type} `{!Firewall.Backend B}.

(** X24: the answers of the rule-by-ID handler.  For an ID without a
    slash: GET answers 200 with the stored rule if the ID is stored and
    404 otherwise.  DELETE on a stored ID hands the stored rule to the
    backend, once: if the backend accepts, it answers 204 and the rule is
    removed, after which GET answers 404; if the backend refuses, it
    answers 500 with the backend's error and the rule stays stored.
    DELETE on an ID that is not stored answers 500 as well, without a
    call to the backend (the "rule not found" error of [DeleteRule] is
    not told apart from a backend failure); every other method answers
    405.  Only a DELETE that the backend accepts changes the store. *)
Theorem handleFirewallRuleByID_answers (method id : string)
    (m : Firewall.Manager) (w : Firewall.World B) :
  "/"%char ∉ String.list_ascii_of_string id →
  Firewall.store_allocated m w →
  let r := {| Method := method; URL_Path := rules_pattern +:+ id |} in
  let out := handleFirewallRuleByID r m w in
  (method = "GET" →
   out.2 = w ∧ out.1.2 = m ∧
   match Firewall.rules m !! id with
   | Some rule =>
       out.1.1 = Return {| StatusCode := 200;
                           body := JSONRule (Firewall.heap w !! rule) |}
   | None =>
       out.1.1 = Return {| StatusCode := 404;
                           body := Text ("rule not found: " +:+ id) |}
   end) ∧
  (method = "DELETE" →
   match Firewall.rules m !! id with
   | None =>
       out = (Return {| StatusCode := 500;
                        body := Text ("rule not found: " +:+ id) |}, m, w)
   | Some rule =>
       ∃ rl,
         Firewall.heap w !! rule = Some rl ∧
         let answer := Firewall.backend_DeleteRule rl (Firewall.backend w) in
         Firewall.calls out.2 =
           Firewall.calls w ++ [(Firewall.CallDeleteRule rl, answer.1)] ∧
         Firewall.backend out.2 = answer.2 ∧
         Firewall.heap out.2 = Firewall.heap w ∧
         match answer.1 with
         | None =>
             out.1.1 = Return {| StatusCode := 204; body := NoBody |} ∧
             Firewall.rules out.1.2 = delete id (Firewall.rules m) ∧
             (handleFirewallRuleByID
                {| Method := "GET"; URL_Path := URL_Path r |}
                out.1.2 out.2).1.1 =
               Return {| StatusCode := 404;
                         body := Text ("rule not found: " +:+ id) |}
         | Some e =>
             out.1.1 =
               Return {| StatusCode := 500;
                         body := Text ("failed to delete rule: " +:+ e) |} ∧
             out.1.2 = m
         end
   end) ∧
  (method ≠ "GET" → method ≠ "DELETE" →
   out = (Return {| StatusCode := 405; body := Text "Method not allowed" |}, m, w)).
Proof.
  intros Hno Halloc r out. subst out r.
  unfold handleFirewallRuleByID. cbn [Method URL_Path].
  rewrite path_part_rules, Split_no_sep by done. cbn [head].
  split; [|split].
  - intros ->. rewrite decide_True by done. unfold Firewall.GetRule.
    by destruct (Firewall.rules m !! id).
  - intros ->. rewrite decide_False by done. rewrite decide_True by done.
    unfold Firewall.DeleteRule.
    destruct (Firewall.rules m !! id) as [rule|] eqn:Hrule; [|done].
    destruct (Halloc _ _ Hrule) as [rl Hrl]. rewrite Hrl. exists rl.
    split; [done |]. cbn zeta.
    unfold Firewall.call_DeleteRule, Firewall.backend_step.
    destruct (Firewall.backend_DeleteRule rl (Firewall.backend w)) as [[e|] b];
      cbn; [done |].
    split; [done |]. split; [done |]. split; [done |].
    split; [done |]. split; [done |].
    rewrite decide_True by done. unfold Firewall.GetRule. cbn.
    by rewrite lookup_delete_eq.
  - intros Hget Hdel. by rewrite !decide_False.
Qed.

Context {D : Type} `{!ServiceMesh.Discovery D}.

(** X25: the answers of the service-by-ID handler.  Without a service
    registry (the mesh is not enabled) every request is answered 503,
    whatever its method and path.  With one, and for an ID without a
    slash: GET answers 200 with the stored service or 404.  DELETE on a
    stored ID asks the discovery backend, once, to deregister the ID: if
    the backend accepts, it answers 204 and the service is forgotten; if
    the backend refuses, it answers 500 with the backend's error and the
    service stays stored.  DELETE on an ID that is not stored answers 500
    without a call to the backend; every other method answers 405. *)
Theorem handleServiceByID_answers (method id : string)
    (m : ServiceMesh.Manager) (w : ServiceMesh.World D) :
  "/"%char ∉ String.list_ascii_of_string id →
  let r := {| Method := method; URL_Path := services_pattern +:+ id |} in
  let out := handleServiceByID r (Some m) w in
  (∀ r', handleServiceByID r' None w =
           (Return {| StatusCode := 503; body := Text "Service mesh not enabled" |},
            None, w)) ∧
  (method = "GET" →
   out.2 = w ∧ out.1.2 = Some m ∧
   match ServiceMesh.services m !! id with
   | Some service =>
       out.1.1 = Return {| StatusCode := 200;
                           body := JSONService (ServiceMesh.heap w !! service) |}
   | None =>
       out.1.1 = Return {| StatusCode := 404;
                           body := Text ("service not found: " +:+ id) |}
   end) ∧
  (method = "DELETE" →
   match ServiceMesh.services m !! id with
   | None =>
       out = (Return {| StatusCode := 500;
                        body := Text ("service not found: " +:+ id) |}, Some m, w)
   | Some service =>
       let answer :=
         ServiceMesh.Deregister id (ServiceMesh.heap w) (ServiceMesh.discovery w) in
       ServiceMesh.calls out.2 =
         ServiceMesh.calls w ++ [(ServiceMesh.CallDeregister id, answer.1)] ∧
       ServiceMesh.discovery out.2 = answer.2 ∧
       ServiceMesh.heap out.2 = ServiceMesh.heap w ∧
       match answer.1 with
       | None =>
           out.1.1 = Return {| StatusCode := 204; body := NoBody |} ∧
           ServiceMesh.services <$> out.1.2 =
             Some (delete id (ServiceMesh.services m)) ∧
           (handleServiceByID {| Method := "GET"; URL_Path := URL_Path r |}
              out.1.2 out.2).1.1 =
             Return {| StatusCode := 404;
                       body := Text ("service not found: " +:+ id) |}
       | Some e =>
           out.1.1 =
             Return {| StatusCode := 500;
                       body := Text ("failed to deregister service: " +:+ e) |} ∧
           out.1.2 = Some m
       end
   end) ∧
  (method ≠ "GET" → method ≠ "DELETE" →
   out = (Return {| StatusCode := 405; body := Text "Method not allowed" |},
          Some m, w)).
Proof.
  intros Hno r out. subst out r.
  split; [done |].
  unfold handleServiceByID. cbn [Method URL_Path].
  rewrite path_part_services, Split_no_sep by done. cbn [head].
  split; [|split].
  - intros ->. rewrite decide_True by done. unfold ServiceMesh.GetService.
    by destruct (ServiceMesh.services m !! id).
  - intros ->. rewrite decide_False by done. rewrite decide_True by done.
    unfold ServiceMesh.DeregisterService.
    destruct (ServiceMesh.services m !! id) as [service|] eqn:Hservice; [|done].
    cbn zeta. unfold ServiceMesh.call_Deregister, ServiceMesh.backend_step.
    destruct (ServiceMesh.Deregister id (ServiceMesh.heap w)
                (ServiceMesh.discovery w)) as [[e|] d]; cbn; [done |].
    split; [done |]. split; [done |]. split; [done |].
    split; [done |]. split; [done |].
    rewrite decide_True by done. unfold ServiceMesh.GetService. cbn.
    by rewrite lookup_delete_eq.
  - intros Hget Hdel. by rewrite !decide_False.
Qed.

End api.

(** ** Restarting a component *)

(** X26: none of the three components can be stopped a second time.
    [Stop] closes the stop channel, which is made once by the constructor
    and never again.  With intervals that are positive, so that the loops
    can start: after a [Stop] that returned [nil], [Start] is accepted
    again and marks the component running (for the firewall manager also
    when it fails on a policy), and the [Stop] that follows panics on
    closing the closed channel. *)
Theorem Stop_after_restart_panics :
  (∀ (B : Type) (HB : Firewall.Backend B) (m : Firewall.Manager)
     (w : Firewall.World B),
     (Firewall.Stop m w).1.1 = Return None →
     (0 < Firewall.SyncInterval (Firewall.config m))%Z →
     let stopped := Firewall.Stop m w in
     let started := Firewall.Start stopped.1.2 stopped.2 in
     (∃ res, started.1.1 = Return res) ∧
     Firewall.running started.1.2 = true ∧
     (Firewall.Stop started.1.2 started.2).1.1 = Panic "close of closed channel") ∧
  (∀ (D : Type) (HD : ServiceMesh.Discovery D) (m : ServiceMesh.Manager)
     (w : ServiceMesh.World D),
     (ServiceMesh.Stop m w).1.1 = Return None →
     (0 < ServiceMesh.interval m)%Z →
     let stopped := ServiceMesh.Stop m w in
     let started := ServiceMesh.Start stopped.1.2 stopped.2 in
     started.1.1 = Return None ∧
     ServiceMesh.running started.1.2 = true ∧
     (ServiceMesh.Stop started.1.2 started.2).1.1 =
       Panic "close of closed channel") ∧
  (∀ (c : Health.Checker) (w : Health.World),
     (Health.Stop c w).1.1 = Return None →
     (∀ id p, Health.checks c !! id = Some p →
              ∃ k, Health.heap w !! p = Some k ∧ (0 < Health.Interval k)%Z) →
     let stopped := Health.Stop c w in
     let started := Health.Start stopped.1.2 stopped.2 in
     started.1.1 = Return None ∧
     Health.running started.1.2 = true ∧
     (Health.Stop started.1.2 started.2).1.1 = Panic "close of closed channel").
Proof.
  split; [|split].
  - intros B HB m w Hok Hpos stopped started. subst started stopped.
    assert (Hstopped : Firewall.running (Firewall.Stop m w).1.2 = false ∧
                       Firewall.stopChan (Firewall.Stop m w).1.2 = ChanClosed ∧
                       Firewall.config (Firewall.Stop m w).1.2 = Firewall.config m).
    { revert Hok. unfold Firewall.Stop.
      destruct (Firewall.running m); cbn; [|discriminate].
      by destruct (Firewall.stopChan m). }
    destruct Hstopped as (Hrun & Hchan & Hcfg).
    destruct (Start_marks_running (Firewall.Stop m w).1.2 (Firewall.Stop m w).2 Hrun)
      as (Hres & Hrun' & Hchan' & _).
    split.
    { destruct Hres as [[e ->] | [[_ ->] | [Hneg _]]]; [by eexists.. |].
      rewrite Hcfg in Hneg. lia. }
    split; [done |].
    unfold Firewall.Stop at 1. rewrite Hrun'. cbn [negb].
    cbn [Firewall.stopChan Firewall.set_running]. by rewrite Hchan', Hchan.
  - intros D HD m w Hok Hpos stopped started. subst started stopped.
    assert (Hstopped :
      ServiceMesh.running (ServiceMesh.Stop m w).1.2 = false ∧
      ServiceMesh.stopChan (ServiceMesh.Stop m w).1.2 = ChanClosed ∧
      ServiceMesh.services (ServiceMesh.Stop m w).1.2 = ServiceMesh.services m ∧
      ServiceMesh.interval (ServiceMesh.Stop m w).1.2 = ServiceMesh.interval m ∧
      ∀ p, p ∈ (map_to_list (ServiceMesh.services m)).*2 →
           is_Some (ServiceMesh.heap w !! p)).
    { revert Hok. unfold ServiceMesh.Stop.
      destruct (ServiceMesh.running m); cbn [negb]; [|discriminate].
      destruct (range_services_spec (ServiceMesh.set_running false m) w)
        as (Hperm & Hheap0 & _).
      destruct (ServiceMesh.range_services _ w) as [stored w0].
      cbn [fst snd ServiceMesh.services ServiceMesh.set_running
           ServiceMesh.stopChan] in *.
      pose proof (deregister_all_returned stored w0) as Hret.
      destruct (ServiceMesh.deregister_all _ w0) as [[[]|msg] w1];
        cbn [fst snd] in *; [|discriminate].
      destruct (ServiceMesh.stopChan m); cbn; [|discriminate].
      intros _. split; [done |]. split; [done |]. split; [done |].
      split; [done |]. intros p Hp. rewrite <- Hheap0. apply Hret; [done |].
      by rewrite Hperm. }
    destruct Hstopped as (Hrun & Hchan & Hserv & Hint & Halloc).
    pose proof (proj2 (Start_Stop_heap m w)) as Hheap.
    revert Hrun Hchan Hserv Hint Hheap.
    generalize (ServiceMesh.Stop m w).1.2 (ServiceMesh.Stop m w).2.
    intros m1 w1 Hrun Hchan Hserv Hint Hheap.
    unfold ServiceMesh.Start, ServiceMesh.go_discoveryLoop. rewrite Hrun.
    cbn [ServiceMesh.interval ServiceMesh.set_running]. rewrite Hint.
    rewrite decide_False by lia. cbn [fst snd].
    split; [done |]. split; [done |].
    unfold ServiceMesh.Stop.
    change (ServiceMesh.running (ServiceMesh.set_running true m1)) with true.
    cbn [negb].
    set (m2 := ServiceMesh.set_running false (ServiceMesh.set_running true m1)).
    assert (Hm2 : ServiceMesh.services m2 = ServiceMesh.services m ∧
                  ServiceMesh.stopChan m2 = ChanClosed) by done.
    destruct Hm2 as [Hserv2 Hchan2].
    destruct (range_services_spec m2 (ServiceMesh.spawn_loop w1))
      as (Hperm & Hheap0 & _).
    destruct (ServiceMesh.range_services m2 _) as [stored w0].
    cbn [fst snd] in *.
    destruct (deregister_all_calls stored w0) as (Hret & _).
    { intros p Hp. rewrite Hperm, Hserv2 in Hp.
      rewrite Hheap0. cbn [ServiceMesh.heap ServiceMesh.spawn_loop].
      rewrite Hheap. by apply Halloc. }
    destruct (ServiceMesh.deregister_all _ _) as [res w2]. cbn [fst snd] in *.
    subst res. by rewrite Hchan2.
  - intros c w Hok Hall stopped started. subst started stopped.
    assert (Heq : Health.Stop c w =
                    (Return None,
                     Health.mkChecker (Health.checks c) ChanClosed false, w)).
    { revert Hok. unfold Health.Stop.
      destruct (Health.running c); cbn [negb]; [|discriminate].
      by destruct (Health.stopChan c). }
    rewrite Heq. cbn [fst snd].
    destruct (Start_spec (Health.mkChecker (Health.checks c) ChanClosed false) w)
      as (started & -> & _); [done | exact Hall |].
    done.
Qed.

(** ** The life cycle of the agent *)

(** [Start] of a checker that holds no check, and [Stop] of a registry
    that holds no service. *)
Lemma Health_Start_empty (c : Health.Checker) (w : Health.World) :
  Health.running c = false →
  Health.checks c = ∅ →
  Health.Start c w =
    (Return None, Health.mkChecker ∅ (Health.stopChan c) true,
     (Health.range_checks ∅ w).2).
Proof.
  intros Hrun Hempty. unfold Health.Start, Health.range_checks.
  rewrite Hrun. cbn [Health.checks]. rewrite Hempty, map_to_list_empty. done.
Qed.

Lemma ServiceMesh_Stop_empty {D : Type} `{!ServiceMesh.Discovery D}
    (m : ServiceMesh.Manager) (w : ServiceMesh.World D) :
  ServiceMesh.running m = true →
  ServiceMesh.services m = ∅ →
  ServiceMesh.Stop m w =
    match ServiceMesh.stopChan m with
    | ChanOpen =>
        (Return None,
         ServiceMesh.mkManager (ServiceMesh.interval m) (ServiceMesh.loadBalance m)
           (ServiceMesh.services m) ChanClosed false,
         (ServiceMesh.range_services m w).2)
    | ChanClosed =>
        (Panic "close of closed channel", ServiceMesh.set_running false m,
         (ServiceMesh.range_services m w).2)
    end.
Proof.
  intros Hrun Hempty. unfold ServiceMesh.Stop, ServiceMesh.range_services.
  rewrite Hrun. cbn [negb ServiceMesh.services ServiceMesh.set_running].
  rewrite Hempty, map_to_list_empty. cbn.
  by destruct (ServiceMesh.stopChan m).
Qed.

Section agent_life_cycle.
Context {I : Type} `{!Firewall.IPTables I}.

Implicit Types (a : @Agent.Agent I) (env : Agent.Environment I).

(** Reduce the field reads of an agent after its setters. *)
Local Ltac agent_fields :=
  cbn [Agent.config Agent.firewall Agent.serviceMesh Agent.healthCheck
       Agent.metrics Agent.apiServer Agent.running Agent.stopChan
       Agent.set_firewall Agent.set_serviceMesh Agent.set_healthCheck
       Agent.set_metrics Agent.set_apiServer Agent.set_running fst snd negb].

(** The agent as [New] returns it. *)
Lemma New_inv (cfg : Config.Config) env a :
  Agent.New (Some cfg) env = inl a →
  ∃ fw_world sm,
    a = {| Agent.config := cfg;
           Agent.firewall :=
             (Firewall.NewManager (Config.fw_manager (Config.Firewall_ cfg)),
              fw_world);
           Agent.serviceMesh := sm;
           Agent.healthCheck :=
             (Health.NewChecker,
              {| Health.heap := ∅; Health.clock := Agent.env_clock env;
                 Health.ticks := 0; Health.order := Agent.env_order env;
                 Health.ranges := 0; Health.callbacks := [];
                 Health.loops := [] |});
           Agent.metrics :=
             Metrics.NewManager (Config.mon_Enabled (Config.Monitoring cfg));
           Agent.apiServer := API.NewServer;
           Agent.running := false; Agent.stopChan := ChanOpen |} ∧
    ((Config.Enabled (Config.ServiceMesh_ cfg) = false ∧ sm = None) ∨
     (Config.Enabled (Config.ServiceMesh_ cfg) = true ∧
      ∃ sm_world,
        sm = Some (ServiceMesh.NewManager
                     (Config.Strategy
                        (Config.LoadBalance (Config.ServiceMesh_ cfg)))
                     (Config.disc_Interval
                        (Config.Discovery (Config.ServiceMesh_ cfg))),
                   sm_world))).
Proof.
  unfold Agent.New, Agent.firewall_NewManager, Agent.servicemesh_NewManager.
  destruct (Firewall.select_backend _ _) as [b|e]; [|discriminate].
  destruct (Config.Enabled (Config.ServiceMesh_ cfg)).
  - destruct (ServiceMesh.NewDiscovery _) as [d|e]; [|discriminate].
    intros [= <-]. eexists _, _. split; [done |]. right. split; [done |].
    by eexists.
  - intros [= <-]. eexists _, _. split; [done |]. by left.
Qed.

(** The outcomes of [Start] on an agent that [New] has returned: the
    failure of a default policy, the panic of a loop that cannot start or
    of the registration of the metrics handler, or success. *)
Lemma Start_of_New (cfg : Config.Config) env a :
  Agent.New (Some cfg) env = inl a →
  ∃ m w,
    Firewall.running m = true ∧ Firewall.stopChan m = ChanOpen ∧
    ((∃ e,
        Agent.Start env a =
          (Return (Some ("failed to start firewall manager: failed to set default policies: " +:+ e)),
           Agent.set_firewall (m, w) (Agent.set_running true a))) ∨
     (∃ msg, (Agent.Start env a).1 = Panic msg ∧
             ((msg = NewTicker_panic ∧
               ((Firewall.SyncInterval
                   (Config.fw_manager (Config.Firewall_ cfg)) ≤ 0)%Z ∨
                (Config.Enabled (Config.ServiceMesh_ cfg) = true ∧
                 (Config.disc_Interval
                    (Config.Discovery (Config.ServiceMesh_ cfg)) ≤ 0)%Z))) ∨
              (Config.mon_Enabled (Config.Monitoring cfg) = true ∧
               Agent.metrics_Handle env = Some msg))) ∨
     ((0 < Firewall.SyncInterval (Config.fw_manager (Config.Firewall_ cfg)))%Z ∧
      (Config.Enabled (Config.ServiceMesh_ cfg) = true →
       (0 < Config.disc_Interval
              (Config.Discovery (Config.ServiceMesh_ cfg)))%Z) ∧
      (Config.mon_Enabled (Config.Monitoring cfg) = true →
       Agent.metrics_Handle env = None) ∧
      Agent.Start env a =
       (Return None,
        {| Agent.config := cfg;
           Agent.firewall := (m, w);
           Agent.serviceMesh :=
             match Agent.serviceMesh a with
             | Some (sm, sw) =>
                 Some (ServiceMesh.set_running true sm, ServiceMesh.spawn_loop sw)
             | None => None
             end;
           Agent.healthCheck :=
             (Health.mkChecker ∅ ChanOpen true,
              (Health.range_checks ∅ (Agent.healthCheck a).2).2);
           Agent.metrics :=
             {| Metrics.Enabled := Config.mon_Enabled (Config.Monitoring cfg);
                Metrics.server := Config.mon_Enabled (Config.Monitoring cfg);
                Metrics.running := true |};
           Agent.apiServer := {| API.server := true |};
           Agent.running := true; Agent.stopChan := ChanOpen |}))).
Proof.
  intros (fw_world & sm & -> & Hsm)%New_inv.
  unfold Agent.Start. agent_fields.
  destruct (Start_marks_running
              (Firewall.NewManager (Config.fw_manager (Config.Firewall_ cfg)))
              fw_world eq_refl) as (Hcase & Hrun & Hchan & _).
  cbn [Firewall.config Firewall.NewManager] in Hcase.
  destruct (Firewall.Start _ fw_world) as [[r m] w]. cbn [fst snd] in *.
  exists m, w. split; [done |]. split; [done |].
  destruct Hcase as [[e ->] | [[Hpos ->] | [Hneg ->]]].
  - left. by exists e.
  - agent_fields.
    assert (Hrest :
      ∀ sm',
        let a1 :=
          {| Agent.config := cfg; Agent.firewall := (m, w);
             Agent.serviceMesh := sm';
             Agent.healthCheck :=
               (Health.NewChecker,
                {| Health.heap := ∅; Health.clock := Agent.env_clock env;
                   Health.ticks := 0; Health.order := Agent.env_order env;
                   Health.ranges := 0; Health.callbacks := [];
                   Health.loops := [] |});
             Agent.metrics :=
               Metrics.NewManager (Config.mon_Enabled (Config.Monitoring cfg));
             Agent.apiServer := API.NewServer;
             Agent.running := true; Agent.stopChan := ChanOpen |} in
        let rest :=
          match Health.Start (Agent.healthCheck a1).1 (Agent.healthCheck a1).2 with
          | (Panic msg, c, w) => (Panic msg, Agent.set_healthCheck (c, w) a1)
          | (Return (Some e), c, w) =>
              (Return (Some ("failed to start health checker: " +:+ e)),
               Agent.set_healthCheck (c, w) a1)
          | (Return None, c, w) =>
              let a2 := Agent.set_healthCheck (c, w) a1 in
              match Metrics.Start (Agent.metrics_Handle env) (Agent.metrics a2) with
              | (Panic msg, mm) => (Panic msg, Agent.set_metrics mm a2)
              | (Return (Some e), mm) =>
                  (Return (Some ("failed to start metrics manager: " +:+ e)),
                   Agent.set_metrics mm a2)
              | (Return None, mm) =>
                  let a3 := Agent.set_metrics mm a2 in
                  (Return None,
                   Agent.set_apiServer (API.Server_Start (Agent.apiServer a3)) a3)
              end
          end in
        (∃ msg, rest.1 = Panic msg ∧
                Config.mon_Enabled (Config.Monitoring cfg) = true ∧
                Agent.metrics_Handle env = Some msg) ∨
        ((Config.mon_Enabled (Config.Monitoring cfg) = true →
          Agent.metrics_Handle env = None) ∧
         rest =
           (Return None,
            {| Agent.config := cfg; Agent.firewall := (m, w);
               Agent.serviceMesh := sm';
               Agent.healthCheck :=
                 (Health.mkChecker ∅ ChanOpen true,
                  (Health.range_checks ∅
                     {| Health.heap := ∅; Health.clock := Agent.env_clock env;
                        Health.ticks := 0; Health.order := Agent.env_order env;
                        Health.ranges := 0; Health.callbacks := [];
                        Health.loops := [] |}).2);
               Agent.metrics :=
                 {| Metrics.Enabled := Config.mon_Enabled (Config.Monitoring cfg);
                    Metrics.server := Config.mon_Enabled (Config.Monitoring cfg);
                    Metrics.running := true |};
               Agent.apiServer := {| API.server := true |};
               Agent.running := true; Agent.stopChan := ChanOpen |}))).
    { intros sm' a1 rest. subst rest a1. agent_fields.
      rewrite Health_Start_empty by done. agent_fields.
      unfold Metrics.Start. cbn [Metrics.running Metrics.NewManager Metrics.Enabled].
      destruct (Config.mon_Enabled (Config.Monitoring cfg)); cbn [negb].
      - destruct (Agent.metrics_Handle env) as [msg|].
        + left. by exists msg.
        + right. done.
      - right. done. }
    destruct Hsm as [[Hen ->] | (Hen & sm_world & ->)].
    + cbn [Agent.serviceMesh_Start]. agent_fields.
      destruct (Hrest None) as [(msg & Hmsg & Hon & Hhandle) | [Hpath Heq]].
      * right; left. exists msg. split; [exact Hmsg |]. right. done.
      * right; right. split; [done |]. split; [by rewrite Hen |].
        split; [done |]. exact Heq.
    + unfold Agent.serviceMesh_Start, ServiceMesh.Start,
        ServiceMesh.go_discoveryLoop.
      cbn [ServiceMesh.running ServiceMesh.NewManager ServiceMesh.interval
           ServiceMesh.set_running].
      destruct (decide (Config.disc_Interval _ ≤ 0)%Z) as [Hneg|Hpos'].
      * right; left. exists NewTicker_panic. split; [done |]. left.
        split; [done |]. right. done.
      * agent_fields.
        destruct (Hrest (Some (ServiceMesh.set_running true
                                 (ServiceMesh.NewManager
                                    (Config.Strategy
                                       (Config.LoadBalance (Config.ServiceMesh_ cfg)))
                                    (Config.disc_Interval
                                       (Config.Discovery (Config.ServiceMesh_ cfg)))),
                               ServiceMesh.spawn_loop sm_world)))
          as [(msg & Hmsg & Hon & Hhandle) | [Hpath Heq]].
        -- right; left. exists msg. split; [exact Hmsg |]. right. done.
        -- right; right. split; [done |]. split; [intros _; lia |].
           split; [done |]. exact Heq.
  - right; left. exists NewTicker_panic. split; [done |]. left.
    split; [done |]. left. done.
Qed.

(** [Start] on an agent that is not running, with a firewall manager
    that is not running, no check stored and no service registered, and
    with intervals and a metrics path that let the loops and the metrics
    server start: it returns, and the agent and the firewall manager are
    marked as running. *)
Lemma Start_returns env a :
  Agent.running a = false →
  Firewall.running (Agent.firewall a).1 = false →
  (0 < Firewall.SyncInterval (Firewall.config (Agent.firewall a).1))%Z →
  (Metrics.Enabled (Agent.metrics a) = true → Agent.metrics_Handle env = None) →
  (∀ m w, Agent.serviceMesh a = Some (m, w) →
          ServiceMesh.services m = ∅ ∧ (0 < ServiceMesh.interval m)%Z) →
  Health.checks (Agent.healthCheck a).1 = ∅ →
  (∃ r, (Agent.Start env a).1 = Return r) ∧
  Agent.running (Agent.Start env a).2 = true ∧
  Firewall.running (Agent.firewall (Agent.Start env a).2).1 = true ∧
  Firewall.stopChan (Agent.firewall (Agent.Start env a).2).1 =
    Firewall.stopChan (Agent.firewall a).1 ∧
  (∀ m w, Agent.serviceMesh (Agent.Start env a).2 = Some (m, w) →
          ServiceMesh.services m = ∅).
Proof.
  intros Hrun Hfw Hpos Hpath Hmesh Hchecks. unfold Agent.Start. rewrite Hrun.
  agent_fields.
  destruct (Start_marks_running (Agent.firewall a).1 (Agent.firewall a).2 Hfw)
    as (Hcase & Hrun' & Hchan' & _).
  destruct (Firewall.Start _ _) as [[r m] w]. cbn [fst snd] in *.
  destruct Hcase as [[e ->] | [[_ ->] | [Hneg _]]]; [| |lia].
  { split; [by eexists |]. split; [done |]. split; [done |]. split; [done |].
    intros m' w' Hm'. by apply (Hmesh m' w'). }
  agent_fields.
  assert (Hsm : ∃ r sm', Agent.serviceMesh_Start (Agent.serviceMesh a) = (Return r, sm') ∧
                         ∀ m w, sm' = Some (m, w) → ServiceMesh.services m = ∅).
  { unfold Agent.serviceMesh_Start.
    destruct (Agent.serviceMesh a) as [[sm sw]|] eqn:Hsm.
    - destruct (Hmesh sm sw eq_refl) as [Hempty Hint].
      unfold ServiceMesh.Start, ServiceMesh.go_discoveryLoop.
      destruct (ServiceMesh.running sm).
      + eexists _, _. split; [done |]. by intros m' w' [= <- <-].
      + cbn [ServiceMesh.interval ServiceMesh.set_running].
        rewrite decide_False by lia.
        eexists _, _. split; [done |]. by intros m' w' [= <- <-].
    - eexists _, _. split; [done |]. done. }
  destruct Hsm as (r & sm' & -> & Hempty').
  destruct r as [e|].
  { split; [by eexists |]. done. }
  agent_fields. unfold Health.Start.
  destruct (Health.running (Agent.healthCheck a).1).
  { split; [by eexists |]. done. }
  unfold Health.range_checks. cbn [Health.checks]. rewrite Hchecks, map_to_list_empty.
  cbn [range_order fmap list_fmap Health.go_checkLoops].
  agent_fields. unfold Metrics.Start.
  destruct (Metrics.running (Agent.metrics a)).
  { split; [by eexists |]. done. }
  cbn [Metrics.Enabled]. destruct (Metrics.Enabled (Agent.metrics a)); cbn [negb];
    [rewrite Hpath by done |]; (split; [by eexists |]); done.
Qed.

(** [Stop] on a running agent whose firewall manager is running: if no
    channel has been closed yet and no service is registered it returns,
    with every component stopped and the channel of the firewall manager
    closed. *)
Lemma Stop_returns env a :
  Agent.running a = true →
  Agent.stopChan a = ChanOpen →
  Firewall.running (Agent.firewall a).1 = true →
  Firewall.stopChan (Agent.firewall a).1 = ChanOpen →
  Health.stopChan (Agent.healthCheck a).1 = ChanOpen →
  (∀ m w, Agent.serviceMesh a = Some (m, w) →
          ServiceMesh.services m = ∅ ∧ ServiceMesh.stopChan m = ChanOpen ∧
          (0 < ServiceMesh.interval m)%Z) →
  (∃ r, (Agent.Stop env a).1 = Return r) ∧
  Agent.running (Agent.Stop env a).2 = false ∧
  (Firewall.running (Agent.firewall (Agent.Stop env a).2).1 = false ∧
   Firewall.stopChan (Agent.firewall (Agent.Stop env a).2).1 = ChanClosed ∧
   Firewall.config (Agent.firewall (Agent.Stop env a).2).1 =
     Firewall.config (Agent.firewall a).1) ∧
  (Health.running (Agent.healthCheck (Agent.Stop env a).2).1 = false ∧
   Health.checks (Agent.healthCheck (Agent.Stop env a).2).1 =
     Health.checks (Agent.healthCheck a).1) ∧
  (Metrics.running (Agent.metrics (Agent.Stop env a).2) = false ∧
   Metrics.Enabled (Agent.metrics (Agent.Stop env a).2) =
     Metrics.Enabled (Agent.metrics a)) ∧
  (∀ m w, Agent.serviceMesh (Agent.Stop env a).2 = Some (m, w) →
          ServiceMesh.services m = ∅ ∧ ServiceMesh.running m = false ∧
          (0 < ServiceMesh.interval m)%Z).
Proof.
  intros Hrun Hchan Hfw Hfwchan Hhc Hmesh. unfold Agent.Stop. rewrite Hrun.
  agent_fields.
  assert (Hmm : Metrics.running (Metrics.Stop (Agent.metrics_Close env)
                                   (Agent.metrics a)).2 = false ∧
                Metrics.Enabled (Metrics.Stop (Agent.metrics_Close env)
                                   (Agent.metrics a)).2 =
                  Metrics.Enabled (Agent.metrics a)).
  { unfold Metrics.Stop. destruct (Metrics.running (Agent.metrics a)) eqn:Hr;
      cbn [negb]; [|done].
    cbn. destruct (Metrics.server _); [|done]. by destruct (Agent.metrics_Close env). }
  destruct (Metrics.Stop _ _) as [merr mm]. cbn [snd] in Hmm.
  agent_fields.
  unfold Health.Stop. rewrite Hhc.
  assert (Hsm : ∃ r sm', Agent.serviceMesh_Stop (Agent.serviceMesh a) = (Return r, sm') ∧
                         ∀ m w, sm' = Some (m, w) →
                                ServiceMesh.services m = ∅ ∧
                                ServiceMesh.running m = false ∧
                                (0 < ServiceMesh.interval m)%Z).
  { unfold Agent.serviceMesh_Stop.
    destruct (Agent.serviceMesh a) as [[sm sw]|] eqn:Hsm.
    - destruct (Hmesh sm sw eq_refl) as (Hempty & Hopen & Hint).
      destruct (ServiceMesh.running sm) eqn:Hr.
      + rewrite ServiceMesh_Stop_empty by done. rewrite Hopen.
        eexists _, _. split; [done |]. by intros m' w' [= <- <-].
      + unfold ServiceMesh.Stop. rewrite Hr. cbn [negb].
        eexists _, _. split; [done |]. by intros m' w' [= <- <-].
    - eexists _, _. split; [done |]. done. }
  destruct Hsm as (r & sm' & Hsm & Hempty').
  destruct (Health.running (Agent.healthCheck a).1) eqn:Hhr; agent_fields;
    rewrite Hsm; agent_fields;
    unfold Firewall.Stop; rewrite Hfw; cbn [negb];
    cbn [Firewall.stopChan Firewall.set_running]; rewrite Hfwchan;
    agent_fields; rewrite Hchan;
    destruct (decide (0 < length _)); cbn; (split; [by eexists |]); auto 10.
Qed.

(** [Stop] on a running agent whose firewall manager is running with its
    channel closed panics. *)
Lemma Stop_panics env a :
  Agent.running a = true →
  Firewall.running (Agent.firewall a).1 = true →
  Firewall.stopChan (Agent.firewall a).1 = ChanClosed →
  (∀ m w, Agent.serviceMesh a = Some (m, w) → ServiceMesh.services m = ∅) →
  (Agent.Stop env a).1 = Panic "close of closed channel".
Proof.
  intros Hrun Hfw Hfwchan Hmesh. unfold Agent.Stop. rewrite Hrun.
  agent_fields.
  destruct (Metrics.Stop _ _) as [merr mm].
  agent_fields.
  unfold Health.Stop.
  destruct (Health.running (Agent.healthCheck a).1); cbn [negb fst snd].
  all: try (destruct (Health.stopChan (Agent.healthCheck a).1); [|done]).
  all: agent_fields; unfold Agent.serviceMesh_Stop.
  all: destruct (Agent.serviceMesh a) as [[sm sw]|] eqn:Hsm.
  all: try (specialize (Hmesh sm sw eq_refl);
            destruct (ServiceMesh.running sm) eqn:Hr;
            [rewrite ServiceMesh_Stop_empty by done;
             destruct (ServiceMesh.stopChan sm); [|done]
            |unfold ServiceMesh.Stop; rewrite Hr; cbn [negb]]).
  all: agent_fields;
    unfold Firewall.Stop; rewrite Hfw; cbn [negb];
    cbn [Firewall.stopChan Firewall.set_running]; by rewrite Hfwchan.
Qed.

(** X27: when [Start] of an agent that [New] has returned fails, it has
    failed in the firewall manager, at the default policies.  The agent
    and the firewall manager are left marked as running and no other
    component has been started; a second [Start] is refused; [Stop] then
    stops the firewall manager and reports the components that were never
    started as errors of the shutdown. *)
Theorem failed_Start_then_Stop (cfg : Config.Config) env a e :
  Agent.New (Some cfg) env = inl a →
  (Agent.Start env a).1 = Return (Some e) →
  let started := (Agent.Start env a).2 in
  let stopped := (Agent.Stop env started).2 in
  (∃ e', e = "failed to start firewall manager: failed to set default policies: " +:+ e') ∧
  (Agent.IsRunning started = true ∧
   Firewall.running (Agent.firewall started).1 = true ∧
   Agent.serviceMesh started = Agent.serviceMesh a ∧
   Agent.healthCheck started = Agent.healthCheck a ∧
   Agent.metrics started = Agent.metrics a ∧
   Agent.apiServer started = Agent.apiServer a) ∧
  Agent.Start env started = (Return (Some "agent is already running"), started) ∧
  (Agent.Stop env started).1 =
    Return (Some ("errors during shutdown: " +:+
                  Agent.Sprintf_v
                    (["failed to stop metrics manager: metrics manager is not running";
                      "failed to stop health checker: health checker is not running"] ++
                     match Agent.serviceMesh a with
                     | Some _ =>
                         ["failed to stop service mesh manager: service mesh manager is not running"]
                     | None => []
                     end))) ∧
  Agent.IsRunning stopped = false ∧
  Firewall.running (Agent.firewall stopped).1 = false.
Proof.
  intros Hnew Hst started stopped. subst stopped started.
  destruct (Start_of_New _ _ _ Hnew)
    as (m & w & Hrun & Hchan &
        [[e' Hs] | [(msg & Hs & _) | (_ & _ & _ & Hs)]]);
    rewrite Hs in *; cbn [fst snd] in *; [|discriminate..].
  injection Hst as <-. split; [by exists e' |].
  apply New_inv in Hnew as (fw_world & sm & -> & Hsm).
  destruct m as [c r ch rn]. cbn in Hrun, Hchan. subst rn ch.
  split; [done |]. split; [done |].
  by destruct Hsm as [[_ ->] | (_ & sm_world & ->)].
Qed.

(** X28: when [Start] of an agent that [New] has returned succeeds, the
    sync interval of the firewall and, if the mesh is enabled, the
    discovery interval are positive (their loops have started), the
    metrics handler has been registered if monitoring is enabled, the
    agent and each of its components are running, the metrics server
    exists exactly when monitoring is enabled, and the API server has
    been created.  [Stop] then returns, with the agent and every component
    stopped and the channel of the agent closed; it returns no error
    exactly when closing the API server succeeds and, if monitoring is
    enabled, closing the metrics server succeeds too. *)
Theorem Start_then_Stop (cfg : Config.Config) env a :
  Agent.New (Some cfg) env = inl a →
  (Agent.Start env a).1 = Return None →
  let started := (Agent.Start env a).2 in
  let stopped := (Agent.Stop env started).2 in
  ((0 < Firewall.SyncInterval (Config.fw_manager (Config.Firewall_ cfg)))%Z ∧
   (Config.Enabled (Config.ServiceMesh_ cfg) = true →
    (0 < Config.disc_Interval (Config.Discovery (Config.ServiceMesh_ cfg)))%Z) ∧
   (Config.mon_Enabled (Config.Monitoring cfg) = true →
    Agent.metrics_Handle env = None)) ∧
  (Agent.IsRunning started = true ∧
   Firewall.running (Agent.firewall started).1 = true ∧
   (∀ m w, Agent.serviceMesh started = Some (m, w) → ServiceMesh.running m = true) ∧
   Health.running (Agent.healthCheck started).1 = true ∧
   Metrics.running (Agent.metrics started) = true ∧
   Metrics.server (Agent.metrics started) =
     Config.mon_Enabled (Config.Monitoring cfg) ∧
   API.server (Agent.apiServer started) = true) ∧
  (∃ r, (Agent.Stop env started).1 = Return r ∧
        (r = None ↔
         Agent.api_Close env = None ∧
         (Config.mon_Enabled (Config.Monitoring cfg) = true →
          Agent.metrics_Close env = None))) ∧
  (Agent.IsRunning stopped = false ∧
   Firewall.running (Agent.firewall stopped).1 = false ∧
   (∀ m w, Agent.serviceMesh stopped = Some (m, w) → ServiceMesh.running m = false) ∧
   Health.running (Agent.healthCheck stopped).1 = false ∧
   Metrics.running (Agent.metrics stopped) = false ∧
   Agent.stopChan stopped = ChanClosed).
Proof.
  intros Hnew Hst started stopped. subst stopped started.
  destruct (Start_of_New _ _ _ Hnew)
    as (m & w & Hrun & Hchan &
        [[e' Hs] | [(msg & Hs & _) | (Hfwpos & Hsmpos & Hpath & Hs)]]);
    rewrite Hs in *; cbn [fst snd] in *; [discriminate.. |].
  split; [done |]. clear Hst Hs Hpath Hfwpos Hsmpos.
  apply New_inv in Hnew as (fw_world & sm & -> & Hsm).
  destruct m as [c r ch rn]. cbn in Hrun, Hchan. subst rn ch.
  unfold Agent.Stop, Agent.IsRunning.
  destruct (Agent.api_Close env) as [e1|], (Agent.metrics_Close env) as [e2|],
    (Config.mon_Enabled (Config.Monitoring cfg));
    destruct Hsm as [[_ ->] | (_ & sm_world & ->)]; cbn;
    rewrite ?map_to_list_empty; cbn.
  all: case_decide; [try lia | try lia]; cbn.
  all: split; [repeat split; try done; by intros ?? [= <- <-] |].
  all: split; [eexists; split; [reflexivity |]; intuition congruence |].
  all: repeat split; try done; by intros ?? [= <- <-].
Qed.

(** X29: an agent cannot be started, stopped, started and stopped again.
    With intervals that are positive (the sync interval of the firewall
    and, if the mesh is enabled, the discovery interval) and a metrics
    handler that can be registered if monitoring is enabled, so that
    [Start] does not panic: whatever else the first [Start] of an agent
    that [New] has returned did, the first [Stop] returns and the second
    [Start] returns with the agent running, but the second [Stop] panics
    on a channel that the first one has closed. *)
Theorem agent_restart_panics (cfg : Config.Config) env env1 env2 a :
  Agent.New (Some cfg) env = inl a →
  (0 < Firewall.SyncInterval (Config.fw_manager (Config.Firewall_ cfg)))%Z →
  (Config.Enabled (Config.ServiceMesh_ cfg) = true →
   (0 < Config.disc_Interval (Config.Discovery (Config.ServiceMesh_ cfg)))%Z) →
  (Config.mon_Enabled (Config.Monitoring cfg) = true →
   Agent.metrics_Handle env = None) →
  let stopped := (Agent.Stop env1 (Agent.Start env a).2).2 in
  let restarted := (Agent.Start env stopped).2 in
  (∃ r, (Agent.Stop env1 (Agent.Start env a).2).1 = Return r) ∧
  Agent.IsRunning stopped = false ∧
  (∃ r, (Agent.Start env stopped).1 = Return r) ∧
  Agent.IsRunning restarted = true ∧
  (Agent.Stop env2 restarted).1 = Panic "close of closed channel".
Proof.
  intros Hnew Hfwpos Hsmpos Hpath stopped restarted. subst restarted stopped.
  destruct (Start_of_New _ _ _ Hnew) as (m & w & Hrun & Hchan & Hcase).
  destruct (New_inv _ _ _ Hnew) as (fw_world & sm & Ha & Hsm).
  assert (Hcfg : Firewall.config (Agent.firewall (Agent.Start env a).2).1 =
                 Config.fw_manager (Config.Firewall_ cfg)).
  { subst a. unfold Agent.Start. agent_fields.
    destruct (Start_marks_running
                (Firewall.NewManager (Config.fw_manager (Config.Firewall_ cfg)))
                fw_world eq_refl) as (Hres & _ & _ & Hcfg).
    revert Hres Hcfg.
    destruct (Firewall.Start _ fw_world) as [[r m'] w']. cbn [fst snd].
    intros Hres Hcfg.
    destruct Hres as [[e ->] | [[_ ->] | [Hneg _]]];
      [done | | cbn [Firewall.config Firewall.NewManager] in Hneg; lia].
    agent_fields.
    destruct (Agent.serviceMesh_Start sm) as [[[e|]|msg] sm']; agent_fields;
      [done | | done].
    destruct (Health.Start _ _) as [[[[e|]|msg] c'] hw]; agent_fields;
      [done | | done].
    by destruct (Metrics.Start _ _) as [[[e|]|msg] mm]. }
  assert (Hfirst :
    let started := (Agent.Start env a).2 in
    Agent.running started = true ∧ Agent.stopChan started = ChanOpen ∧
    Firewall.running (Agent.firewall started).1 = true ∧
    Firewall.stopChan (Agent.firewall started).1 = ChanOpen ∧
    Health.stopChan (Agent.healthCheck started).1 = ChanOpen ∧
    Health.checks (Agent.healthCheck started).1 = ∅ ∧
    Metrics.Enabled (Agent.metrics started) =
      Config.mon_Enabled (Config.Monitoring cfg) ∧
    (∀ m w, Agent.serviceMesh started = Some (m, w) →
            ServiceMesh.services m = ∅ ∧ ServiceMesh.stopChan m = ChanOpen ∧
            (0 < ServiceMesh.interval m)%Z)).
  { clear Hcfg.
    destruct Hcase
      as [[e ->] | [(msg & _ & [[_ [Hneg | [Hen Hneg]]] | [Hon Hmsg]]) |
                    (_ & _ & _ & ->)]];
      [| lia | specialize (Hsmpos Hen); lia | by rewrite (Hpath Hon) in Hmsg |];
      subst a; cbn [snd]; agent_fields;
      do 7 (split; [done |]);
      destruct Hsm as [[_ ->] | (Hen & sm_world & ->)]; try done;
      intros m' w' [= <- <-]; specialize (Hsmpos Hen); done. }
  destruct Hfirst
    as (Hrun0 & Hchan0 & Hfw0 & Hfwchan0 & Hhc0 & Hchecks0 & Hon0 & Hmesh0).
  destruct (Stop_returns env1 _ Hrun0 Hchan0 Hfw0 Hfwchan0 Hhc0 Hmesh0)
    as (Hret1 & Hrun1 & (Hfw1 & Hfwchan1 & Hcfg1) & [_ Hchecks1] & [_ Hon1] &
        Hmesh1).
  rewrite Hon0 in Hon1. rewrite <- Hon1 in Hpath.
  rewrite Hchecks0 in Hchecks1. rewrite Hcfg in Hcfg1.
  rewrite <- Hcfg1 in Hfwpos.
  destruct (Start_returns env _ Hrun1 Hfw1 Hfwpos Hpath
              (λ m w Hm, conj (proj1 (Hmesh1 m w Hm))
                              (proj2 (proj2 (Hmesh1 m w Hm))))
              Hchecks1)
    as (Hret2 & Hrun2 & Hfw2 & Hfwchan2 & Hmesh2).
  split; [exact Hret1 |]. split; [exact Hrun1 |].
  split; [exact Hret2 |]. split; [exact Hrun2 |].
  apply Stop_panics; [done | done | by rewrite Hfwchan2 | done].
Qed.

End agent_life_cycle.

(** ** Concrete runs *)

Section firewall_more_runs.
Import Firewall.

(** The DOCKER chain cannot be written: the first configured rule is not
    installed, [Start] returns [nil] all the same and only the second
    rule is stored. *)
Lemma Start_ignores_failed_config_rules_witness :
  let m := NewManager two_rules in
  let w := world_of ∅ docker_locked in
  (setDefaultPolicies m w).1 = None ∧
  (Start m w).1.1 = Return None ∧
  running (Start m w).1.2 = true ∧
  loops (Start m w).2 = 1 ∧
  (drop 3 (calls (Start m w).2)).*2 =
    [Some "failed to add iptables rule: resource temporarily unavailable"; None] ∧
  length (ListRules (Start m w).1.2) = 1.
Proof.
  intros m w.
  assert (Hpol : (setDefaultPolicies m w).1 = None) by (by vm_compute).
  assert (Hpos : (0 < SyncInterval (config m))%Z) by (by vm_compute).
  destruct (Start_ignores_failed_config_rules m w eq_refl Hpos Hpol)
    as (new & Hret & Hrun & Hloops & _).
  split; [exact Hpol |]. split; [exact Hret |]. split; [exact Hrun |].
  split; [exact Hloops |]. split; by vm_compute.
Defined.

Lemma Start_failure_stays_running_witness :
  let m := NewManager no_config in
  let w := world_of ∅ (mkFakeBackend [] true) in
  (Start m w).1.1 =
    Return (Some "failed to set default policies: failed to set default policy for INPUT: backend unavailable") ∧
  running (Start m w).1.2 = true ∧
  loops (Start m w).2 = 0 ∧
  (Start (Start m w).1.2 (Start m w).2).1.1 =
    Return (Some "firewall manager is already running").
Proof.
  intros m w.
  assert (Hpol : (setDefaultPolicies m w).1 =
                   Some "failed to set default policy for INPUT: backend unavailable")
    by (by vm_compute).
  destruct (Start_failure_stays_running m w _ eq_refl Hpol)
    as (Hret & Hm & _ & Hloops & Hagain).
  split; [exact Hret |]. split; [by rewrite Hm |].
  split; [exact Hloops | exact Hagain].
Defined.

Lemma sync_readds_every_stored_rule_witness :
  store_allocated two_stored.1 two_stored.2 ∧
  (sync two_stored.1 two_stored.2).1 = Return None ∧
  (∃ readded,
     issued_by_sync two_stored.1 two_stored.2 =
       CallListRules :: (CallAddRule <$> readded) ∧
     readded ≡ₚ [allow_ssh; allow_web]) ∧
  length (issued_by_sync two_stored.1 two_stored.2) = 3.
Proof.
  assert (Halloc : store_allocated two_stored.1 two_stored.2).
  { intros id rule Hid. apply elem_of_map_to_list in Hid.
    replace (map_to_list (rules two_stored.1))
      with [("web", 2%positive); ("allow-ssh", 1%positive)] in Hid
      by (by vm_compute).
    apply elem_of_cons in Hid as [[= -> ->]|Hid]; [by eexists |].
    apply elem_of_cons in Hid as [[= -> ->]|Hid]; [by eexists |].
    by apply elem_of_nil in Hid. }
  destruct (sync_readds_every_stored_rule two_stored.1 two_stored.2 Halloc)
    as (Hret & _ & (readded & Hissued & Hperm) & Hlen).
  split; [exact Halloc |]. split; [exact Hret |].
  split; [| exact Hlen].
  exists readded. split; [exact Hissued |].
  etrans; [exact Hperm |].
  replace (omap (λ rule, heap two_stored.2 !! rule) (ListRules two_stored.1))
    with [allow_web; allow_ssh] by (by vm_compute).
  apply perm_swap.
Defined.

Lemma AddRule_then_DeleteRule_witness :
  let m := NewManager no_config in
  let w := world_of {[1%positive := allow_ssh]} (mkFakeBackend [] false) in
  ∃ r',
    heap (AddRule 1%positive m w).2 !! 1%positive = Some r' ∧
    ID r' = "allow-ssh" ∧
    GetRule (ID r') (AddRule 1%positive m w).1.2 = (Some 1%positive, None).
Proof.
  intros m w.
  destruct (AddRule_then_DeleteRule 1%positive m w allow_ssh)
    as (r' & err & Hr' & _ & Hkeep & Hget & _).
  - reflexivity.
  - by vm_compute.
  - exists r'. split; [exact Hr' |]. split; [by apply Hkeep | exact Hget].
Defined.

Lemma Start_stores_each_config_rule_witness :
  let m := NewManager two_rules in
  let w := world_of ∅ (mkFakeBackend [] false) in
  all_succeeded (Start m w).2 ∧
  (Start m w).1.1 = Return None ∧
  length (ListRules (Start m w).1.2) = 2.
Proof.
  intros m w.
  assert (Hall : all_succeeded (Start m w).2) by (vm_compute; repeat constructor).
  destruct (Start_stores_each_config_rule m w) as (Hret & Hlen & _).
  - reflexivity.
  - reflexivity.
  - by vm_compute.
  - intros i j Hij. cbn in Hij. unfold wall_clock in Hij. lia.
  - exact Hall.
  - split; [exact Hall |]. split; [exact Hret | exact Hlen].
Defined.

End firewall_more_runs.

Section servicemesh_more_runs.
Import ServiceMesh.

Lemma RegisterService_then_DeregisterService_witness :
  let m := NewManager "round_robin" (10 * Second)%Z in
  let w := world_of {[1%positive := web1]} NewStaticDiscovery in
  ∃ s',
    heap (RegisterService 1%positive m w).2 !! 1%positive = Some s' ∧
    ID s' = "S1" ∧
    GetService (ID s') (RegisterService 1%positive m w).1.2 = (Some 1%positive, None).
Proof.
  intros m w.
  destruct (RegisterService_then_DeregisterService 1%positive m w web1)
    as (s' & err & Hs' & _ & Hkeep & Hget & _).
  - reflexivity.
  - by vm_compute.
  - exists s'. split; [exact Hs' |]. split; [by apply Hkeep | exact Hget].
Defined.

Lemma two_running_allocated :
  ∀ id service,
    services two_running.1 !! id = Some service →
    is_Some (heap two_running.2 !! service).
Proof.
  intros id service Hid. apply elem_of_map_to_list in Hid.
  replace (map_to_list (services two_running.1))
    with [("S1", 1%positive); ("S2", 2%positive)] in Hid by (by vm_compute).
  apply elem_of_cons in Hid as [[= -> ->]|Hid]; [vm_compute; by eexists |].
  apply elem_of_cons in Hid as [[= -> ->]|Hid]; [vm_compute; by eexists |].
  by apply elem_of_nil in Hid.
Qed.

Lemma Stop_deregisters_and_keeps_the_store_witness :
  (Stop two_running.1 two_running.2).1.1 = Return None ∧
  ListServices (Stop two_running.1 two_running.2).1.2 ≡ₚ
    [1%positive; 2%positive] ∧
  ∃ deregistered,
    (calls (Stop two_running.1 two_running.2).2).*1 =
      CallDeregister <$> deregistered ∧
    deregistered ≡ₚ ["S1"; "S2"].
Proof.
  destruct (Stop_deregisters_and_keeps_the_store two_running.1 two_running.2)
    as (Hret & Hserv & _ & _ & deregistered & Hcalls & Hperm).
  - reflexivity.
  - reflexivity.
  - exact two_running_allocated.
  - split; [exact Hret |]. split; [by vm_compute |].
    exists deregistered. split; [exact Hcalls |].
    etrans; [exact Hperm |]. by vm_compute.
Defined.

Lemma syncDiscovery_static_duplicates_witness :
  (DiscoverService "web" two_running.2).1.1.*1 = [1%positive; 2%positive] ∧
  ∃ again,
    (DiscoverService "web" (syncDiscovery two_running.1 two_running.2).2).1 =
      ((DiscoverService "web" two_running.2).1.1 ++ again, None) ∧
    again ≡ₚ [(1%positive, web1); (2%positive, web2)].
Proof.
  destruct (syncDiscovery_static_duplicates two_running.1 two_running.2 "web"
              two_running_allocated) as (_ & _ & again & Hfound & Hperm).
  split; [by vm_compute |].
  exists again. split; [exact Hfound |].
  etrans; [exact Hperm |]. by vm_compute.
Defined.

Lemma deregistered_service_stays_discoverable_witness :
  let m := NewManager "round_robin" (10 * Second)%Z in
  let w := world_of {[1%positive := web1]} NewStaticDiscovery in
  let r1 := RegisterService 1%positive m w in
  let r2 := syncDiscovery r1.1.2 r1.2 in
  let r3 := DeregisterService "S1" r1.1.2 r2.2 in
  r3.1.1 = Return None ∧
  ListServices r3.1.2 = [] ∧
  (DiscoverService "web" r3.2).1.1.*1 = [1%positive].
Proof.
  intros m w r1 r2 r3.
  destruct (deregistered_service_stays_discoverable 1%positive m w web1)
    as (s' & Hs' & _ & _ & _ & Hret & _ & _).
  - reflexivity.
  - intros id p Hid. change (services m) with (∅ : gmap string ptr) in Hid.
    by rewrite lookup_empty in Hid.
  - assert (Hid : ID s' = "S1").
    { vm_compute in Hs'. by injection Hs' as <-. }
    rewrite Hid in Hret. split; [exact Hret |]. split; by vm_compute.
Defined.

Lemma RoundRobin_window_serves_all_witness :
  let candidates := [(1%positive, web1); (2%positive, web2)] in
  (RoundRobin_calls 2 candidates {| counter := 4 |}).1 =
    [(Some (2%positive, web2), None); (Some (1%positive, web1), None)] ∧
  (RoundRobin_calls 2 candidates {| counter := 4 |}).1 ≡ₚ
    (λ s, (Some s, None)) <$> candidates.
Proof.
  intros candidates.
  destruct (RoundRobin_window_serves_all candidates {| counter := 4 |})
    as [Hrot Hperm].
  - done.
  - cbn. lia.
  - cbn. lia.
  - split; [by vm_compute | exact Hperm].
Defined.

Lemma LeastConn_Select_then_Release_witness :
  let candidates := [(1%positive, web1); (2%positive, web2)] in
  let lb := {| connections := ∅ |} in
  (LeastConn_Select candidates lb).1 = (Some (1%positive, web1), None) ∧
  conn_of (connections (LeastConn_Select candidates lb).2) "S1" = 1%Z ∧
  ∀ id,
    conn_of (connections
               (LeastConn_ReleaseConnection "S1" (LeastConn_Select candidates lb).2))
            id = 0%Z.
Proof.
  intros candidates lb.
  destruct (LeastConn_Select_then_Release candidates lb
              (LeastConn_Select candidates lb).2 0 (1%positive, web1))
    as (_ & Hone & Hback).
  - unfold MaxInt64. lia.
  - intros id c Hid. change (connections lb) with (∅ : gmap string Z) in Hid.
    by rewrite lookup_empty in Hid.
  - by vm_compute.
  - split; [by vm_compute |]. split; [exact Hone |].
    intros id. etrans; [exact (Hback id) |].
    change (connections lb) with (∅ : gmap string Z).
    unfold conn_of. by rewrite lookup_empty.
Defined.

End servicemesh_more_runs.

Section health_more_runs.
Import Health.

Lemma unknown_type_stays_passing_witness :
  let st := AddCheck 1%positive NewChecker (world_with mistyped_check) in
  st.1.1 = Return None ∧
  ∃ k',
    heap (performChecks 1%positive [net_down; net_down; net_down; net_down] st.2)
      !! 1%positive = Some k' ∧
    Status k' = StatusPassing ∧
    callbacks (performChecks 1%positive [net_down; net_down; net_down; net_down] st.2)
      = [].
Proof.
  intros st.
  destruct (unknown_type_stays_passing 1%positive NewChecker
              (world_with mistyped_check) mistyped_check
              [net_down; net_down; net_down; net_down])
    as (Hret & k' & Hk' & Hst & _ & Hcb).
  - reflexivity.
  - discriminate.
  - discriminate.
  - discriminate.
  - split; [apply Hret; discriminate |].
    exists k'. split; [exact Hk' |]. split; [exact Hst | exact Hcb].
Defined.

Lemma callback_invoked_on_every_tick_witness :
  ∃ statuses,
    callbacks (performChecks 1%positive [net_up; net_up; net_up] new_world) =
      (λ status, (0, status)) <$> statuses ∧
    length statuses = 3.
Proof.
  destruct (callback_invoked_on_every_tick 1%positive [net_up; net_up; net_up]
              new_world new_check 0)
    as (k' & statuses & _ & Hcbs & Hlen & _).
  - reflexivity.
  - reflexivity.
  - by left.
  - exists statuses. split; [exact Hcbs | exact Hlen].
Defined.

Lemma grpc_check_always_passes_witness :
  ∃ k',
    heap (performChecks 1%positive [net_down] (world_with grpc_check))
      !! 1%positive = Some k' ∧
    Status k' = StatusPassing ∧ Failures k' = 0%Z.
Proof.
  apply (grpc_check_always_passes 1%positive [net_down] (world_with grpc_check)
           grpc_check); [reflexivity | reflexivity | discriminate].
Defined.

Lemma http_check_passes_iff_2xx_witness :
  fails net_redirect new_check ∧ ¬ passes net_redirect new_check ∧
  passes net_up new_check.
Proof.
  destruct (http_check_passes_iff_2xx net_redirect new_check eq_refl)
    as [Hpass Hfail].
  destruct (http_check_passes_iff_2xx net_up new_check eq_refl) as [Hpass' _].
  split; [|split].
  - apply Hfail. right. exists 301%Z. split; [reflexivity | lia].
  - intros (code & [= <-] & Hcode)%Hpass. lia.
  - apply Hpass'. exists 200%Z. split; [reflexivity | lia].
Defined.


End health_more_runs.

Section configuration_runs.

Lemma validated_config_constructs_witness :
  let env : Agent.Environment Firewall.FakeIPTables :=
    {| Agent.iptables_New := inr "iptables not found";
       Agent.env_clock := Firewall.wall_clock; Agent.env_rand := λ n, Z.of_nat n;
       Agent.env_order := λ n, n; Agent.metrics_Handle := None;
       Agent.metrics_Close := None; Agent.api_Close := None |} in
  Config.Validate Config.example = None ∧
  ∃ a sm w,
    Agent.New (Some Config.example) env = inl a ∧
    Agent.serviceMesh a = Some (sm, w) ∧
    ServiceMesh.loadBalance sm =
      ServiceMesh.RoundRobin {| ServiceMesh.counter := 0 |}.
Proof.
  intros env.
  assert (Hvalid : Config.Validate Config.example = None) by (by vm_compute).
  split; [exact Hvalid |].
  pose proof (validated_config_constructs Config.example env Hvalid) as Hnew.
  destruct (Agent.New _ _) as [a|msg].
  - destruct Hnew as (_ & _ & _ & [_ Hsome] & Hmesh).
    destruct (Hsome eq_refl) as [[sm w] Hsm].
    exists a, sm, w. split; [reflexivity |]. split; [exact Hsm |].
    by apply (Hmesh sm w Hsm).
  - destruct Hnew as (e & _ & Habs & _). discriminate.
Defined.

End configuration_runs.

Section api_runs.
Import API.

Lemma no_slash_web : "/"%char ∉ String.list_ascii_of_string "web".
Proof.
  intros Hin. cbn in Hin.
  repeat (apply elem_of_cons in Hin as [?|Hin]; [discriminate |]).
  by apply elem_of_nil in Hin.
Qed.

Lemma no_slash_S1 : "/"%char ∉ String.list_ascii_of_string "S1".
Proof.
  intros Hin. cbn in Hin.
  repeat (apply elem_of_cons in Hin as [?|Hin]; [discriminate |]).
  by apply elem_of_nil in Hin.
Qed.

Lemma ID_read_from_path_witness :
  path_part "/api/v1/firewall/rules/web" 5 = Some "web" ∧
  path_part "/api/v1/firewall/rules/web/comment" 5 = Some "web" ∧
  path_part "/api/v1/services/S1" 4 = Some "S1".
Proof.
  destruct (proj1 (proj2 ID_read_from_path) "web" "comment" no_slash_web)
    as (Hrule & Hrest & _).
  destruct (proj1 (proj2 ID_read_from_path) "S1" "" no_slash_S1)
    as (_ & _ & Hservice & _).
  split; [exact Hrule |]. split; [exact Hrest | exact Hservice].
Defined.

Lemma handleFirewallRuleByID_answers_witness :
  Firewall.store_allocated Firewall.two_stored.1 Firewall.two_stored.2 ∧
  (handleFirewallRuleByID
     {| Method := "GET"; URL_Path := "/api/v1/firewall/rules/web" |}
     Firewall.two_stored.1 Firewall.two_stored.2).1.1 =
    Return {| StatusCode := 200; body := JSONRule (Some Firewall.allow_web) |} ∧
  (handleFirewallRuleByID
     {| Method := "PUT"; URL_Path := "/api/v1/firewall/rules/web" |}
     Firewall.two_stored.1 Firewall.two_stored.2).1.1 =
    Return {| StatusCode := 405; body := Text "Method not allowed" |}.
Proof.
  assert (Halloc : Firewall.store_allocated Firewall.two_stored.1 Firewall.two_stored.2).
  { intros id rule Hid. apply elem_of_map_to_list in Hid.
    replace (map_to_list (Firewall.rules Firewall.two_stored.1))
      with [("web", 2%positive); ("allow-ssh", 1%positive)] in Hid
      by (by vm_compute).
    apply elem_of_cons in Hid as [[= -> ->]|Hid]; [by eexists |].
    apply elem_of_cons in Hid as [[= -> ->]|Hid]; [by eexists |].
    by apply elem_of_nil in Hid. }
  split; [exact Halloc |]. split.
  - destruct (proj1 (handleFirewallRuleByID_answers "GET" "web"
                       Firewall.two_stored.1 Firewall.two_stored.2
                       no_slash_web Halloc) eq_refl) as (_ & _ & Hres).
    exact Hres.
  - pose proof (proj2 (proj2 (handleFirewallRuleByID_answers "PUT" "web"
                                Firewall.two_stored.1 Firewall.two_stored.2
                                no_slash_web Halloc))) as Hres.
    change "/api/v1/firewall/rules/web" with (rules_pattern +:+ "web").
    rewrite Hres; [reflexivity | discriminate | discriminate].
Defined.

Lemma handleServiceByID_answers_witness :
  (handleServiceByID
     {| Method := "DELETE"; URL_Path := "/api/v1/services/S1" |}
     None ServiceMesh.two_running.2).1.1 =
    Return {| StatusCode := 503; body := Text "Service mesh not enabled" |} ∧
  (handleServiceByID
     {| Method := "PATCH"; URL_Path := "/api/v1/services/S1" |}
     (Some ServiceMesh.two_running.1) ServiceMesh.two_running.2).1.1 =
    Return {| StatusCode := 405; body := Text "Method not allowed" |}.
Proof.
  pose proof (handleServiceByID_answers "PATCH" "S1" ServiceMesh.two_running.1
                ServiceMesh.two_running.2 no_slash_S1) as (Hnil & _ & _ & Hother).
  split; [by rewrite Hnil |].
  change "/api/v1/services/S1" with (services_pattern +:+ "S1").
  rewrite Hother; [reflexivity | discriminate | discriminate].
Defined.

End api_runs.

Lemma Stop_after_restart_panics_witness :
  let fw := Firewall.Start (Firewall.NewManager Firewall.no_config)
              (Firewall.world_of ∅ Firewall.mkNFTablesBackend) in
  let fw' := Firewall.Stop fw.1.2 fw.2 in
  let fw'' := Firewall.Start fw'.1.2 fw'.2 in
  let sm' := ServiceMesh.Stop ServiceMesh.two_running.1 ServiceMesh.two_running.2 in
  let sm'' := ServiceMesh.Start sm'.1.2 sm'.2 in
  let hc := Health.Start Health.NewChecker Health.new_world in
  let hc' := Health.Stop hc.1.2 hc.2 in
  let hc'' := Health.Start hc'.1.2 hc'.2 in
  fw'.1.1 = Return None ∧
  (Firewall.Stop fw''.1.2 fw''.2).1.1 = Panic "close of closed channel" ∧
  sm'.1.1 = Return None ∧
  (ServiceMesh.Stop sm''.1.2 sm''.2).1.1 = Panic "close of closed channel" ∧
  hc'.1.1 = Return None ∧
  (Health.Stop hc''.1.2 hc''.2).1.1 = Panic "close of closed channel".
Proof.
  intros fw fw' fw'' sm' sm'' hc hc' hc''.
  assert (Hfw : fw'.1.1 = Return None) by reflexivity.
  assert (Hsm : sm'.1.1 = Return None) by (by vm_compute).
  assert (Hhc : hc'.1.1 = Return None) by reflexivity.
  assert (Hfwpos : (0 < Firewall.SyncInterval (Firewall.config fw.1.2))%Z)
    by (by vm_compute).
  assert (Hsmpos : (0 < ServiceMesh.interval ServiceMesh.two_running.1)%Z)
    by (by vm_compute).
  assert (Hhcpos : ∀ id p, Health.checks hc.1.2 !! id = Some p →
                     ∃ k, Health.heap hc.2 !! p = Some k ∧
                          (0 < Health.Interval k)%Z).
  { intros id p Hid. change (Health.checks hc.1.2) with (∅ : gmap string ptr) in Hid.
    by rewrite lookup_empty in Hid. }
  destruct Stop_after_restart_panics as (Hfirewall & Hmesh & Hhealth).
  destruct (Hfirewall _ _ fw.1.2 fw.2 Hfw Hfwpos) as (_ & _ & Hfw2).
  destruct (Hmesh _ _ ServiceMesh.two_running.1 ServiceMesh.two_running.2
              Hsm Hsmpos) as (_ & _ & Hsm2).
  destruct (Hhealth hc.1.2 hc.2 Hhc Hhcpos) as (_ & _ & Hhc2).
  split; [exact Hfw |]. split; [exact Hfw2 |].
  split; [exact Hsm |]. split; [exact Hsm2 |].
  split; [exact Hhc |]. exact Hhc2.
Defined.

Section agent_runs.

Lemma failed_Start_then_Stop_witness :
  ∃ a,
    Agent.New (Some Config.example_iptables) Agent.input_locked = inl a ∧
    (Agent.Start Agent.input_locked a).1 =
      Return (Some "failed to start firewall manager: failed to set default policies: failed to set default policy for INPUT: failed to set policy: resource temporarily unavailable") ∧
    Agent.IsRunning (Agent.Start Agent.input_locked a).2 = true ∧
    (Agent.Stop Agent.input_locked (Agent.Start Agent.input_locked a).2).1 =
      Return (Some "errors during shutdown: [failed to stop metrics manager: metrics manager is not running failed to stop health checker: health checker is not running failed to stop service mesh manager: service mesh manager is not running]") ∧
    Agent.IsRunning
      (Agent.Stop Agent.input_locked (Agent.Start Agent.input_locked a).2).2 = false.
Proof.
  eexists. split; [reflexivity |].
  match goal with
  | |- (Agent.Start _ ?a).1 = Return (Some ?e) ∧ _ =>
      assert (Hst : (Agent.Start Agent.input_locked a).1 = Return (Some e))
        by (by vm_compute);
      destruct (failed_Start_then_Stop Config.example_iptables Agent.input_locked
                  a e eq_refl Hst)
        as (_ & (Hrun & _) & _ & Hstop & Hstopped & _)
  end.
  split; [exact Hst |]. split; [exact Hrun |].
  split; [| exact Hstopped].
  etrans; [exact Hstop |]. by vm_compute.
Defined.

Lemma Start_then_Stop_witness :
  ∃ a,
    Agent.New (Some Config.example) Agent.calm = inl a ∧
    (Agent.Start Agent.calm a).1 = Return None ∧
    (0 < Firewall.SyncInterval
           (Config.fw_manager (Config.Firewall_ Config.example)))%Z ∧
    Agent.IsRunning (Agent.Start Agent.calm a).2 = true ∧
    (Agent.Stop Agent.calm (Agent.Start Agent.calm a).2).1 = Return None ∧
    Agent.stopChan (Agent.Stop Agent.calm (Agent.Start Agent.calm a).2).2 =
      ChanClosed.
Proof.
  eexists. split; [reflexivity |].
  match goal with
  | |- (Agent.Start _ ?a).1 = _ ∧ _ =>
      assert (Hst : (Agent.Start Agent.calm a).1 = Return None) by (by vm_compute);
      destruct (Start_then_Stop Config.example Agent.calm a eq_refl Hst)
        as ((Hfwpos & _) & (Hrun & _) & (r & Hstop & Hnil) &
            (_ & _ & _ & _ & _ & Hchan))
  end.
  split; [exact Hst |]. split; [exact Hfwpos |]. split; [exact Hrun |].
  split; [| exact Hchan].
  rewrite Hstop. f_equal. apply Hnil. by split.
Defined.

Lemma agent_restart_panics_witness :
  ∃ a,
    Agent.New (Some Config.example) Agent.calm = inl a ∧
    (0 < Firewall.SyncInterval
           (Config.fw_manager (Config.Firewall_ Config.example)))%Z ∧
    (Config.Enabled (Config.ServiceMesh_ Config.example) = true →
     (0 < Config.disc_Interval
            (Config.Discovery (Config.ServiceMesh_ Config.example)))%Z) ∧
    (Config.mon_Enabled (Config.Monitoring Config.example) = true →
     Agent.metrics_Handle Agent.calm = None) ∧
    (Agent.Stop Agent.api_stuck
       (Agent.Start Agent.calm
          (Agent.Stop Agent.api_stuck (Agent.Start Agent.calm a).2).2).2).1 =
      Panic "close of closed channel".
Proof.
  eexists. split; [reflexivity |].
  assert (Hpath : Config.mon_Enabled (Config.Monitoring Config.example) = true →
                  Agent.metrics_Handle Agent.calm = None) by done.
  assert (Hfwpos : (0 < Firewall.SyncInterval
                           (Config.fw_manager (Config.Firewall_ Config.example)))%Z)
    by (by vm_compute).
  assert (Hsmpos : Config.Enabled (Config.ServiceMesh_ Config.example) = true →
                   (0 < Config.disc_Interval
                          (Config.Discovery (Config.ServiceMesh_ Config.example)))%Z)
    by (intros _; by vm_compute).
  split; [exact Hfwpos |]. split; [exact Hsmpos |].
  split; [exact Hpath |].
  match goal with
  | |- (Agent.Stop _ (Agent.Start _ (Agent.Stop _ (Agent.Start _ ?a).2).2).2).1 = _ =>
      exact (proj2 (proj2 (proj2 (proj2
               (agent_restart_panics Config.example Agent.calm Agent.api_stuck
                  Agent.api_stuck a eq_refl Hfwpos Hsmpos Hpath)))))
  end.
Defined.

End agent_runs.
